(** * Session-state coordination hooks of oh-my-opencode

  A shallow embedding of the hook layer: the preemptive compaction
  trigger, the context-overflow recovery executor, the orchestrator and
  planner tool guards, and the todo-continuation state machine, with the
  properties the specification states about them.

  JavaScript numbers that hold counters, sizes and timestamps are
  integers here ([Z], [nat]); the one division the hooks perform
  (the usage ratio) is an exact rational.  Strings are [string]s of
  8-bit characters, which agrees with JavaScript on the ASCII texts the
  hooks compare. *)

From Stdlib Require Import ZArith QArith String Ascii DecimalString List Lia Bool.
From stdpp Require Import gmap strings list fin_maps.
Close Scope Q_scope.
Open Scope string_scope.

(* ===================================================================== *)
(** ** String primitives of the host language *)
(* ===================================================================== *)

Module JsString.

(** [s.includes(key)] *)
Fixpoint includes (s key : string) : bool :=
  if String.prefix key s then true
  else match s with
       | EmptyString => false
       | String _ s' => includes s' key
       end.

(** [s.endsWith(suffix)] *)
Definition endsWith (s suffix : string) : bool :=
  (String.length suffix <=? String.length s)%nat
  && String.eqb
       (String.substring (String.length s - String.length suffix)
                         (String.length suffix) s)
       suffix.

Definition lowerAscii (c : ascii) : ascii :=
  let n := nat_of_ascii c in
  if ((65 <=? n) && (n <=? 90))%nat then ascii_of_nat (n + 32) else c.

(** [s.toLowerCase()] on ASCII text *)
Fixpoint toLowerCase (s : string) : string :=
  match s with
  | EmptyString => EmptyString
  | String c s' => String (lowerAscii c) (toLowerCase s')
  end.

(** Scan for [key] from the left; after a match the next [skip]
    characters belong to it and cannot start another one. *)
Fixpoint occurrencesFrom (key s : string) (skip : nat) : nat :=
  match s with
  | EmptyString => 0
  | String _ s' =>
      match skip with
      | S k => occurrencesFrom key s' k
      | O => if String.prefix key s
             then S (occurrencesFrom key s' (String.length key - 1))
             else occurrencesFrom key s' 0
      end
  end.

(** [s.split(key).length - 1] for a non-empty [key] *)
Definition occurrences (s key : string) : nat := occurrencesFrom key s 0.

(** Template-literal rendering of a non-negative integer *)
Definition ofNat (n : nat) : string := NilZero.string_of_uint (Nat.to_uint n).

(** JavaScript truthiness of an optional string: [undefined] and the
    empty string are falsy. *)
Definition truthy (o : option string) : option string :=
  match o with
  | Some s => if String.eqb s "" then None else Some s
  | None => None
  end.

Definition nl : string := String (ascii_of_nat 10) EmptyString.
Definition dq : string := String (ascii_of_nat 34) EmptyString.

End JsString.

(* ===================================================================== *)
(** ** Preemptive compaction trigger *)
(* ===================================================================== *)

Module PreemptiveCompaction.
Import JsString.

Definition MODEL_CONTEXT_LIMITS : list (string * Z) :=
  [ ("claude-opus-4", 200000%Z);
    ("claude-sonnet-4", 200000%Z);
    ("claude-haiku-4", 200000%Z);
    ("gpt-4o", 128000%Z);
    ("gpt-4o-mini", 128000%Z);
    ("gpt-4-turbo", 128000%Z);
    ("gpt-4", 8192%Z);
    ("gpt-5", 1000000%Z);
    ("o1", 200000%Z);
    ("o1-mini", 128000%Z);
    ("o1-preview", 128000%Z);
    ("o3", 200000%Z);
    ("o3-mini", 200000%Z);
    ("gemini-2.0-flash", 1000000%Z);
    ("gemini-2.5-flash", 1000000%Z);
    ("gemini-2.5-pro", 2000000%Z);
    ("gemini-3-pro", 2000000%Z) ].

(** The [for ... of Object.entries(...)] loop: entries are visited in
    insertion order and the first key contained in [modelID] wins. *)
Fixpoint firstMatch (modelID : string) (entries : list (string * Z)) : option Z :=
  match entries with
  | [] => None
  | (key, limit) :: rest =>
      if includes modelID key then Some limit else firstMatch modelID rest
  end.

Definition getContextLimit (modelID : string) : Z :=
  match firstMatch modelID MODEL_CONTEXT_LIMITS with
  | Some limit => limit
  | None => 200000%Z
  end.

(** The lookup as the specification words it: among the keys contained
    in [modelID], the longest one decides (the earlier entry on a tie). *)
Fixpoint longestMatch (modelID : string) (entries : list (string * Z))
         (best : option (string * Z)) : option (string * Z) :=
  match entries with
  | [] => best
  | (key, limit) :: rest =>
      if includes modelID key then
        match best with
        | Some (bkey, _) =>
            if (String.length bkey <? String.length key)%nat
            then longestMatch modelID rest (Some (key, limit))
            else longestMatch modelID rest best
        | None => longestMatch modelID rest (Some (key, limit))
        end
      else longestMatch modelID rest best
  end.

Definition contextLimitByLongestMatch (modelID : string) : Z :=
  match longestMatch modelID MODEL_CONTEXT_LIMITS None with
  | Some (_, limit) => limit
  | None => 200000%Z
  end.

Record TokenInfo := mkTokens { input : Z; output : Z; cache_read : Z }.

Record MessageInfo := mkMessageInfo {
  providerID : option string;
  modelID : option string;
  tokens : option TokenInfo;
  summary : option bool
}.

Record PreemptiveCompactionState := mkState {
  lastCompactionTime : gmap string Z;
  compactionInProgress : gset string
}.

Definition createState : PreemptiveCompactionState :=
  {| lastCompactionTime := ∅; compactionInProgress := ∅ |}.

Definition totalUsed (t : TokenInfo) : Z := (input t + cache_read t + output t)%Z.

Definition usageRatio (t : TokenInfo) (model : string) : Q :=
  (inject_Z (totalUsed t) / inject_Z (getContextLimit model))%Q.

(** Calls that leave the hook. *)
Inductive Call :=
| ShowToast (title variant : string) (duration : Z)
| OnBeforeSummarize (sessionID provider model : string) (ratio : Q)
| Summarize (sessionID provider model : string).

(** What the outside world answers during one run of
    [checkAndTriggerCompaction]: the two clock readings, whether a
    before-summarize callback is installed and returns normally, and
    whether [session.summarize] resolves. *)
Record Oracle := mkOracle {
  now_check : Z;
  now_set : Z;
  before_ok : option bool;
  summarize_ok : bool
}.

Definition addInProgress (sid : string) (st : PreemptiveCompactionState) :=
  {| lastCompactionTime := lastCompactionTime st;
     compactionInProgress := {[ sid ]} ∪ compactionInProgress st |}.

Definition deleteInProgress (sid : string) (st : PreemptiveCompactionState) :=
  {| lastCompactionTime := lastCompactionTime st;
     compactionInProgress := compactionInProgress st ∖ {[ sid ]} |}.

Definition setLastCompaction (sid : string) (t : Z) (st : PreemptiveCompactionState) :=
  {| lastCompactionTime := <[ sid := t ]> (lastCompactionTime st);
     compactionInProgress := compactionInProgress st |}.

Section Trigger.
  (** Constants of [./constants] and the configured threshold. *)
Variable MIN_TOKENS_FOR_COMPACTION : Z.
Variable COMPACTION_COOLDOWN_MS : Z.
Variable threshold : Q.

  (** The [try { ... } catch { } finally { }] block.  Each call is
      recorded with the hook state at the moment it is issued. *)
Definition summarizeBlock (o : Oracle) (sid provider model : string) (ratio : Q)
             (st : PreemptiveCompactionState)
    : PreemptiveCompactionState * list (Call * PreemptiveCompactionState) :=
    let before :=
      match before_ok o with
      | Some _ => [(OnBeforeSummarize sid provider model ratio, st)]
      | None => []
      end in
    let reached :=
      match before_ok o with
      | Some false => false
      | _ => true
      end in
    let calls :=
      if reached then
        (before ++ (Summarize sid provider model, st)
                :: (if summarize_ok o
                    then [(ShowToast "Compaction Complete" "success" 2000%Z, st)]
                    else []))%list
      else before in
    (deleteInProgress sid st, calls).

Definition checkAndTriggerCompaction (o : Oracle) (sessionID : string)
             (lastAssistant : MessageInfo) (st : PreemptiveCompactionState)
    : PreemptiveCompactionState * list (Call * PreemptiveCompactionState) :=
    if bool_decide (sessionID ∈ compactionInProgress st) then (st, [])
    else
      let lastCompaction := default 0%Z (lastCompactionTime st !! sessionID) in
      if (now_check o - lastCompaction <? COMPACTION_COOLDOWN_MS)%Z then (st, [])
      else
        match summary lastAssistant with
        | Some true => (st, [])
        | _ =>
            match tokens lastAssistant with
            | None => (st, [])
            | Some tk =>
                let model := default "" (modelID lastAssistant) in
                if (totalUsed tk <? MIN_TOKENS_FOR_COMPACTION)%Z then (st, [])
                else
                  let ratio := usageRatio tk model in
                  if negb (Qle_bool threshold ratio) then (st, [])
                  else
                    let st1 := setLastCompaction sessionID (now_set o)
                                 (addInProgress sessionID st) in
                    match truthy (providerID lastAssistant), truthy (Some model) with
                    | Some provider, Some model' =>
                        let toast := (ShowToast "Preemptive Compaction" "warning" 3000%Z, st1) in
                        let '(st2, calls) := summarizeBlock o sessionID provider model' ratio st1 in
                        (st2, toast :: calls)
                    | _, _ => (deleteInProgress sessionID st1, [])
                    end
            end
        end.

  (** The trigger checks of the hook, collected: single-flight guard,
      cooldown, not a summary, token floor, ratio threshold. *)
Definition passesTriggerChecks (o : Oracle) (sessionID : string)
             (lastAssistant : MessageInfo) (st : PreemptiveCompactionState) : bool :=
    negb (bool_decide (sessionID ∈ compactionInProgress st))
    && negb (now_check o - default 0%Z (lastCompactionTime st !! sessionID)
             <? COMPACTION_COOLDOWN_MS)%Z
    && match summary lastAssistant with Some true => false | _ => true end
    && match tokens lastAssistant with
       | None => false
       | Some tk =>
           negb (totalUsed tk <? MIN_TOKENS_FOR_COMPACTION)%Z
           && Qle_bool threshold (usageRatio tk (default "" (modelID lastAssistant)))
       end.

End Trigger.

End PreemptiveCompaction.

(* ===================================================================== *)
(** ** Context-overflow recovery executor *)
(* ===================================================================== *)

Module AutoCompact.
Import JsString.

Record RetryState := mkRetry { attempt : nat; lastAttemptTime : Z }.
Record FallbackState := mkFallback { revertAttempt : nat; lastRevertedMessageID : option string }.
Record TruncateState := mkTruncate { truncateAttempt : nat; lastTruncatedPartId : option string }.

(** The three configuration tables the executor imports from [./types]. *)
Record Config := mkConfig {
  maxTruncateAttempts : nat;
  minOutputSizeToTruncate : Z;
  maxAttempts : nat;
  initialDelayMs : Z;
  backoffFactor : Z;
  maxDelayMs : Z;
  maxRevertAttempts : nat;
  minMessagesRequired : nat
}.

(** What [findLargestToolResult] and [truncateToolResult] of [./storage]
    hand back. *)
Record ToolResultInfo := mkToolResult { partPath : string; partId : string; outputSize : Z }.
Record TruncateResult := mkTruncateResult {
  success : bool; toolName : option string; originalSize : option Z }.

Record Message := mkMessage { role : option string; id : option string }.

(** The [msg] argument: only its provider and model are read. *)
Record ErrorMessage := mkErrorMessage { providerID : option string; modelID : option string }.

(** Answers of the outside world during one invocation. *)
Record Env := mkEnv {
  largest : option ToolResultInfo;
  truncation : TruncateResult;
  now : Z;
  summarizeOk : bool;
  messages : option (list Message);
  revertAssistantOk : bool;
  revertUserOk : bool
}.

(** Everything an invocation does to the outside, in order. The two
    timers carry what their callback will do: send the "Continue" prompt,
    or call [executeCompact] again. *)
Inductive Effect :=
| FindLargest (sessionID : string)
| Truncate (path : string)
| Toast (title message variant : string) (duration : Z)
| SummarizeCall (sessionID provider model : string) (ok : bool)
| MessagesCall (sessionID : string)
| RevertCall (sessionID messageID : string) (ok : bool)
| SendContinueAfter (sessionID : string) (delay : Z)
| ScheduleRetry (sessionID : string) (delay : Z).

(** [(x / d).toFixed(1)] for a non-negative integer [x] and a power of
    two [d]: the quotient is exact, and ties round up. *)
Definition toFixed1 (x d : Z) : string :=
  let tenths := ((2 * 10 * x + d) / (2 * d))%Z in
  ofNat (Z.to_nat (tenths / 10)) ++ "." ++ ofNat (Z.to_nat (tenths mod 10)).

Definition formatBytes (bytes : Z) : string :=
  if (bytes <? 1024)%Z then ofNat (Z.to_nat bytes) ++ "B"
  else if (bytes <? 1024 * 1024)%Z then toFixed1 bytes 1024 ++ "KB"
  else toFixed1 bytes (1024 * 1024) ++ "MB".

Definition isRole (r : string) (m : Message) : bool :=
  match role m with Some r' => String.eqb r' r | None => false end.

Section Executor.
(** The payload of [errorDataBySession] is declared in [./types]; the
    executor only deletes it. *)
Variable ErrorData : Type.
Variable cfg : Config.

Record AutoCompactState := mkAutoCompactState {
  pendingCompact : gset string;
  errorDataBySession : gmap string ErrorData;
  retryStateBySession : gmap string RetryState;
  fallbackStateBySession : gmap string FallbackState;
  truncateStateBySession : gmap string TruncateState;
  compactionInProgress : gset string
}.

Definition setRetry (sid : string) (r : RetryState) (st : AutoCompactState) :=
  {| pendingCompact := pendingCompact st;
     errorDataBySession := errorDataBySession st;
     retryStateBySession := <[ sid := r ]> (retryStateBySession st);
     fallbackStateBySession := fallbackStateBySession st;
     truncateStateBySession := truncateStateBySession st;
     compactionInProgress := compactionInProgress st |}.

Definition setFallback (sid : string) (f : FallbackState) (st : AutoCompactState) :=
  {| pendingCompact := pendingCompact st;
     errorDataBySession := errorDataBySession st;
     retryStateBySession := retryStateBySession st;
     fallbackStateBySession := <[ sid := f ]> (fallbackStateBySession st);
     truncateStateBySession := truncateStateBySession st;
     compactionInProgress := compactionInProgress st |}.

Definition setTruncate (sid : string) (t : TruncateState) (st : AutoCompactState) :=
  {| pendingCompact := pendingCompact st;
     errorDataBySession := errorDataBySession st;
     retryStateBySession := retryStateBySession st;
     fallbackStateBySession := fallbackStateBySession st;
     truncateStateBySession := <[ sid := t ]> (truncateStateBySession st);
     compactionInProgress := compactionInProgress st |}.

Definition setInProgress (s : gset string) (st : AutoCompactState) :=
  {| pendingCompact := pendingCompact st;
     errorDataBySession := errorDataBySession st;
     retryStateBySession := retryStateBySession st;
     fallbackStateBySession := fallbackStateBySession st;
     truncateStateBySession := truncateStateBySession st;
     compactionInProgress := s |}.

Definition getOrCreateRetryState (sid : string) (st : AutoCompactState)
  : RetryState * AutoCompactState :=
  match retryStateBySession st !! sid with
  | Some r => (r, st)
  | None => let r := {| attempt := 0; lastAttemptTime := 0 |} in (r, setRetry sid r st)
  end.

Definition getOrCreateFallbackState (sid : string) (st : AutoCompactState)
  : FallbackState * AutoCompactState :=
  match fallbackStateBySession st !! sid with
  | Some f => (f, st)
  | None => let f := {| revertAttempt := 0; lastRevertedMessageID := None |} in
            (f, setFallback sid f st)
  end.

Definition getOrCreateTruncateState (sid : string) (st : AutoCompactState)
  : TruncateState * AutoCompactState :=
  match truncateStateBySession st !! sid with
  | Some t => (t, st)
  | None => let t := {| truncateAttempt := 0; lastTruncatedPartId := None |} in
            (t, setTruncate sid t st)
  end.

(** [getLastMessagePair]: [resp] is the data array of [session.messages],
    or [None] when the call throws or carries no array. *)
Definition getLastMessagePair (resp : option (list Message)) : option (string * option string) :=
  match resp with
  | None => None
  | Some data =>
      if (length data <? minMessagesRequired cfg)%nat then None
      else
        let reversed := rev data in
        let lastAssistant := List.find (isRole "assistant") reversed in
        let lastUser := List.find (isRole "user") reversed in
        match lastUser with
        | None => None
        | Some u =>
            match truthy (id u) with
            | None => None
            | Some userMessageID =>
                Some (userMessageID,
                      match lastAssistant with
                      | Some a => id a
                      | None => None
                      end)
            end
        end
  end.

Definition clearSessionState (sid : string) (st : AutoCompactState) : AutoCompactState :=
  {| pendingCompact := pendingCompact st ∖ {[ sid ]};
     errorDataBySession := delete sid (errorDataBySession st);
     retryStateBySession := delete sid (retryStateBySession st);
     fallbackStateBySession := delete sid (fallbackStateBySession st);
     truncateStateBySession := delete sid (truncateStateBySession st);
     compactionInProgress := compactionInProgress st ∖ {[ sid ]} |}.

Definition releaseGuard (sid : string) (st : AutoCompactState) : AutoCompactState :=
  setInProgress (compactionInProgress st ∖ {[ sid ]}) st.

Definition failureToast : Effect :=
  Toast "Auto Compact Failed"
        "All recovery attempts failed. Please start a new session."
        "error" 5000%Z.

(** Last tier: clear the session and tell the user. *)
Definition giveUp (sid : string) (st : AutoCompactState) : AutoCompactState * list Effect :=
  (clearSessionState sid st, [failureToast]).

Definition withEffects (pre : list Effect) (r : AutoCompactState * list Effect)
  : AutoCompactState * list Effect :=
  (fst r, (pre ++ snd r)%list).

Definition recoveryToast : Effect :=
  Toast "Emergency Recovery" "Removing last message pair..." "warning" 3000%Z.

(** Third tier: revert the last assistant and user messages. *)
Definition revertTier (env : Env) (sid : string) (st0 : AutoCompactState)
  : AutoCompactState * list Effect :=
  let '(fallbackState, st) := getOrCreateFallbackState sid st0 in
  if (revertAttempt fallbackState <? maxRevertAttempts cfg)%nat then
    match getLastMessagePair (messages env) with
    | Some (userMessageID, assistantMessageID) =>
        let assistantCalls :=
          match truthy assistantMessageID with
          | Some a => [RevertCall sid a (revertAssistantOk env)]
          | None => []
          end in
        let assistantDone :=
          match truthy assistantMessageID with
          | Some _ => revertAssistantOk env
          | None => true
          end in
        if assistantDone then
          if revertUserOk env then
            let st1 := setFallback sid
                         {| revertAttempt := S (revertAttempt fallbackState);
                            lastRevertedMessageID := Some userMessageID |} st in
            let st2 := match retryStateBySession st1 !! sid with
                       | Some r => setRetry sid {| attempt := 0;
                                                   lastAttemptTime := lastAttemptTime r |} st1
                       | None => st1
                       end in
            let st3 := match truncateStateBySession st2 !! sid with
                       | Some t => setTruncate sid {| truncateAttempt := 0;
                                                      lastTruncatedPartId := lastTruncatedPartId t |} st2
                       | None => st2
                       end in
            (releaseGuard sid st3,
             (MessagesCall sid :: recoveryToast :: assistantCalls
              ++ [RevertCall sid userMessageID true; ScheduleRetry sid 1000%Z])%list)
          else
            withEffects (MessagesCall sid :: recoveryToast :: assistantCalls
                         ++ [RevertCall sid userMessageID false])%list
                        (giveUp sid st)
        else
          withEffects (MessagesCall sid :: recoveryToast :: assistantCalls) (giveUp sid st)
    | None => withEffects [MessagesCall sid] (giveUp sid st)
    end
  else giveUp sid st.

Definition cappedDelay (attempts : nat) : Z :=
  Z.min (initialDelayMs cfg * backoffFactor cfg ^ Z.of_nat (attempts - 1)) (maxDelayMs cfg).

Definition summarizeToast (attempts : nat) : Effect :=
  Toast "Auto Compact"
        ("Summarizing session (attempt " ++ ofNat attempts ++ "/"
         ++ ofNat (maxAttempts cfg) ++ ")...")
        "warning" 3000%Z.

(** Second tier: ask the host to summarize the session. *)
Definition summarizeTier (env : Env) (msg : ErrorMessage) (sid : string)
           (st0 : AutoCompactState) : AutoCompactState * list Effect :=
  let '(retryState, st) := getOrCreateRetryState sid st0 in
  if (attempt retryState <? maxAttempts cfg)%nat then
    let attempts := S (attempt retryState) in
    let st1 := setRetry sid {| attempt := attempts; lastAttemptTime := now env |} st in
    match truthy (providerID msg), truthy (modelID msg) with
    | Some provider, Some model =>
        if summarizeOk env then
          (clearSessionState sid st1,
           [summarizeToast attempts; SummarizeCall sid provider model true;
            SendContinueAfter sid 500%Z])
        else
          (releaseGuard sid st1,
           [summarizeToast attempts; SummarizeCall sid provider model false;
            ScheduleRetry sid (cappedDelay attempts)])
    | _, _ => revertTier env sid st1
    end
  else revertTier env sid st.

Definition truncateToast (r : TruncateResult) : Effect :=
  Toast "Truncating Large Output"
        ("Truncated " ++ default "undefined" (toolName r) ++ " ("
         ++ formatBytes (default 0%Z (originalSize r)) ++ "). Retrying...")
        "warning" 3000%Z.

(** The state in which the tiers start: guard taken, truncate record
    present. *)
Definition enter (sid : string) (st : AutoCompactState) : TruncateState * AutoCompactState :=
  getOrCreateTruncateState sid (setInProgress ({[ sid ]} ∪ compactionInProgress st) st).

Definition executeCompact (env : Env) (msg : ErrorMessage) (sid : string)
           (st0 : AutoCompactState) : AutoCompactState * list Effect :=
  if bool_decide (sid ∈ compactionInProgress st0) then (st0, [])
  else
    let '(truncateState, st) := enter sid st0 in
    if (truncateAttempt truncateState <? maxTruncateAttempts cfg)%nat then
      match largest env with
      | Some l =>
          if (minOutputSizeToTruncate cfg <=? outputSize l)%Z then
            if success (truncation env) then
              let st1 := setTruncate sid
                           {| truncateAttempt := S (truncateAttempt truncateState);
                              lastTruncatedPartId := Some (partId l) |} st in
              (releaseGuard sid st1,
               [FindLargest sid; Truncate (partPath l); truncateToast (truncation env);
                SendContinueAfter sid 500%Z])
            else
              withEffects [FindLargest sid; Truncate (partPath l)]
                          (summarizeTier env msg sid st)
          else withEffects [FindLargest sid] (summarizeTier env msg sid st)
      | None => withEffects [FindLargest sid] (summarizeTier env msg sid st)
      end
    else summarizeTier env msg sid st.

(** A session with no recovery record left. *)
Definition cleared (sid : string) (st : AutoCompactState) : Prop :=
  (sid ∉ pendingCompact st)
  /\ errorDataBySession st !! sid = None
  /\ retryStateBySession st !! sid = None
  /\ fallbackStateBySession st !! sid = None
  /\ truncateStateBySession st !! sid = None
  /\ (sid ∉ compactionInProgress st).

Definition truncateAttemptOf (sid : string) (st : AutoCompactState) : nat :=
  match truncateStateBySession st !! sid with Some t => truncateAttempt t | None => 0 end.

Definition retryAttemptOf (sid : string) (st : AutoCompactState) : nat :=
  match retryStateBySession st !! sid with Some r => attempt r | None => 0 end.

Definition revertAttemptOf (sid : string) (st : AutoCompactState) : nat :=
  match fallbackStateBySession st !! sid with Some f => revertAttempt f | None => 0 end.

Definition isTruncation (e : Effect) : bool :=
  match e with FindLargest _ | Truncate _ => true | _ => false end.

Definition isSummarize (e : Effect) : bool :=
  match e with SummarizeCall _ _ _ _ => true | _ => false end.

Definition isTimer (e : Effect) : bool :=
  match e with SendContinueAfter _ _ | ScheduleRetry _ _ => true | _ => false end.

End Executor.

Arguments pendingCompact {ErrorData} _.
Arguments errorDataBySession {ErrorData} _.
Arguments retryStateBySession {ErrorData} _.
Arguments fallbackStateBySession {ErrorData} _.
Arguments truncateStateBySession {ErrorData} _.
Arguments compactionInProgress {ErrorData} _.
Arguments setRetry {ErrorData} sid r st.
Arguments setFallback {ErrorData} sid f st.
Arguments setTruncate {ErrorData} sid t st.
Arguments setInProgress {ErrorData} s st.
Arguments getOrCreateRetryState {ErrorData} sid st.
Arguments getOrCreateFallbackState {ErrorData} sid st.
Arguments getOrCreateTruncateState {ErrorData} sid st.
Arguments clearSessionState {ErrorData} sid st.
Arguments releaseGuard {ErrorData} sid st.
Arguments giveUp {ErrorData} sid st.
Arguments withEffects {ErrorData} pre r.
Arguments revertTier {ErrorData} cfg env sid st0.
Arguments summarizeTier {ErrorData} cfg env msg sid st0.
Arguments enter {ErrorData} sid st.
Arguments executeCompact {ErrorData} cfg env msg sid st0.
Arguments cleared {ErrorData} sid st.
Arguments truncateAttemptOf {ErrorData} sid st.
Arguments retryAttemptOf {ErrorData} sid st.
Arguments revertAttemptOf {ErrorData} sid st.

(** What the revert tier does before it ends: the message listing, its
    toast, the revert calls. *)
Definition isRevertStep (e : Effect) : bool :=
  match e with
  | MessagesCall _ | RevertCall _ _ _ => true
  | Toast t _ _ _ => String.eqb t "Emergency Recovery"
  | _ => false
  end.

(** Concrete runs. The configuration has 20 truncations of results of at
    least 500 bytes, 2 summarize attempts backing off from 2 s by a factor
    2 up to 30 s, and 3 reverts of conversations of at least 2 messages. *)
Definition cfg0 : Config :=
  {| maxTruncateAttempts := 20; minOutputSizeToTruncate := 500;
     maxAttempts := 2; initialDelayMs := 2000; backoffFactor := 2; maxDelayMs := 30000;
     maxRevertAttempts := 3; minMessagesRequired := 2 |}.

Definition freshState : AutoCompactState unit :=
  {| pendingCompact := ∅; errorDataBySession := ∅; retryStateBySession := ∅;
     fallbackStateBySession := ∅; truncateStateBySession := ∅; compactionInProgress := ∅ |}.

Definition exhaustedState : AutoCompactState unit :=
  {| pendingCompact := {[ "ses_1" ]};
     errorDataBySession := {[ "ses_1" := tt ]};
     retryStateBySession := {[ "ses_1" := {| attempt := 2; lastAttemptTime := 1000 |} ]};
     fallbackStateBySession :=
       {[ "ses_1" := {| revertAttempt := 3; lastRevertedMessageID := Some "msg_9" |} ]};
     truncateStateBySession :=
       {[ "ses_1" := {| truncateAttempt := 20; lastTruncatedPartId := Some "prt_7" |} ]};
     compactionInProgress := ∅ |}.

Definition envLarge : Env :=
  {| largest := Some {| partPath := "/storage/part/prt_1.json"; partId := "prt_1";
                        outputSize := 90000 |};
     truncation := {| success := true; toolName := Some "bash"; originalSize := Some 90000%Z |};
     now := 5000; summarizeOk := true; messages := None;
     revertAssistantOk := true; revertUserOk := true |}.

Definition envRevert : Env :=
  {| largest := None;
     truncation := {| success := false; toolName := None; originalSize := None |};
     now := 5000; summarizeOk := false;
     messages := Some [ {| role := Some "user"; id := Some "msg_u1" |};
                        {| role := Some "assistant"; id := Some "msg_a1" |} ];
     revertAssistantOk := true; revertUserOk := true |}.

Definition msgKnown : ErrorMessage :=
  {| providerID := Some "anthropic"; modelID := Some "claude-opus-4-5" |}.

Definition msgUnknown : ErrorMessage := {| providerID := None; modelID := None |}.

End AutoCompact.

(* ===================================================================== *)
(** ** Prompt directives appended by the tool hooks *)
(* ===================================================================== *)

Module Directive.
Import JsString.

Fixpoint memChar (c : ascii) (s : string) : bool :=
  match s with
  | EmptyString => false
  | String a s' => if Ascii.eqb a c then true else memChar c s'
  end.

(** The guarded append both hooks perform:
    [if (prompt && !prompt.includes(marker)) prompt = prompt + suffix]. *)
Definition appendOnce (marker suffix : string) (prompt : option string) : option string :=
  match truthy prompt with
  | Some p => if includes p marker then prompt else Some (p ++ suffix)
  | None => prompt
  end.

(** Number of markers in an optional prompt, absent counting as none. *)
Definition markerCount (marker : string) (prompt : option string) : nat :=
  match prompt with
  | Some p => occurrences p marker
  | None => 0
  end.

End Directive.

(* ===================================================================== *)
(** ** Orchestrator policy enforcer: the before-hook on prompts *)
(* ===================================================================== *)

Module SisyphusOrchestrator.
Import JsString Directive.

Definition WRITE_EDIT_TOOLS : list string := ["Write"; "Edit"; "write"; "edit"].

Definition SINGLE_TASK_MARKER : string := "[SYSTEM DIRECTIVE - SINGLE TASK ONLY]".

Definition SINGLE_TASK_DIRECTIVE : string :=
  "

[SYSTEM DIRECTIVE - SINGLE TASK ONLY]

**STOP. READ THIS BEFORE PROCEEDING.**

If you were NOT given **exactly ONE atomic task**, you MUST:
1. **IMMEDIATELY REFUSE** this request
2. **DEMAND** the orchestrator provide a single, specific task

**Your response if multiple tasks detected:**
> " ++ dq ++ "I refuse to proceed. You provided multiple tasks. An orchestrator's impatience destroys work quality.
> 
> PROVIDE EXACTLY ONE TASK. One file. One change. One verification.
> 
> Your rushing will cause: incomplete work, missed edge cases, broken tests, wasted context." ++ dq ++ "

**WARNING TO ORCHESTRATOR:**
- Your hasty batching RUINS deliverables
- Each task needs FULL attention and PROPER verification  
- Batch delegation = sloppy work = rework = wasted tokens

**REFUSE multi-task requests. DEMAND single-task clarity.**
".

Definition singleTaskSuffix : string :=
  nl ++ "<system-reminder>" ++ SINGLE_TASK_DIRECTIVE ++ "</system-reminder>".

(** [isCallerOrchestrator], given the agent of the nearest stored message
    of the session ([None] when there is no session, directory or
    message). *)
Definition isCallerOrchestrator (nearestAgent : option string) : bool :=
  match nearestAgent with
  | Some a => String.eqb a "orchestrator-sisyphus"
  | None => false
  end.

(** What ["tool.execute.before"] does to [output.args.prompt]. The
    write/edit branch returns before the prompt is looked at. *)
Definition toolExecuteBefore (nearestAgent : option string) (tool : string)
           (prompt : option string) : option string :=
  if negb (isCallerOrchestrator nearestAgent) then prompt
  else if existsb (String.eqb tool) WRITE_EDIT_TOOLS then prompt
  else if String.eqb tool "sisyphus_task"
       then appendOnce SINGLE_TASK_MARKER singleTaskSuffix prompt
       else prompt.

(** The hook as the orchestrator's [sisyphus_task] calls meet it. *)
Definition orchestratorHook : option string -> option string :=
  toolExecuteBefore (Some "orchestrator-sisyphus") "sisyphus_task".

End SisyphusOrchestrator.

(* ===================================================================== *)
(** ** Markdown-only write guard of the planner *)
(* ===================================================================== *)

Module PrometheusMdOnly.
Import JsString Directive.

(** Modelled from the spec: the agent name of the planner role, as the
    guard's tests store it in the message metadata; the hook itself
    (hooks/prometheus-md-only) is not part of the source tree. *)
Definition PLANNER_AGENT : string := "Prometheus (Planner)".

(** Modelled from the spec: the write/edit class of tools, spelled as the
    orchestrator hook spells it. *)
Definition WRITE_EDIT_TOOLS : list string := ["Write"; "Edit"; "write"; "edit"].

(** Modelled from the spec: the tools by which the planner delegates to
    another agent, as the guard's tests name them. *)
Definition DELEGATE_TOOLS : list string := ["sisyphus_task"; "task"; "call_omo_agent"].

(** Modelled from the spec: the name of the reserved directory. *)
Definition RESERVED_DIRECTORY : string := ".sisyphus".

Definition isSeparator (c : ascii) : bool :=
  Ascii.eqb c (ascii_of_nat 47) || Ascii.eqb c (ascii_of_nat 92).

(** Modelled from the spec: the path cut at forward slashes and
    backslashes alike. *)
Fixpoint segments (s : string) : list string :=
  match s with
  | EmptyString => [""]
  | String c s' =>
      if isSeparator c then "" :: segments s'
      else match segments s' with
           | seg :: rest => String c seg :: rest
           | [] => [String c ""]
           end
  end.

(** Modelled from the spec: [.] and empty segments dropped, [..]
    cancelling the segment before it ([stack] holds the segments kept so
    far, last one first). *)
Fixpoint resolve (segs stack : list string) : list string :=
  match segs with
  | [] => rev stack
  | seg :: rest =>
      if String.eqb seg "" || String.eqb seg "." then resolve rest stack
      else if String.eqb seg ".." then
        match stack with
        | top :: stack' =>
            if String.eqb top ".." then resolve rest (seg :: stack)
            else resolve rest stack'
        | [] => resolve rest [seg]
        end
      else resolve rest (seg :: stack)
  end.

(** Modelled from the spec: the components of the normalized path. *)
Definition normalizedComponents (path : string) : list string :=
  resolve (segments path) [].

(** Modelled from the spec: the path ends in [.md], in any letter case. *)
Definition isMarkdown (path : string) : bool := endsWith (toLowerCase path) ".md".

(** Modelled from the spec: the reserved directory name is a component
    of the normalized path, in any letter case. *)
Definition hasReservedComponent (path : string) : bool :=
  existsb (fun seg => String.eqb (toLowerCase seg) RESERVED_DIRECTORY)
          (normalizedComponents path).

(** Modelled from the spec: the two failures of section 4.5 and the
    wording the spec and the tests quote for them. *)
Inductive Rejection := NotMarkdown | OutsideReserved.

Definition rejectionMessage (r : Rejection) : string :=
  match r with
  | NotMarkdown => "can only write/edit .md files"
  | OutsideReserved => "can only write/edit .md files inside .sisyphus/"
  end.

(** What the before-hook does to a call: nothing, a thrown failure, or a
    new prompt argument. *)
Inductive Outcome :=
| Unchanged
| Rejected (r : Rejection)
| PromptSet (prompt : option string).

(** Modelled from the spec: the acting agent is the planner when the
    nearest stored message of the session names it. *)
Definition isPlanner (nearestAgent : option string) : bool :=
  match nearestAgent with
  | Some a => String.eqb a PLANNER_AGENT
  | None => false
  end.

Section Hook.
(** The marker prefix of system directives and the read-only warning
    built from it live in modules outside the source tree. *)
Variables marker warning : string.

(** Modelled from the spec: the guard's before-hook (section 4.5), given
    the agent of the nearest stored message, the tool, and the call's
    file path and prompt arguments. *)
Definition toolExecuteBefore (nearestAgent : option string) (tool : string)
           (filePath prompt : option string) : Outcome :=
  if negb (isPlanner nearestAgent) then Unchanged
  else if existsb (String.eqb tool) WRITE_EDIT_TOOLS then
    match filePath with
    | None => Unchanged
    | Some path =>
        if negb (isMarkdown path) then Rejected NotMarkdown
        else if negb (hasReservedComponent path) then Rejected OutsideReserved
        else Unchanged
    end
  else if existsb (String.eqb tool) DELEGATE_TOOLS then
    PromptSet (appendOnce marker warning prompt)
  else Unchanged.

(** The prompt argument after the hook. *)
Definition promptAfter (nearestAgent : option string) (tool : string)
           (filePath prompt : option string) : option string :=
  match toolExecuteBefore nearestAgent tool filePath prompt with
  | PromptSet p => p
  | _ => prompt
  end.

End Hook.
End PrometheusMdOnly.

(* ===================================================================== *)
(** ** Todo-continuation coordinator *)
(* ===================================================================== *)

Module TodoContinuation.
Import JsString.

Record Todo := mkTodo { content : string; status : string; priority : string; id : string }.

Definition CONTINUATION_PROMPT : string :=
  "[SYSTEM REMINDER - TODO CONTINUATION]

Incomplete tasks remain in your todo list. Continue working on the next pending task.

- Proceed without asking for permission
- Mark each task complete when finished
- Do not stop until all tasks are done".

Definition COUNTDOWN_SECONDS : Z := 2.
Definition MIN_INJECTION_INTERVAL_MS : Z := 10000.

Inductive SessionMode := idle | countingDown | injecting | recovering | errorBypass.

Definition SessionMode_eqb (a b : SessionMode) : bool :=
  match a, b with
  | idle, idle | countingDown, countingDown | injecting, injecting
  | recovering, recovering | errorBypass, errorBypass => true
  | _, _ => false
  end.

(** One state object of the [sessions] map. [timer] is the handle of
    the pending countdown timer. *)
Record SessionState := mkSession {
  version : nat;
  mode : SessionMode;
  timer : option nat;
  lastAttemptedAt : option Z
}.

Definition bump (s : SessionState) : SessionState :=
  {| version := S (version s); mode := mode s; timer := timer s;
     lastAttemptedAt := lastAttemptedAt s |}.

Definition setMode (m : SessionMode) (s : SessionState) : SessionState :=
  {| version := version s; mode := m; timer := timer s;
     lastAttemptedAt := lastAttemptedAt s |}.

Definition setTimer (t : option nat) (s : SessionState) : SessionState :=
  {| version := version s; mode := mode s; timer := t;
     lastAttemptedAt := lastAttemptedAt s |}.

Definition setLastAttemptedAt (t : Z) (s : SessionState) : SessionState :=
  {| version := version s; mode := mode s; timer := timer s;
     lastAttemptedAt := Some t |}.

Definition getIncompleteCount (todos : list Todo) : nat :=
  length (List.filter
            (fun t => negb (String.eqb (status t) "completed")
                      && negb (String.eqb (status t) "cancelled"))
            todos).

(** What [findNearestMessageWithFields] finds for the session. *)
Record ToolPermissions := mkTools { write : option bool; edit : option bool }.
Record StoredMessage := mkStored { agent : option string; tools : option ToolPermissions }.

Definition isFalse (o : option bool) : bool :=
  match o with Some false => true | _ => false end.

Definition agentHasWritePermission (prev : option StoredMessage) : bool :=
  match prev with
  | Some m =>
      match tools m with
      | Some t => negb (isFalse (write t)) && negb (isFalse (edit t))
      | None => true
      end
  | None => true
  end.

Definition prevAgent (prev : option StoredMessage) : option string :=
  match prev with Some m => agent m | None => None end.

Definition isPlanModeAgent (prev : option StoredMessage) : bool :=
  let agentName := toLowerCase (default "" (prevAgent prev)) in
  String.eqb agentName "plan" || String.eqb agentName "planner-sisyphus".

(** The surroundings a step reads: the clock, the main session id, the
    background manager and the message store. *)
Record World := mkWorld {
  now : Z;
  mainSessionID : option string;
  hasRunningBgTasks : string -> bool;
  prevMessage : string -> option StoredMessage
}.

Definition isMainSession (w : World) (sessionID : string) : bool :=
  match truthy (mainSessionID w) with
  | None => true
  | Some m => String.eqb sessionID m
  end.

(** The model leaves out what has no bearing on state or prompts: the
    log lines, with [detectInterrupt], which only words one of them, and
    the promises of the toast calls.  The last version check of
    [executeInjection] follows the one after the todo fetch with no
    [await] in between, so it sees the same version and is not repeated. *)

(** What is still to run: the two timers of a countdown, and the
    continuations parked at an [await]. State objects are named by their
    place in the heap; a continuation keeps the object it started with. *)
Inductive Task :=
| ToastInterval (loc capturedVersion : nat) (secondsRemaining : Z) (incompleteCount : nat)
| CountdownTimer (sessionID : string) (loc capturedVersion interval : nat)
| IdleTodoFetch (sessionID : string)
| InjectTodoFetch (sessionID : string) (loc capturedVersion : nat)
| InjectPrompt (loc : nat).

Inductive Effect :=
| ShowToast (seconds : Z) (incompleteCount : nat)
| Prompt (sessionID : string) (agent : option string) (text : string).

(** The coordinator: the state objects, the [sessions] map onto them,
    the pending tasks by handle, and what was sent so far (latest
    first). *)
Record System := mkSystem {
  heap : list SessionState;
  sessions : gmap string nat;
  tasks : list (option Task);
  effects : list Effect
}.

Definition init : System :=
  {| heap := []; sessions := ∅; tasks := []; effects := [] |}.

Definition updState (l : nat) (f : SessionState -> SessionState) (st : System) : System :=
  {| heap := alter f l (heap st); sessions := sessions st;
     tasks := tasks st; effects := effects st |}.

Definition addTask (t : Task) (st : System) : System :=
  {| heap := heap st; sessions := sessions st;
     tasks := (tasks st ++ [Some t])%list; effects := effects st |}.

Definition removeTask (h : nat) (st : System) : System :=
  {| heap := heap st; sessions := sessions st;
     tasks := <[ h := None ]> (tasks st); effects := effects st |}.

Definition setTask (h : nat) (t : Task) (st : System) : System :=
  {| heap := heap st; sessions := sessions st;
     tasks := <[ h := Some t ]> (tasks st); effects := effects st |}.

Definition emit (e : Effect) (st : System) : System :=
  {| heap := heap st; sessions := sessions st;
     tasks := tasks st; effects := e :: effects st |}.

Definition taskAt (h : nat) (st : System) : option Task :=
  match tasks st !! h with
  | Some (Some t) => Some t
  | _ => None
  end.

Definition stateOf (sessionID : string) (st : System) : option (nat * SessionState) :=
  match sessions st !! sessionID with
  | Some l => match heap st !! l with
              | Some s => Some (l, s)
              | None => None
              end
  | None => None
  end.

(** [getOrCreateState]: the place of the session's object, and the
    system in which it exists. *)
Definition getOrCreateState (sessionID : string) (st : System) : nat * System :=
  match sessions st !! sessionID with
  | Some l => (l, st)
  | None =>
      (length (heap st),
       {| heap := (heap st ++ [ {| version := 0; mode := idle; timer := None;
                                   lastAttemptedAt := None |} ])%list;
          sessions := <[ sessionID := length (heap st) ]> (sessions st);
          tasks := tasks st; effects := effects st |})
  end.

Definition clearTimer (l : nat) (st : System) : System :=
  match heap st !! l with
  | Some s =>
      match timer s with
      | Some h => updState l (setTimer None) (removeTask h st)
      | None => st
      end
  | None => st
  end.

Definition invalidate (sessionID : string) (st : System) : System :=
  match stateOf sessionID st with
  | None => st
  | Some (l, s) =>
      if SessionMode_eqb (mode s) recovering then st
      else
        let st1 := clearTimer l (updState l bump st) in
        if negb (SessionMode_eqb (mode s) idle) && negb (SessionMode_eqb (mode s) errorBypass)
        then updState l (setMode idle) st1
        else st1
  end.

Definition markRecovering (sessionID : string) (st : System) : System :=
  let p := getOrCreateState sessionID st in
  updState (fst p) (setMode recovering) (invalidate sessionID (snd p)).

Definition markRecoveryComplete (sessionID : string) (st : System) : System :=
  match stateOf sessionID st with
  | Some (l, s) =>
      if SessionMode_eqb (mode s) recovering then updState l (setMode idle) st else st
  | None => st
  end.

Definition throttled (last : option Z) (current : Z) : bool :=
  match last with
  | Some t => if (t =? 0)%Z then false else (current - t <? MIN_INJECTION_INTERVAL_MS)%Z
  | None => false
  end.

(** [executeInjection] up to its first [await]. *)
Definition executeInjection (w : World) (sessionID : string) (capturedVersion : nat)
           (st : System) : System :=
  match stateOf sessionID st with
  | None => st
  | Some (l, s) =>
      if negb (version s =? capturedVersion)%nat then st
      else if negb (SessionMode_eqb (mode s) countingDown) then st
      else if throttled (lastAttemptedAt s) (now w) then updState l (setMode idle) st
      else addTask (InjectTodoFetch sessionID l capturedVersion)
                   (updState l (setMode injecting) st)
  end.

Definition promptText (todos : list Todo) (incompleteCount : nat) : string :=
  CONTINUATION_PROMPT ++ nl ++ nl ++ "[Status: "
  ++ ofNat (length todos - incompleteCount) ++ "/" ++ ofNat (length todos)
  ++ " completed, " ++ ofNat incompleteCount ++ " remaining]".

(** [executeInjection] from the answer of [session.todo] up to the call
    of [session.prompt]; [response] is [None] when the fetch threw. *)
Definition resumeInjection (w : World) (sessionID : string) (l capturedVersion : nat)
           (response : option (list Todo)) (st : System) : System :=
  match response with
  | None => updState l (setMode idle) st
  | Some todos =>
      match heap st !! l with
      | None => st
      | Some s =>
          if negb (version s =? capturedVersion)%nat then updState l (setMode idle) st
          else
            let incompleteCount := getIncompleteCount todos in
            if (incompleteCount =? 0)%nat then updState l (setMode idle) st
            else if hasRunningBgTasks w sessionID then updState l (setMode idle) st
            else
              let prev := prevMessage w sessionID in
              if negb (agentHasWritePermission prev) then updState l (setMode idle) st
              else if isPlanModeAgent prev then updState l (setMode idle) st
              else
                addTask (InjectPrompt l)
                  (emit (Prompt sessionID (prevAgent prev) (promptText todos incompleteCount))
                     (updState l (setLastAttemptedAt (now w)) st))
      end
  end.

Definition startCountdown (sessionID : string) (incompleteCount : nat) (st : System)
  : System :=
  let p := getOrCreateState sessionID st in
  let l := fst p in
  let st1 := updState l (fun s => setMode countingDown (bump s))
               (invalidate sessionID (snd p)) in
  let capturedVersion := match heap st1 !! l with Some s => version s | None => 0 end in
  let st2 := emit (ShowToast COUNTDOWN_SECONDS incompleteCount) st1 in
  let interval := length (tasks st2) in
  let st3 := addTask (ToastInterval l capturedVersion COUNTDOWN_SECONDS incompleteCount) st2 in
  let handle := length (tasks st3) in
  updState l (setTimer (Some handle))
    (addTask (CountdownTimer sessionID l capturedVersion interval) st3).

(** The [session.idle] branch from the answer of [session.todo] on. *)
Definition resumeIdle (w : World) (sessionID : string) (response : option (list Todo))
           (st : System) : System :=
  match response with
  | None => st
  | Some todos =>
      if (length todos =? 0)%nat then st
      else
        let incompleteCount := getIncompleteCount todos in
        if (incompleteCount =? 0)%nat then st
        else if hasRunningBgTasks w sessionID then st
        else startCountdown sessionID incompleteCount st
  end.

Inductive Event :=
| SessionError (sessionID : option string)
| SessionIdle (sessionID : option string)
| MessageUpdated (sessionID role finish : option string)
| MessagePartUpdated (sessionID role : option string)
| ToolExecuteBefore (sessionID : option string)
| ToolExecuteAfter (sessionID : option string)
| SessionDeleted (id : option string)
| OtherEvent.

Definition isRole (r : string) (role : option string) : bool :=
  match role with Some x => String.eqb x r | None => false end.

(** The event handler up to its first [await] (only the idle branch has
    one). *)
Definition handler (w : World) (e : Event) (st : System) : System :=
  match e with
  | SessionError sessionID =>
      match truthy sessionID with
      | None => st
      | Some sid =>
          let p := getOrCreateState sid st in
          updState (fst p) (setMode errorBypass) (invalidate sid (snd p))
      end
  | SessionIdle sessionID =>
      match truthy sessionID with
      | None => st
      | Some sid =>
          if negb (isMainSession w sid) then st
          else
            let p := getOrCreateState sid st in
            match heap (snd p) !! fst p with
            | Some s =>
                match mode s with
                | idle => addTask (IdleTodoFetch sid) (snd p)
                | _ => snd p
                end
            | None => snd p
            end
      end
  | MessageUpdated sessionID role finish =>
      match truthy sessionID with
      | None => st
      | Some sid =>
          if isRole "user" role then
            let st1 := match stateOf sid st with
                       | Some (l, s) =>
                           if SessionMode_eqb (mode s) errorBypass
                           then updState l (setMode idle) st else st
                       | None => st
                       end in
            invalidate sid st1
          else if isRole "assistant" role then
            match truthy finish with
            | None => invalidate sid st
            | Some _ => st
            end
          else st
      end
  | MessagePartUpdated sessionID role =>
      match truthy sessionID with
      | Some sid => if isRole "assistant" role then invalidate sid st else st
      | None => st
      end
  | ToolExecuteBefore sessionID | ToolExecuteAfter sessionID =>
      match truthy sessionID with
      | Some sid => invalidate sid st
      | None => st
      end
  | SessionDeleted id =>
      match truthy id with
      | Some sid =>
          let st1 := match sessions st !! sid with
                     | Some l => clearTimer l st
                     | None => st
                     end in
          {| heap := heap st1; sessions := delete sid (sessions st1);
             tasks := tasks st1; effects := effects st1 |}
      | None => st
      end
  | OtherEvent => st
  end.

(** One tick of the toast interval. *)
Definition tick (h l capturedVersion : nat) (secondsRemaining : Z) (incompleteCount : nat)
           (st : System) : System :=
  match heap st !! l with
  | None => st
  | Some s =>
      if negb (version s =? capturedVersion)%nat then removeTask h st
      else
        let left := (secondsRemaining - 1)%Z in
        let st1 := setTask h (ToastInterval l capturedVersion left incompleteCount) st in
        if (0 <? left)%Z then emit (ShowToast left incompleteCount) st1 else st1
  end.

(** What can happen next: the host delivers an event, the recovery hook
    calls in, a timer comes due, or an awaited call settles. *)
Inductive Label :=
| Deliver (e : Event)
| MarkRecovering (sessionID : string)
| MarkRecoveryComplete (sessionID : string)
| Fire (h : nat)
| TodoResult (h : nat) (response : option (list Todo))
| PromptResult (h : nat) (ok : bool).

Definition step (w : World) (lbl : Label) (st : System) : System :=
  match lbl with
  | Deliver e => handler w e st
  | MarkRecovering sid => markRecovering sid st
  | MarkRecoveryComplete sid => markRecoveryComplete sid st
  | Fire h =>
      match taskAt h st with
      | Some (ToastInterval l v secs n) => tick h l v secs n st
      | Some (CountdownTimer sid l v interval) =>
          executeInjection w sid v
            (clearTimer l (removeTask interval (removeTask h st)))
      | _ => st
      end
  | TodoResult h response =>
      match taskAt h st with
      | Some (IdleTodoFetch sid) => resumeIdle w sid response (removeTask h st)
      | Some (InjectTodoFetch sid l v) => resumeInjection w sid l v response (removeTask h st)
      | _ => st
      end
  | PromptResult h _ =>
      match taskAt h st with
      | Some (InjectPrompt l) => updState l (setMode idle) (removeTask h st)
      | _ => st
      end
  end.

Fixpoint run (trace : list (World * Label)) (st : System) : System :=
  match trace with
  | [] => st
  | (w, lbl) :: rest => run rest (step w lbl st)
  end.

Definition isPrompt (e : Effect) : bool :=
  match e with Prompt _ _ _ => true | ShowToast _ _ => false end.

(** The continuation prompts sent so far. *)
Definition prompts (st : System) : list Effect := List.filter isPrompt (effects st).

(** Labels that are no event and no call of the recovery hook: timers
    coming due and awaited calls settling. *)
Definition isInternal (lbl : Label) : bool :=
  match lbl with
  | Fire _ | TodoResult _ _ | PromptResult _ _ => true
  | _ => false
  end.

Definition modeOf (sessionID : string) (st : System) : option SessionMode :=
  match stateOf sessionID st with Some (_, s) => Some (mode s) | None => None end.

Definition versionOf (sessionID : string) (st : System) : option nat :=
  match stateOf sessionID st with Some (_, s) => Some (version s) | None => None end.

(** Every state object of [st] is still there in [st'], with a version
    that is no smaller. *)
Definition mono (st st' : System) : Prop :=
  forall l s, heap st !! l = Some s ->
              exists s', heap st' !! l = Some s' /\ version s <= version s'.

(** A pending timer or continuation holds a version its state object
    has reached. *)
Definition taskOk (st : System) (t : Task) : Prop :=
  match t with
  | ToastInterval l c _ _ | CountdownTimer _ l c _ | InjectTodoFetch _ l c =>
      exists s, heap st !! l = Some s /\ c <= version s
  | _ => True
  end.

(** The [sessions] map points at existing objects, and every pending
    task is [taskOk]. *)
Definition Inv (st : System) : Prop :=
  (forall sid l, sessions st !! sid = Some l -> is_Some (heap st !! l))
  /\ (forall h t, taskAt h st = Some t -> taskOk st t).

Definition eventSession (e : Event) : option string :=
  match e with
  | SessionError s | SessionIdle s | MessageUpdated s _ _ | MessagePartUpdated s _
  | ToolExecuteBefore s | ToolExecuteAfter s | SessionDeleted s => truthy s
  | OtherEvent => None
  end.

Definition isUserMessageEvent (e : Event) : bool :=
  match e with
  | MessageUpdated _ role _ => isRole "user" role
  | _ => false
  end.

Definition isDeletion (e : Event) : bool :=
  match e with SessionDeleted _ => true | _ => false end.

(** The session is in errorBypass, and [st'] has the same pending tasks
    (by count) and the same effects. *)
Definition bypassed (sid : string) (st st' : System) : Prop :=
  (exists l s, stateOf sid st' = Some (l, s) /\ mode s = errorBypass)
  /\ length (tasks st') = length (tasks st)
  /\ effects st' = effects st.

(** A trace whose steps all see the same surroundings. *)
Definition on (w : World) (labels : list Label) : list (World * Label) := map (pair w) labels.

Definition countStatus (wanted : string) (todos : list Todo) : nat :=
  length (List.filter (fun t => String.eqb (status t) wanted) todos).

Definition todos3 : list Todo :=
  [ mkTodo "write the parser" "pending" "high" "1";
    mkTodo "add tests" "pending" "medium" "2";
    mkTodo "set up the repository" "completed" "high" "3" ].

(** Main session [ses_main], no background task running, no stored
    message for the session. *)
Definition quietWorld : World :=
  {| now := 100000; mainSessionID := Some "ses_main";
     hasRunningBgTasks := fun _ => false; prevMessage := fun _ => None |}.

(** The same, with a plan-mode agent behind the last message. *)
Definition planWorld : World :=
  {| now := 100000; mainSessionID := Some "ses_main";
     hasRunningBgTasks := fun _ => false;
     prevMessage := fun _ => Some {| agent := Some "plan"; tools := None |} |}.

(** The same, with an agent whose write tool is switched off. *)
Definition readOnlyWorld : World :=
  {| now := 100000; mainSessionID := Some "ses_main";
     hasRunningBgTasks := fun _ => false;
     prevMessage := fun _ => Some {| agent := Some "explore";
                                     tools := Some {| write := Some false; edit := None |} |} |}.

(** Idle event and the answer of the todo fetch: the countdown runs. *)
Definition idleThenTodos (sid : string) (todos : list Todo) : list Label :=
  [Deliver (SessionIdle (Some sid)); TodoResult 0 (Some todos)].

(** The countdown elapses: [ticks] toast ticks, the timer, the second
    todo fetch, the prompt call. *)
Definition countdownElapses (ticks : nat) (todos : list Todo) : list Label :=
  (repeat (Fire 1) ticks
   ++ [Fire 2; TodoResult 3 (Some todos); PromptResult 4 true])%list.

(** The countdown was called off: version 3, no timer, at most the
    stale toast interval pending, nothing sent but the first toast. *)
Definition cancelled (st : System) : Prop :=
  heap st = [ {| version := 3; mode := idle; timer := None; lastAttemptedAt := None |} ]
  /\ effects st = [ ShowToast 2 2 ]
  /\ (tasks st = [ None; Some (ToastInterval 0 2 2 2); None ]
      \/ tasks st = [ None; None; None ]).

(** An error in mid-injection: the countdown has elapsed and the
    injection waits for its todo fetch when [session.error] arrives; the
    fetch then answers; the session goes idle again and a second
    countdown elapses.  No user message anywhere. *)
Definition errorDuringInjection : list Label :=
  [ Deliver (SessionIdle (Some "ses_main")); TodoResult 0 (Some todos3);
    Fire 2;
    Deliver (SessionError (Some "ses_main")) ].

Definition staleFetchAnswers : list Label := [ TodoResult 3 (Some todos3) ].

Definition idleAgain : list Label :=
  [ Deliver (SessionIdle (Some "ses_main")); TodoResult 4 (Some todos3);
    Fire 6; TodoResult 7 (Some todos3); PromptResult 8 true ].

Definition isUserMessage (lbl : Label) : bool :=
  match lbl with
  | Deliver e => isUserMessageEvent e
  | _ => false
  end.

End TodoContinuation.

(* ===================================================================== *)
(** ** Re-entry of the recovery executor through its retry timer *)
(* ===================================================================== *)

Module AutoCompactChain.
Import JsString AutoCompact.

Definition isScheduleRetry (e : Effect) : bool :=
  match e with ScheduleRetry _ _ => true | _ => false end.

(** Whether an invocation armed the timer whose callback calls
    [executeCompact] again. *)
Definition schedulesRetry (l : list Effect) : bool := existsb isScheduleRetry l.

(** [getLastAssistant]: the [info] of the last assistant message of the
    listing; [resp] is the data array of [session.messages], or [None]
    when the call throws or carries no array. *)
Definition getLastAssistant (resp : option (list Message)) : option Message :=
  match resp with
  | None => None
  | Some data => List.find (isRole "assistant") (rev data)
  end.

Section Chain.
Context {ErrorData : Type}.
Variable cfg : Config.

(** What a session has left before the executor stops re-arming its
    timer: the summarize attempts of the current round and, for every
    revert still allowed, a full round after it. *)
Definition retryBudget (sid : string) (st : AutoCompactState ErrorData) : nat :=
  (maxRevertAttempts cfg - revertAttemptOf sid st) * S (maxAttempts cfg)
  + (maxAttempts cfg - retryAttemptOf sid st).

(** The invocations that follow one call of [executeCompact] when every
    retry timer fires: the callback passes the same session, message and
    state object. [envs k] is what the outside world answers during the
    [k]-th invocation. The result holds the final state, the effects of
    each invocation, and whether the last one left no retry timer
    behind. *)
Fixpoint retryChain (fuel : nat) (envs : nat -> Env) (k : nat) (msg : ErrorMessage)
         (sid : string) (st : AutoCompactState ErrorData)
  : AutoCompactState ErrorData * list (list Effect) * bool :=
  match fuel with
  | O => (st, [], false)
  | S fuel' =>
      let r := executeCompact cfg (envs k) msg sid st in
      if schedulesRetry (snd r) then
        let '(st', traces, stopped) := retryChain fuel' envs (S k) msg sid (fst r) in
        (st', snd r :: traces, stopped)
      else (fst r, [snd r], true)
  end.

(** What one invocation may do to the state, seen from the session
    [sid] it runs for: the guard set comes back as it was, and no record
    of another session changes. *)
Record Frame (sid : string) (st st' : AutoCompactState ErrorData) : Prop := {
  frame_guard : compactionInProgress st' ∖ {[ sid ]} = compactionInProgress st ∖ {[ sid ]};
  frame_pending : forall s, s <> sid -> (s ∈ pendingCompact st' <-> s ∈ pendingCompact st);
  frame_error : forall s, s <> sid -> errorDataBySession st' !! s = errorDataBySession st !! s;
  frame_retry : forall s, s <> sid -> retryStateBySession st' !! s = retryStateBySession st !! s;
  frame_fallback : forall s, s <> sid ->
                     fallbackStateBySession st' !! s = fallbackStateBySession st !! s;
  frame_truncate : forall s, s <> sid ->
                     truncateStateBySession st' !! s = truncateStateBySession st !! s
}.

End Chain.

Arguments Frame {ErrorData} sid st st'.

(** A world in which every summarize call fails and every revert
    succeeds: the longest chain the executor can run. *)
Definition envStubborn : Env :=
  {| largest := None;
     truncation := {| success := false; toolName := None; originalSize := None |};
     now := 5000; summarizeOk := false;
     messages := Some [ {| role := Some "user"; id := Some "msg_u1" |};
                        {| role := Some "assistant"; id := Some "msg_a1" |} ];
     revertAssistantOk := true; revertUserOk := true |}.

End AutoCompactChain.

(* ===================================================================== *)
(** ** The tests that decide how an invocation of the executor ends *)
(* ===================================================================== *)

Module AutoCompactTiers.
Import JsString AutoCompact.

Section Tiers.
Context {ErrorData : Type}.
Variable cfg : Config.

(** The test under which the first tier returns: truncate attempts
    left, a stored tool result of at least the minimum size, and a
    truncation that reports success. *)
Definition truncationSucceeds (env : Env) (sid : string) (st : AutoCompactState ErrorData)
  : bool :=
  (truncateAttemptOf sid st <? maxTruncateAttempts cfg)%nat
  && match largest env with
     | Some l => (minOutputSizeToTruncate cfg <=? outputSize l)%Z && success (truncation env)
     | None => false
     end.

(** The test under which the second tier calls [session.summarize]:
    summarize attempts left, and both [providerID] and [modelID] of the
    message truthy. *)
Definition summarizeAttempted (msg : ErrorMessage) (sid : string)
           (st : AutoCompactState ErrorData) : bool :=
  (retryAttemptOf sid st <? maxAttempts cfg)%nat
  && match truthy (providerID msg), truthy (modelID msg) with
     | Some _, Some _ => true
     | _, _ => false
     end.

(** The test under which the third tier reaches the end of its [try]
    block: revert attempts left, a last message pair, and no revert call
    that throws. *)
Definition revertSucceeds (env : Env) (sid : string) (st : AutoCompactState ErrorData)
  : bool :=
  (revertAttemptOf sid st <? maxRevertAttempts cfg)%nat
  && match getLastMessagePair cfg (messages env) with
     | Some (_, assistantMessageID) =>
         match truthy assistantMessageID with
         | Some _ => revertAssistantOk env
         | None => true
         end
         && revertUserOk env
     | None => false
     end.

End Tiers.

(** A session that has been through two truncations, one failed
    summarize and one revert, with an error payload stored. *)
Definition usedState : AutoCompactState unit :=
  {| pendingCompact := {[ "ses_1" ]};
     errorDataBySession := {[ "ses_1" := tt ]};
     retryStateBySession := {[ "ses_1" := {| attempt := 1; lastAttemptTime := 1000 |} ]};
     fallbackStateBySession :=
       {[ "ses_1" := {| revertAttempt := 1; lastRevertedMessageID := Some "msg_9" |} ]};
     truncateStateBySession :=
       {[ "ses_1" := {| truncateAttempt := 2; lastTruncatedPartId := Some "prt_7" |} ]};
     compactionInProgress := ∅ |}.

(** Nothing to truncate, and a summarize call that succeeds. *)
Definition envSummarize : Env :=
  {| largest := None;
     truncation := {| success := false; toolName := None; originalSize := None |};
     now := 5000; summarizeOk := true; messages := None;
     revertAssistantOk := true; revertUserOk := true |}.

(** Nothing to truncate and no message listing: every tier fails. *)
Definition envNothing : Env :=
  {| largest := None;
     truncation := {| success := false; toolName := None; originalSize := None |};
     now := 5000; summarizeOk := false; messages := None;
     revertAssistantOk := false; revertUserOk := false |}.

End AutoCompactTiers.

(* ===================================================================== *)
(** ** Event handler of the preemptive compaction hook *)
(* ===================================================================== *)

Module PreemptiveCompactionEvents.
Import JsString PreemptiveCompaction.

(** A message as the events carry it: the fields the handler reads
    itself, and the ones [checkAndTriggerCompaction] reads. *)
Record EventMessage := mkEventMessage {
  role : string;
  sessionID : option string;
  finish : option bool;
  info : MessageInfo
}.

(** The events the handler tells apart. For [session.idle] the second
    field is the array [session.messages] resolves to, or [None] when the
    call (or reading its result) throws. *)
Inductive Event :=
| SessionDeleted (id : option string)
| MessageUpdated (message : option EventMessage)
| SessionIdle (session : option string) (listing : option (list EventMessage))
| OtherEvent (type : string).

Definition isAssistant (m : EventMessage) : bool := String.eqb (role m) "assistant".

Definition isTrue (b : option bool) : bool :=
  match b with Some true => true | _ => false end.

Definition deleteSession (sid : string) (st : PreemptiveCompactionState)
  : PreemptiveCompactionState :=
  {| lastCompactionTime := delete sid (lastCompactionTime st);
     compactionInProgress := compactionInProgress st ∖ {[ sid ]} |}.

(** The session an event is about, when it names one. *)
Definition eventSession (e : Event) : option string :=
  match e with
  | SessionDeleted id => truthy id
  | MessageUpdated (Some m) => truthy (sessionID m)
  | MessageUpdated None => None
  | SessionIdle session _ => truthy session
  | OtherEvent _ => None
  end.

Section Handler.
Variable MIN_TOKENS_FOR_COMPACTION : Z.
Variable COMPACTION_COOLDOWN_MS : Z.
Variable threshold : Q.
(** [experimental?.preemptive_compaction !== false] *)
Variable enabled : bool.

Definition eventHandler (o : Oracle) (e : Event) (st : PreemptiveCompactionState)
  : PreemptiveCompactionState * list (Call * PreemptiveCompactionState) :=
  if negb enabled then (st, [])
  else
    match e with
    | SessionDeleted id =>
        match truthy id with
        | Some sid => (deleteSession sid st, [])
        | None => (st, [])
        end
    | MessageUpdated None => (st, [])
    | MessageUpdated (Some m) =>
        if negb (isAssistant m) || negb (isTrue (finish m)) then (st, [])
        else
          match truthy (sessionID m) with
          | None => (st, [])
          | Some sid =>
              checkAndTriggerCompaction MIN_TOKENS_FOR_COMPACTION COMPACTION_COOLDOWN_MS
                                        threshold o sid (info m) st
          end
    | SessionIdle session listing =>
        match truthy session with
        | None => (st, [])
        | Some sid =>
            match listing with
            | None => (st, [])
            | Some messages =>
                let assistants := map info (List.filter isAssistant messages) in
                match last assistants with
                | None => (st, [])
                | Some lastAssistant =>
                    checkAndTriggerCompaction MIN_TOKENS_FOR_COMPACTION
                                              COMPACTION_COOLDOWN_MS threshold
                                              o sid lastAssistant st
                end
            end
        end
    | OtherEvent _ => (st, [])
    end.

(** Events handled one after the other, each with the answers the
    outside world gives while it is handled; the calls of each event are
    kept apart. *)
Fixpoint runEvents (es : list (Oracle * Event)) (st : PreemptiveCompactionState)
  : PreemptiveCompactionState * list (list (Call * PreemptiveCompactionState)) :=
  match es with
  | [] => (st, [])
  | (o, e) :: rest =>
      let r := eventHandler o e st in
      let r' := runEvents rest (fst r) in
      (fst r', snd r :: snd r')
  end.

End Handler.

(** Concrete runs: floor 50,000 tokens, one-minute cooldown, threshold
    0.8; 170,000 tokens on a 200,000-token model. *)
Definition oracle0 : Oracle :=
  {| now_check := 100000; now_set := 100000; before_ok := None; summarize_ok := true |}.

Definition fullMessage : MessageInfo :=
  {| providerID := Some "anthropic"; modelID := Some "claude-opus-4-5";
     tokens := Some (mkTokens 150000 10000 10000); summary := None |}.

Definition anonymousMessage : MessageInfo :=
  {| providerID := None; modelID := Some "claude-opus-4-5";
     tokens := Some (mkTokens 150000 10000 10000); summary := None |}.

Definition stampedState : PreemptiveCompactionState :=
  {| lastCompactionTime := {[ "ses_1" := 100000%Z ]}; compactionInProgress := ∅ |}.

Definition finished (sid : string) (m : MessageInfo) : EventMessage :=
  {| role := "assistant"; sessionID := Some sid; finish := Some true; info := m |}.

End PreemptiveCompactionEvents.

(* ===================================================================== *)
(** ** Pending countdown timers of the todo continuation coordinator *)
(* ===================================================================== *)

Module TodoContinuationTimers.
Import JsString TodoContinuation.

(** The countdown timer with handle [h] is pending for the state object
    at [l], holding the version [v]. *)
Definition pendingCountdown (h l v : nat) (st : System) : Prop :=
  exists sid interval, taskAt h st = Some (CountdownTimer sid l v interval).

(** Every pending countdown timer is the one its state object has in
    [timer], holds the object's current version, and its object is not
    recovering. *)
Definition timerOk (st : System) : Prop :=
  forall h l v,
    pendingCountdown h l v st ->
    exists s, heap st !! l = Some s /\ timer s = Some h /\ version s = v
              /\ mode s <> recovering.

(** No countdown timer is pending for the object at [l]. *)
Definition quiet (l : nat) (st : System) : Prop :=
  forall h v, ~ pendingCountdown h l v st.

Definition notCountdown (t : Task) : Prop :=
  match t with CountdownTimer _ _ _ _ => False | _ => True end.

(** Concrete states of the main session [ses_main]. *)
Definition oneSession (s : SessionState) (pending : list (option Task)) : System :=
  {| heap := [s]; sessions := {[ "ses_main" := 0 ]}; tasks := pending; effects := [] |}.

(** A countdown is about to elapse five seconds after the last
    injection attempt (the clock of [quietWorld] reads 100,000). *)
Definition countdownSoonAfterAttempt : System :=
  oneSession {| version := 4; mode := countingDown; timer := Some 2;
                lastAttemptedAt := Some 95000%Z |}
             [ None; Some (ToastInterval 0 4 2 2); Some (CountdownTimer "ses_main" 0 4 1) ].

(** An injection waits for its todo fetch. *)
Definition injectionInFlight : System :=
  oneSession {| version := 2; mode := injecting; timer := None; lastAttemptedAt := None |}
             [ None; None; None; Some (InjectTodoFetch "ses_main" 0 2) ].

Definition recoveringSession : System :=
  oneSession {| version := 3; mode := recovering; timer := None; lastAttemptedAt := None |} [].

Definition bypassedSession : System :=
  oneSession {| version := 3; mode := errorBypass; timer := None; lastAttemptedAt := None |} [].

End TodoContinuationTimers.

(* ===================================================================== *)
(** ** Orchestrator policy enforcer: events and the write/edit hooks *)
(* ===================================================================== *)

Module SisyphusOrchestratorEvents.
Import JsString SisyphusOrchestrator.

Definition backslash : string := String (ascii_of_nat 92) EmptyString.

(** [/\.sisyphus[/\\]/.test(filePath)] *)
Definition isSisyphusPath (filePath : string) : bool :=
  includes filePath ".sisyphus/" || includes filePath (".sisyphus" ++ backslash).

(** The [error] property of a [session.error] event, by what the
    function asks of it: falsy, an object with optional [name] and
    [message], a string, or another truthy value. *)
Inductive JsError :=
| ErrFalsy
| ErrObject (name message : option string)
| ErrString (text : string)
| ErrOther.

Definition isAbortError (error : JsError) : bool :=
  match error with
  | ErrFalsy => false
  | ErrObject name message =>
      let message := match message with Some m => toLowerCase m | None => "" end in
      if match name with
         | Some n => String.eqb n "MessageAbortedError" || String.eqb n "AbortError"
         | None => false
         end then true
      else if match name with Some n => String.eqb n "DOMException" | None => false end
              && includes message "abort" then true
      else includes message "aborted" || includes message "cancelled"
           || includes message "interrupted"
  | ErrString text =>
      if String.eqb text "" then false
      else
        let lower := toLowerCase text in
        includes lower "abort" || includes lower "cancel" || includes lower "interrupt"
  | ErrOther => false
  end.

Definition DIRECT_WORK_REMINDER : string :=
  "

---

[SYSTEM REMINDER - DELEGATION REQUIRED]

You just performed direct file modifications outside `.sisyphus/`.

**You are an ORCHESTRATOR, not an IMPLEMENTER.**

As an orchestrator, you should:
- **DELEGATE** implementation work to subagents via `sisyphus_task`
- **VERIFY** the work done by subagents
- **COORDINATE** multiple tasks and ensure completion

You should NOT:
- Write code directly (except for `.sisyphus/` files like plans and notepads)
- Make direct file edits outside `.sisyphus/`
- Implement features yourself

**If you need to make changes:**
1. Use `sisyphus_task` to delegate to an appropriate subagent
2. Provide clear instructions in the prompt
3. Verify the subagent's work after completion

---
".

Record Model := mkModel { providerID : option string; modelID : option string }.

Record BoulderState := mkBoulder {
  active_plan : string;
  plan_name : string;
  session_ids : list string
}.

Record PlanProgress := mkProgress { total : Z; completed : Z; isComplete : bool }.

(** What the handler reads from its surroundings. [sessionMessages] is
    the [model] of each message of the listing, or [None] when the call
    throws; [storedModel] is the model of the nearest stored message. *)
Record World := mkWorld {
  boulderState : option BoulderState;
  mainSessionID : option string;
  subagentSessions : gset string;
  hasRunningBgTasks : string -> bool;
  nearestAgent : string -> option string;
  getPlanProgress : string -> PlanProgress;
  sessionMessages : string -> option (list (option Model));
  storedModel : string -> option Model
}.

Inductive Effect :=
| Prompt (sessionID agent : string) (model : option (string * string)) (text : string).

Inductive Event :=
| SessionError (sessionID : option string) (error : JsError)
| SessionIdle (sessionID : option string)
| MessageUpdated (sessionID : option string)
| MessagePartUpdated (sessionID role : option string)
| ToolExecuteBefore (sessionID : option string)
| ToolExecuteAfter (sessionID : option string)
| SessionDeleted (id : option string)
| OtherEvent.

(** The [sessions] map: per session, [lastEventWasAbortError], which a
    fresh record leaves undefined. *)
Abbreviation Sessions := (gmap string (option bool)).

Definition getState (sessionID : string) (st : Sessions) : Sessions :=
  match st !! sessionID with
  | Some _ => st
  | None => <[ sessionID := None ]> st
  end.

(** [state.lastEventWasAbortError = false] on the record if there is
    one. *)
Definition clearAbortFlag (sessionID : string) (st : Sessions) : Sessions :=
  match st !! sessionID with
  | Some _ => <[ sessionID := Some false ]> st
  | None => st
  end.

Definition ofZ (z : Z) : string :=
  if (z <? 0)%Z then "-" ++ ofNat (Z.to_nat (- z)) else ofNat (Z.to_nat z).

Definition usable (m : option Model) : option (string * string) :=
  match m with
  | Some m' =>
      match truthy (providerID m'), truthy (modelID m') with
      | Some p, Some i => Some (p, i)
      | _, _ => None
      end
  | None => None
  end.

(** The loop from the last message back to the first one with a usable
    model. *)
Fixpoint lastUsable (messages : list (option Model)) : option (string * string) :=
  match messages with
  | [] => None
  | m :: rest =>
      match lastUsable rest with
      | Some found => Some found
      | None => usable m
      end
  end.

Section Handler.
(** [BOULDER_CONTINUATION_PROMPT] with every [{PLAN_NAME}] replaced by
    the plan name. *)
Variable continuationPromptFor : string -> string.

Definition injectContinuation (w : World) (sessionID planName : string) (remaining total : Z)
  : list Effect :=
  if hasRunningBgTasks w sessionID then []
  else
    let prompt := continuationPromptFor planName ++ nl ++ nl ++ "[Status: "
                  ++ ofZ (total - remaining) ++ "/" ++ ofZ total ++ " completed, "
                  ++ ofZ remaining ++ " remaining]" in
    let model := match sessionMessages w sessionID with
                 | Some messages => lastUsable messages
                 | None => usable (storedModel w sessionID)
                 end in
    [Prompt sessionID "orchestrator-sisyphus" model prompt].

Definition handler (w : World) (e : Event) (st : Sessions) : Sessions * list Effect :=
  match e with
  | SessionError sessionID error =>
      match truthy sessionID with
      | None => (st, [])
      | Some sid => (<[ sid := Some (isAbortError error) ]> (getState sid st), [])
      end
  | SessionIdle sessionID =>
      match truthy sessionID with
      | None => (st, [])
      | Some sid =>
          let isBoulderSession :=
            match boulderState w with
            | Some b => existsb (String.eqb sid) (session_ids b)
            | None => false
            end in
          let isMainSession :=
            match mainSessionID w with Some m => String.eqb sid m | None => false end in
          let isBackgroundTaskSession := bool_decide (sid ∈ subagentSessions w) in
          if (match truthy (mainSessionID w) with Some _ => true | None => false end)
             && negb isMainSession && negb isBackgroundTaskSession && negb isBoulderSession
          then (st, [])
          else
            let st1 := getState sid st in
            match st1 !! sid with
            | Some (Some true) => (<[ sid := Some false ]> st1, [])
            | _ =>
                if hasRunningBgTasks w sid then (st1, [])
                else
                  match boulderState w with
                  | None => (st1, [])
                  | Some b =>
                      if negb (isCallerOrchestrator (nearestAgent w sid)) then (st1, [])
                      else
                        let progress := getPlanProgress w (active_plan b) in
                        if isComplete progress then (st1, [])
                        else
                          let remaining := (total progress - completed progress)%Z in
                          (st1, injectContinuation w sid (plan_name b) remaining
                                                   (total progress))
                  end
            end
      end
  | MessageUpdated sessionID =>
      match truthy sessionID with
      | None => (st, [])
      | Some sid => (clearAbortFlag sid st, [])
      end
  | MessagePartUpdated sessionID role =>
      match truthy sessionID with
      | Some sid =>
          if match role with Some r => String.eqb r "assistant" | None => false end
          then (clearAbortFlag sid st, []) else (st, [])
      | None => (st, [])
      end
  | ToolExecuteBefore sessionID | ToolExecuteAfter sessionID =>
      match truthy sessionID with
      | Some sid => (clearAbortFlag sid st, [])
      | None => (st, [])
      end
  | SessionDeleted id =>
      match truthy id with
      | Some sid => (delete sid st, [])
      | None => (st, [])
      end
  | OtherEvent => (st, [])
  end.

(** Events handled one after the other; the effects of each are kept
    apart. *)
Fixpoint runEvents (es : list (World * Event)) (st : Sessions)
  : Sessions * list (list Effect) :=
  match es with
  | [] => (st, [])
  | (w, e) :: rest =>
      let r := handler w e st in
      let r' := runEvents rest (fst r) in
      (fst r', snd r :: snd r')
  end.

End Handler.

(** The session the idle gate lets through: no main session is set, or
    the session is the main one, a background task session, or listed in
    the boulder state. *)
Definition idleAllowed (w : World) (sid : string) : bool :=
  negb ((match truthy (mainSessionID w) with Some _ => true | None => false end)
        && negb (match mainSessionID w with Some m => String.eqb sid m | None => false end)
        && negb (bool_decide (sid ∈ subagentSessions w))
        && negb (match boulderState w with
                 | Some b => existsb (String.eqb sid) (session_ids b)
                 | None => false
                 end)).

(** Whether the session's record says its last event was an abort
    error. *)
Definition abortFlag (sid : string) (st : Sessions) : bool :=
  match st !! sid with
  | Some (Some true) => true
  | _ => false
  end.

Definition names (o : option string) (sid : string) : bool :=
  match truthy o with Some s => String.eqb s sid | None => false end.

(** Events of the session that come between an abort error and the
    next idle and take the abort flag away: any message update, an
    assistant part update, a tool event, an error that is no abort, the
    deletion of the session. *)
Definition clearsAbort (sid : string) (e : Event) : bool :=
  match e with
  | MessageUpdated s | ToolExecuteBefore s | ToolExecuteAfter s | SessionDeleted s =>
      names s sid
  | MessagePartUpdated s role =>
      names s sid && match role with Some r => String.eqb r "assistant" | None => false end
  | SessionError s error => names s sid && negb (isAbortError error)
  | SessionIdle _ | OtherEvent => false
  end.

(** The arguments a write or edit call may name its file by. *)
Record WriteArgs := mkWriteArgs {
  filePath : option string;
  path : option string;
  file : option string
}.

(** [args.filePath ?? args.path ?? args.file] *)
Definition argPath (a : WriteArgs) : option string :=
  match filePath a with
  | Some p => Some p
  | None => match path a with
            | Some p => Some p
            | None => file a
            end
  end.

Section WriteEditHooks.
(** [ORCHESTRATOR_DELEGATION_REQUIRED] with [$FILE_PATH] replaced by the
    path. *)
Variable delegationWarningFor : string -> string.

(** The write/edit branch of ["tool.execute.before"]: what it does to
    [output.message] and to the [pendingFilePaths] map. *)
Definition beforeWriteEdit (nearest : option string) (tool : string) (callID : option string)
           (args : WriteArgs) (message : option string) (pending : gmap string string)
  : option string * gmap string string :=
  if negb (isCallerOrchestrator nearest) then (message, pending)
  else if existsb (String.eqb tool) WRITE_EDIT_TOOLS then
    match truthy (argPath args) with
    | Some p =>
        if negb (isSisyphusPath p) then
          (Some (default "" (truthy message) ++ delegationWarningFor p),
           match truthy callID with
           | Some c => <[ c := p ]> pending
           | None => pending
           end)
        else (message, pending)
    | None => (message, pending)
    end
  else (message, pending).

(** The write/edit branch of ["tool.execute.after"]: what it does to
    [output.output] and to the [pendingFilePaths] map.
    [metadataPath] is [output.metadata?.filePath]. *)
Definition afterWriteEdit (nearest : option string) (tool : string) (callID : option string)
           (metadataPath : option string) (output : option string)
           (pending : gmap string string)
  : option string * gmap string string :=
  if negb (isCallerOrchestrator nearest) then (output, pending)
  else if existsb (String.eqb tool) WRITE_EDIT_TOOLS then
    let remembered := match truthy callID with
                      | Some c => pending !! c
                      | None => None
                      end in
    let pending' := match truthy callID with
                    | Some c => delete c pending
                    | None => pending
                    end in
    let chosen := match truthy remembered with
                  | Some p => Some p
                  | None => metadataPath
                  end in
    match truthy chosen with
    | Some p =>
        if negb (isSisyphusPath p)
        then (Some (default "" (truthy output) ++ DIRECT_WORK_REMINDER), pending')
        else (output, pending')
    | None => (output, pending')
    end
  else (output, pending).

End WriteEditHooks.

(** *** [extractSessionIdFromOutput] *)

Definition isAlnum (c : ascii) : bool :=
  let n := nat_of_ascii c in
  (((48 <=? n) && (n <=? 57)) || ((65 <=? n) && (n <=? 90))
   || ((97 <=? n) && (n <=? 122)))%nat.

(** The one-byte characters of [\s]: tab, line feed, vertical tab, form
    feed, carriage return, space. *)
Definition isAsciiSpace (c : ascii) : bool :=
  let n := nat_of_ascii c in
  (((9 <=? n) && (n <=? 13)) || (n =? 32))%nat.

(** U+00A0 in UTF-8. *)
Definition isSpace2 (a b : ascii) : bool :=
  ((nat_of_ascii a =? 194) && (nat_of_ascii b =? 160))%nat.

(** The three-byte characters of [\s] in UTF-8: U+1680, U+2000 to
    U+200A, U+2028, U+2029, U+202F, U+205F, U+3000, U+FEFF. *)
Definition isSpace3 (a b c : ascii) : bool :=
  let x := nat_of_ascii a in
  let y := nat_of_ascii b in
  let z := nat_of_ascii c in
  (((x =? 225) && (y =? 154) && (z =? 128))
   || ((x =? 226) && (y =? 128)
       && (((128 <=? z) && (z <=? 138)) || (z =? 168) || (z =? 169) || (z =? 175)))
   || ((x =? 226) && (y =? 129) && (z =? 159))
   || ((x =? 227) && (y =? 128) && (z =? 128))
   || ((x =? 239) && (y =? 187) && (z =? 191)))%nat.

(** [\s*], greedy. *)
Fixpoint skipSpaces (s : string) : string :=
  match s with
  | EmptyString => s
  | String a s1 =>
      if isAsciiSpace a then skipSpaces s1
      else
        match s1 with
        | EmptyString => s
        | String b s2 =>
            if isSpace2 a b then skipSpaces s2
            else
              match s2 with
              | EmptyString => s
              | String c s3 => if isSpace3 a b c then skipSpaces s3 else s
              end
        end
  end.

(** [[a-zA-Z0-9]*], greedy. *)
Fixpoint takeAlnum (s : string) : string :=
  match s with
  | EmptyString => EmptyString
  | String c s' => if isAlnum c then String c (takeAlnum s') else EmptyString
  end.

Fixpoint stripPrefix (k s : string) : option string :=
  match k with
  | EmptyString => Some s
  | String a k' =>
      match s with
      | EmptyString => None
      | String b s' => if Ascii.eqb a b then stripPrefix k' s' else None
      end
  end.

(** The pattern [Session ID:\s*(ses_[a-zA-Z0-9]+)] matched at the start
    of [s]; the result is the captured group. After the greedy [\s*] the
    next character is no space, so giving spaces back cannot help. *)
Definition matchHere (s : string) : option string :=
  match stripPrefix "Session ID:" s with
  | Some rest =>
      match stripPrefix "ses_" (skipSpaces rest) with
      | Some rest' =>
          match takeAlnum rest' with
          | EmptyString => None
          | found => Some ("ses_" ++ found)
          end
      | None => None
      end
  | None => None
  end.

(** The leftmost match. *)
Fixpoint firstMatchFrom (s : string) : option string :=
  match matchHere s with
  | Some found => Some found
  | None =>
      match s with
      | EmptyString => None
      | String _ s' => firstMatchFrom s'
      end
  end.

Definition extractSessionIdFromOutput (output : string) : string :=
  default "<session_id>" (firstMatchFrom output).

Fixpoint allChars (p : ascii -> bool) (s : string) : bool :=
  match s with
  | EmptyString => true
  | String c s' => p c && allChars p s'
  end.

(** The text does not go on with a letter or digit. *)
Definition endsId (post : string) : bool :=
  match post with
  | EmptyString => true
  | String c _ => negb (isAlnum c)
  end.

(** *** The [sisyphus_task] branch of ["tool.execute.after"] *)

Inductive AfterEffect := AppendSessionId (sessionID : string).

Section AfterHook.
(** [buildOrchestratorReminder (planName, progress, sessionId)] and
    [buildStandaloneVerificationReminder (sessionId)]. *)
Variable orchestratorReminderFor : string -> PlanProgress -> string -> string.
Variable standaloneReminderFor : string -> string.

(** [fileChanges] is [formatFileChanges (getGitDiffStats (directory))],
    [boulder] and [progress] what [readBoulderState] and
    [getPlanProgress] return. *)
Definition afterSisyphusTask (tool : string) (sessionID : option string)
           (output : option string) (fileChanges : string) (boulder : option BoulderState)
           (progress : string -> PlanProgress)
  : option string * list AfterEffect :=
  if negb (String.eqb tool "sisyphus_task") then (output, [])
  else
    let outputStr := default "" (truthy output) in
    let isBackgroundLaunch :=
      includes outputStr "Background task launched"
      || includes outputStr "Background task resumed" in
    if isBackgroundLaunch then (output, [])
    else
      match truthy output with
      | None => (output, [])
      | Some originalResponse =>
          let subagentSessionId := extractSessionIdFromOutput originalResponse in
          match boulder with
          | Some b =>
              (Some (nl ++ "## SUBAGENT WORK COMPLETED" ++ nl ++ nl ++ fileChanges ++ nl ++ nl
                     ++ "---" ++ nl ++ nl ++ "**Subagent Response:**" ++ nl ++ nl
                     ++ originalResponse ++ nl ++ nl ++ "<system-reminder>" ++ nl
                     ++ orchestratorReminderFor (plan_name b) (progress (active_plan b))
                                                subagentSessionId
                     ++ nl ++ "</system-reminder>"),
               match truthy sessionID with
               | Some sid =>
                   if negb (existsb (String.eqb sid) (session_ids b))
                   then [AppendSessionId sid] else []
               | None => []
               end)
          | None =>
              (Some (originalResponse ++ nl ++ "<system-reminder>" ++ nl
                     ++ standaloneReminderFor subagentSessionId ++ nl
                     ++ "</system-reminder>"),
               [])
          end
      end.

(** ["tool.execute.after"] as a whole: the new output, the
    [pendingFilePaths] map and what is written to the boulder state. *)
Definition toolExecuteAfter (nearest : option string) (tool : string)
           (sessionID callID metadataPath output : option string)
           (pending : gmap string string) (fileChanges : string)
           (boulder : option BoulderState) (progress : string -> PlanProgress)
  : option string * gmap string string * list AfterEffect :=
  if negb (isCallerOrchestrator nearest) then (output, pending, [])
  else if existsb (String.eqb tool) WRITE_EDIT_TOOLS then
    (afterWriteEdit nearest tool callID metadataPath output pending, [])
  else
    let r := afterSisyphusTask tool sessionID output fileChanges boulder progress in
    (fst r, pending, snd r).

End AfterHook.

(** Concrete surroundings: the main session [ses_1] works on the plan
    [auth], two of five tasks done, the orchestrator spoke last. *)
Definition boulderWorld : World :=
  {| boulderState := Some {| active_plan := ".sisyphus/plans/auth.md"; plan_name := "auth";
                             session_ids := ["ses_1"] |};
     mainSessionID := Some "ses_1";
     subagentSessions := ∅;
     hasRunningBgTasks := fun _ => false;
     nearestAgent := fun _ => Some "orchestrator-sisyphus";
     getPlanProgress := fun _ => {| total := 5; completed := 2; isComplete := false |};
     sessionMessages := fun _ => Some [ Some {| providerID := Some "anthropic";
                                                modelID := Some "claude-opus-4-5" |};
                                        None ];
     storedModel := fun _ => None |}.

(** Stand-ins for the two templates in concrete runs. *)
Definition promptStub (planName : string) : string := "continue " ++ planName.
Definition warningStub (filePath : string) : string := "delegate " ++ filePath.

Definition abortError : JsError := ErrObject (Some "MessageAbortedError") None.

Definition writeArgs (p : string) : WriteArgs :=
  {| filePath := Some p; path := None; file := None |}.

End SisyphusOrchestratorEvents.

(* ===================================================================== *)
(** ** Properties of the preemptive compaction trigger *)
(* ===================================================================== *)

Module PreemptiveCompactionProofs.
Import JsString PreemptiveCompaction.

Lemma firstMatch_none_default (modelID : string) :
  firstMatch modelID MODEL_CONTEXT_LIMITS = None -> getContextLimit modelID = 200000%Z.
Proof. unfold getContextLimit. intros ->. reflexivity. Qed.

Lemma firstMatch_none_iff (modelID : string) (entries : list (string * Z)) :
  firstMatch modelID entries = None <->
  (forall key limit, In (key, limit) entries -> includes modelID key = false).
Proof.
  induction entries as [| [k l] rest IH]; simpl.
  - split; [intros _ ? ? [] | reflexivity].
  - destruct (includes modelID k) eqn:E.
    + split; [discriminate |].
      intros H. specialize (H k l (or_introl eq_refl)). congruence.
    + rewrite IH. split.
      * intros H key limit [Heq | Hin]; [inversion Heq; subst; exact E | eauto].
      * intros H key limit Hin. eauto.
Qed.

(** When no table key occurs in the model identifier the limit is the
    default of 200,000. *)
Lemma getContextLimit_default (modelID : string) :
  (forall key limit, In (key, limit) MODEL_CONTEXT_LIMITS -> includes modelID key = false) ->
  getContextLimit modelID = 200000%Z.
Proof. intros H. apply firstMatch_none_default. apply firstMatch_none_iff. exact H. Qed.

(** The entry that decides is the first one, in table order, whose key
    occurs in the model identifier. *)
Lemma firstMatch_first (modelID key : string) (limit : Z)
      (before after : list (string * Z)) :
  (forall k l, In (k, l) before -> includes modelID k = false) ->
  includes modelID key = true ->
  firstMatch modelID (before ++ (key, limit) :: after)%list = Some limit.
Proof.
  intros Hbefore Hkey. induction before as [| [k l] rest IH]; simpl.
  - rewrite Hkey. reflexivity.
  - rewrite (Hbefore k l (or_introl eq_refl)). apply IH.
    intros k' l' Hin. apply (Hbefore k' l'). right. exact Hin.
Qed.

(** The ratio is total tokens over the looked-up limit. *)
Lemma usageRatio_unfold (t : TokenInfo) (model : string) :
  usageRatio t model
  = (inject_Z (input t + cache_read t + output t) / inject_Z (getContextLimit model))%Q.
Proof. reflexivity. Qed.

(** C6. The limit lookup returns the first table entry, in table order,
    whose key occurs in the model identifier, not the longest one: for
    the identifier "o1-mini" the entry "o1" (200,000) is met before the
    entry "o1-mini" (128,000), so the code answers 200,000 where the
    longest matching key gives 128,000. *)
Theorem getContextLimit_o1_mini_first_match :
  getContextLimit "o1-mini" = 200000%Z
  /\ contextLimitByLongestMatch "o1-mini" = 128000%Z
  /\ getContextLimit "o1-preview" = 200000%Z
  /\ contextLimitByLongestMatch "o1-preview" = 128000%Z.
Proof. repeat split; vm_compute; reflexivity. Qed.

Section TriggerProofs.
Variable MIN_TOKENS_FOR_COMPACTION : Z.
Variable COMPACTION_COOLDOWN_MS : Z.
Variable threshold : Q.

Local Abbreviation check := (checkAndTriggerCompaction MIN_TOKENS_FOR_COMPACTION COMPACTION_COOLDOWN_MS threshold).
Local Abbreviation passes := (passesTriggerChecks MIN_TOKENS_FOR_COMPACTION COMPACTION_COOLDOWN_MS threshold).

Lemma summarizeBlock_calls_state o sid p m ratio st c stc :
  In (c, stc) (snd (summarizeBlock o sid p m ratio st)) -> stc = st.
Proof.
  unfold summarizeBlock; simpl.
  destruct (before_ok o) as [[|]|]; destruct (summarize_ok o); simpl;
    intuition congruence.
Qed.

Lemma summarizeBlock_final o sid p m ratio st :
  fst (summarizeBlock o sid p m ratio st) = deleteInProgress sid st.
Proof. reflexivity. Qed.

Lemma summarizeBlock_reaches o sid p m ratio st :
  before_ok o <> Some false ->
  In (Summarize sid p m, st) (snd (summarizeBlock o sid p m ratio st)).
Proof.
  unfold summarizeBlock; simpl.
  destruct (before_ok o) as [[|]|]; intros H; try congruence; simpl; auto.
Qed.

(** Within the cooldown window the check returns at once, whatever the
    message. *)
Lemma check_in_cooldown o sid msg st t :
  lastCompactionTime st !! sid = Some t ->
  (now_check o - t < COMPACTION_COOLDOWN_MS)%Z ->
  check o sid msg st = (st, []).
Proof.
  intros Hl Hlt. unfold checkAndTriggerCompaction.
  destruct (bool_decide _); [reflexivity |].
  rewrite Hl. simpl.
  destruct (Z.ltb_spec (now_check o - t) COMPACTION_COOLDOWN_MS); [reflexivity | lia].
Qed.

(** C10. A proactive attempt that passes the trigger checks issues every
    one of its calls, [session.summarize] among them, with the session's
    in-progress flag set and the cooldown stamped; when it returns the
    flag is gone whether summarize (or the callback before it) resolved
    or threw, the stamp stays, further checks inside the cooldown window
    do nothing, and once the window has passed the same message passes
    the trigger checks again. *)
Theorem proactive_attempt_flag_and_cooldown :
  forall (o : Oracle) (sid : string) (msg : MessageInfo) (st : PreemptiveCompactionState),
    passes o sid msg st = true ->
    let r := check o sid msg st in
    (forall c stc, In (c, stc) (snd r) ->
       sid ∈ compactionInProgress stc /\ lastCompactionTime stc !! sid = Some (now_set o))
    /\ (forall p m, truthy (providerID msg) = Some p ->
          truthy (Some (default "" (modelID msg))) = Some m ->
          before_ok o <> Some false ->
          exists stc, In (Summarize sid p m, stc) (snd r))
    /\ (sid ∉ compactionInProgress (fst r))
    /\ lastCompactionTime (fst r) !! sid = Some (now_set o)
    /\ (forall o' msg', (now_check o' - now_set o < COMPACTION_COOLDOWN_MS)%Z ->
          check o' sid msg' (fst r) = (fst r, []))
    /\ (forall o', (COMPACTION_COOLDOWN_MS <= now_check o' - now_set o)%Z ->
          passes o' sid msg (fst r) = true).
Proof.
  intros o sid msg st Hp r.
  unfold passesTriggerChecks in Hp.
  apply andb_prop in Hp as [Hp Htok]. apply andb_prop in Hp as [Hp Hsum].
  apply andb_prop in Hp as [Hguard Hcool].
  apply negb_true_iff in Hguard, Hcool.
  destruct (tokens msg) as [tk|] eqn:Etk; [| discriminate].
  apply andb_prop in Htok as [Hfloor Hratio]. apply negb_true_iff in Hfloor.
  set (st1 := setLastCompaction sid (now_set o) (addInProgress sid st)).
  assert (Hin1 : sid ∈ compactionInProgress st1) by (simpl; set_solver).
  assert (Hl1 : lastCompactionTime st1 !! sid = Some (now_set o))
    by (simpl; apply lookup_insert_eq).
  assert (Hr : r = match truthy (providerID msg), truthy (Some (default "" (modelID msg))) with
                   | Some provider, Some model' =>
                       let '(st2, calls) :=
                         summarizeBlock o sid provider model'
                           (usageRatio tk (default "" (modelID msg))) st1 in
                       (st2, (ShowToast "Preemptive Compaction" "warning" 3000%Z, st1) :: calls)
                   | _, _ => (deleteInProgress sid st1, [])
                   end).
  { subst r. unfold checkAndTriggerCompaction.
    rewrite Hguard, Hcool, Etk, Hfloor, Hratio. simpl.
    destruct (summary msg) as [[|]|]; [discriminate | reflexivity | reflexivity]. }
  assert (Hfst : fst r = deleteInProgress sid st1).
  { rewrite Hr. destruct (truthy (providerID msg)); [| reflexivity].
    destruct (truthy (Some _)); reflexivity. }
  assert (Hnot : sid ∉ compactionInProgress (fst r))
    by (rewrite Hfst; simpl; set_solver).
  assert (Hlast : lastCompactionTime (fst r) !! sid = Some (now_set o))
    by (rewrite Hfst; exact Hl1).
  repeat split.
  - rewrite Hr in H.
    destruct (truthy (providerID msg)) as [p|]; [| destruct H].
    destruct (truthy (Some _)) as [m|]; [| destruct H].
    simpl in H. destruct H as [H | H].
    + inversion H; subst; assumption.
    + apply summarizeBlock_calls_state in H. subst; assumption.
  - rewrite Hr in H.
    destruct (truthy (providerID msg)) as [p|]; [| destruct H].
    destruct (truthy (Some _)) as [m|]; [| destruct H].
    simpl in H. destruct H as [H | H].
    + inversion H; subst; assumption.
    + apply summarizeBlock_calls_state in H. subst; assumption.
  - intros p m Hpv Hmv Hb. rewrite Hr, Hpv, Hmv.
    exists st1. simpl. right. apply summarizeBlock_reaches. exact Hb.
  - exact Hnot.
  - exact Hlast.
  - intros o' msg' Hlt. eapply check_in_cooldown; eauto.
  - intros o' Hge. unfold passesTriggerChecks.
    rewrite Hlast, Etk, Hfloor, Hratio. simpl.
    rewrite (bool_decide_eq_false_2 _ Hnot). simpl.
    destruct (Z.ltb_spec (now_check o' - now_set o) COMPACTION_COOLDOWN_MS); [lia |].
    simpl. destruct (summary msg) as [[|]|]; [discriminate | reflexivity | reflexivity].
Qed.

End TriggerProofs.

(** A run of the theorem: 170,000 tokens on a 200,000-token model with
    threshold 0.8, floor 50,000 and a one-minute cooldown; summarize
    throws. *)
Lemma proactive_attempt_flag_and_cooldown_witness :
  let o := {| now_check := 100000; now_set := 100000; before_ok := None; summarize_ok := false |} in
  let msg := {| providerID := Some "anthropic"; modelID := Some "claude-opus-4-5";
                tokens := Some (mkTokens 150000 10000 10000); summary := None |} in
  let r := checkAndTriggerCompaction 50000 60000 (8 # 10) o "ses_1" msg createState in
  passesTriggerChecks 50000 60000 (8 # 10) o "ses_1" msg createState = true
  /\ ("ses_1" ∉ compactionInProgress (fst r))
  /\ lastCompactionTime (fst r) !! "ses_1" = Some 100000%Z.
Proof.
  intros o msg r.
  assert (Hp : passesTriggerChecks 50000 60000 (8 # 10) o "ses_1" msg createState = true)
    by (vm_compute; reflexivity).
  split; [exact Hp |].
  pose proof (proactive_attempt_flag_and_cooldown 50000 60000 (8 # 10) o "ses_1" msg createState Hp)
    as (_ & _ & Hflag & Hstamp & _).
  split; [exact Hflag | exact Hstamp].
Defined.

End PreemptiveCompactionProofs.

(* ===================================================================== *)
(** ** Properties of the recovery executor *)
(* ===================================================================== *)

Module AutoCompactProofs.
Import JsString AutoCompact AutoCompactTiers.

Section ExecutorProofs.
Context {ErrorData : Type}.
Variable cfg : Config.
Implicit Types (st : AutoCompactState ErrorData) (sid : string) (env : Env) (msg : ErrorMessage).

Lemma clearSessionState_cleared sid st : cleared sid (clearSessionState sid st).
Proof.
  unfold cleared, clearSessionState; simpl.
  rewrite !lookup_delete_eq. repeat split; try reflexivity; set_solver.
Qed.

Lemma giveUp_effects sid st : snd (giveUp sid st) = [failureToast].
Proof. reflexivity. Qed.

Lemma enter_guard sid st : sid ∈ compactionInProgress (snd (enter sid st)).
Proof.
  unfold enter, getOrCreateTruncateState; simpl.
  destruct (truncateStateBySession st !! sid); simpl; set_solver.
Qed.

Lemma enter_truncate sid st :
  truncateAttempt (fst (enter sid st)) = truncateAttemptOf sid st.
Proof.
  unfold enter, getOrCreateTruncateState, truncateAttemptOf; simpl.
  destruct (truncateStateBySession st !! sid); reflexivity.
Qed.

Lemma enter_retry sid st :
  retryStateBySession (snd (enter sid st)) = retryStateBySession st.
Proof.
  unfold enter, getOrCreateTruncateState; simpl.
  destruct (truncateStateBySession st !! sid); reflexivity.
Qed.

Lemma enter_fallback sid st :
  fallbackStateBySession (snd (enter sid st)) = fallbackStateBySession st.
Proof.
  unfold enter, getOrCreateTruncateState; simpl.
  destruct (truncateStateBySession st !! sid); reflexivity.
Qed.

Lemma clear_enter sid st :
  clearSessionState sid (snd (enter sid st)) = clearSessionState sid st.
Proof.
  unfold enter, getOrCreateTruncateState, clearSessionState; simpl.
  destruct (truncateStateBySession st !! sid) eqn:E; simpl; f_equal;
    try rewrite delete_insert_eq; try reflexivity; set_solver.
Qed.

(** The revert tier neither truncates nor summarizes. *)
Lemma revertTier_effects env sid st :
  Forall (fun e => isTruncation e = false /\ isSummarize e = false)
         (snd (revertTier cfg env sid st)).
Proof.
  unfold revertTier, getOrCreateFallbackState.
  destruct (fallbackStateBySession st !! sid); simpl;
    destruct (_ <? _)%nat; simpl; try (repeat constructor);
    destruct (getLastMessagePair cfg (messages env)) as [[u a]|]; simpl;
      try (repeat constructor);
    destruct (truthy a); simpl;
      repeat (match goal with
              | |- context [if ?b then _ else _] => destruct b; simpl
              end);
      repeat constructor.
Qed.

(** The summarize tier never goes back to truncation. *)
Lemma summarizeTier_no_truncation env msg sid st :
  Forall (fun e => isTruncation e = false) (snd (summarizeTier cfg env msg sid st)).
Proof.
  assert (Hrev : forall st', Forall (fun e => isTruncation e = false)
                                    (snd (revertTier cfg env sid st'))).
  { intros st'. eapply Forall_impl; [apply revertTier_effects | simpl; tauto]. }
  unfold summarizeTier, getOrCreateRetryState.
  destruct (retryStateBySession st !! sid); simpl;
    destruct (_ <? _)%nat; simpl; try apply Hrev;
    destruct (truthy (providerID msg)); try apply Hrev;
    destruct (truthy (modelID msg)); try apply Hrev;
    destruct (summarizeOk env); simpl; repeat constructor.
Qed.


(** C3. An invocation that is let in by the single-flight guard, for a
    session whose truncate attempts are below the maximum and whose
    largest stored tool result is at least the truncation threshold (the
    code compares with [>=], which covers "exceeds"), first looks up and
    truncates that result; any [session.summarize] of the invocation comes
    after it, and none at all when the truncation succeeds.  With the
    truncate attempts at the maximum the invocation is the summarize tier
    itself: no truncation call, and with retries left and provider and
    model known its first actions are the summarize toast and
    [session.summarize]. *)
Theorem truncate_tier_precedes_summarize :
  forall env msg sid st,
    sid ∉ compactionInProgress st ->
    let r := executeCompact cfg env msg sid st in
    (forall l,
        truncateAttemptOf sid st < maxTruncateAttempts cfg ->
        largest env = Some l ->
        (minOutputSizeToTruncate cfg <= outputSize l)%Z ->
        exists rest,
          snd r = FindLargest sid :: Truncate (partPath l) :: rest
          /\ (success (truncation env) = true ->
              Forall (fun e => isSummarize e = false) rest))
    /\ (maxTruncateAttempts cfg <= truncateAttemptOf sid st ->
        r = summarizeTier cfg env msg sid (snd (enter sid st))
        /\ Forall (fun e => isTruncation e = false) (snd r)
        /\ (forall p m,
               retryAttemptOf sid st < maxAttempts cfg ->
               truthy (providerID msg) = Some p ->
               truthy (modelID msg) = Some m ->
               exists rest,
                 snd r = summarizeToast cfg (S (retryAttemptOf sid st))
                         :: SummarizeCall sid p m (summarizeOk env) :: rest)).
Proof.
  intros env msg sid st Hguard r.
  assert (Hr : r = let '(truncateState, st1) := enter sid st in
                   if (truncateAttempt truncateState <? maxTruncateAttempts cfg)%nat then
                     match largest env with
                     | Some l =>
                         if (minOutputSizeToTruncate cfg <=? outputSize l)%Z then
                           if success (truncation env) then
                             (releaseGuard sid
                                (setTruncate sid
                                   {| truncateAttempt := S (truncateAttempt truncateState);
                                      lastTruncatedPartId := Some (partId l) |} st1),
                              [FindLargest sid; Truncate (partPath l);
                               truncateToast (truncation env); SendContinueAfter sid 500%Z])
                           else withEffects [FindLargest sid; Truncate (partPath l)]
                                            (summarizeTier cfg env msg sid st1)
                         else withEffects [FindLargest sid] (summarizeTier cfg env msg sid st1)
                     | None => withEffects [FindLargest sid] (summarizeTier cfg env msg sid st1)
                     end
                   else summarizeTier cfg env msg sid st1).
  { subst r. unfold executeCompact. rewrite (bool_decide_eq_false_2 _ Hguard). reflexivity. }
  pose proof (enter_truncate sid st) as Hta.
  pose proof (enter_retry sid st) as Hre.
  destruct (enter sid st) as [ts st1] eqn:Eenter. simpl in Hta, Hre.
  split.
  - intros l Hlt Hl Hsize. rewrite Hr, Hl.
    destruct (Nat.ltb_spec (truncateAttempt ts) (maxTruncateAttempts cfg)); [| lia].
    destruct (Z.leb_spec (minOutputSizeToTruncate cfg) (outputSize l)); [| lia].
    destruct (success (truncation env)); simpl.
    + eexists; split; [reflexivity |]. intros _. repeat constructor.
    + eexists; split; [reflexivity |]. discriminate.
  - intros Hge.
    assert (Hr' : r = summarizeTier cfg env msg sid st1).
    { rewrite Hr. destruct (Nat.ltb_spec (truncateAttempt ts) (maxTruncateAttempts cfg));
        [lia | reflexivity]. }
    split; [exact Hr' |]. split.
    + rewrite Hr'. apply summarizeTier_no_truncation.
    + intros p m Hretry Hp Hm. rewrite Hr'.
      unfold summarizeTier, getOrCreateRetryState, retryAttemptOf in *.
      rewrite Hre, Hp, Hm.
      destruct (retryStateBySession st !! sid) as [rs|]; simpl.
      * destruct (Nat.ltb_spec (attempt rs) (maxAttempts cfg)); [| lia].
        destruct (summarizeOk env); simpl; eexists; reflexivity.
      * destruct (Nat.ltb_spec 0 (maxAttempts cfg)); [| lia].
        destruct (summarizeOk env); simpl; eexists; reflexivity.
Qed.

(** C4. An invocation that is let in by the single-flight guard, for a
    session whose truncate, summarize-retry and revert attempts have all
    reached their maxima, deletes every record of the session, shows the
    "Auto Compact Failed" toast that tells the user to start a new
    session, and arms no timer: neither a "Continue" prompt nor another
    recovery attempt is scheduled. *)
Theorem all_tiers_exhausted_gives_up :
  forall env msg sid st,
    sid ∉ compactionInProgress st ->
    maxTruncateAttempts cfg <= truncateAttemptOf sid st ->
    maxAttempts cfg <= retryAttemptOf sid st ->
    maxRevertAttempts cfg <= revertAttemptOf sid st ->
    let r := executeCompact cfg env msg sid st in
    snd r = [Toast "Auto Compact Failed"
                   "All recovery attempts failed. Please start a new session."
                   "error" 5000%Z]
    /\ fst r = clearSessionState sid st
    /\ cleared sid (fst r)
    /\ Forall (fun e => isTimer e = false) (snd r).
Proof.
  intros env msg sid st Hguard Ht Hr Hf r.
  assert (Hres : r = (clearSessionState sid st, [failureToast])).
  { subst r. unfold executeCompact. rewrite (bool_decide_eq_false_2 _ Hguard).
    pose proof (enter_truncate sid st) as Hta.
    pose proof (enter_retry sid st) as Hre.
    pose proof (enter_fallback sid st) as Hfa.
    pose proof (clear_enter sid st) as Hcl.
    destruct (enter sid st) as [ts st1]. simpl in *.
    destruct (Nat.ltb_spec (truncateAttempt ts) (maxTruncateAttempts cfg)); [lia |].
    unfold summarizeTier, getOrCreateRetryState, retryAttemptOf in *. rewrite Hre.
    destruct (retryStateBySession st !! sid) as [rs|] eqn:Ers; simpl.
    - destruct (Nat.ltb_spec (attempt rs) (maxAttempts cfg)); [lia |].
      unfold revertTier, getOrCreateFallbackState, revertAttemptOf in *. rewrite Hfa.
      destruct (fallbackStateBySession st !! sid) as [fs|] eqn:Efs; simpl.
      + destruct (Nat.ltb_spec (revertAttempt fs) (maxRevertAttempts cfg)); [lia |].
        unfold giveUp. rewrite Hcl. reflexivity.
      + destruct (Nat.ltb_spec 0 (maxRevertAttempts cfg)); [lia |].
        unfold giveUp. f_equal. rewrite <- Hcl.
        unfold clearSessionState; simpl. f_equal. apply delete_insert_eq.
    - destruct (Nat.ltb_spec 0 (maxAttempts cfg)); [lia |].
      unfold revertTier, getOrCreateFallbackState, revertAttemptOf in *. simpl. rewrite Hfa.
      destruct (fallbackStateBySession st !! sid) as [fs|] eqn:Efs; simpl.
      + destruct (Nat.ltb_spec (revertAttempt fs) (maxRevertAttempts cfg)); [lia |].
        unfold giveUp. f_equal. rewrite <- Hcl.
        unfold clearSessionState; simpl. f_equal. apply delete_insert_eq.
      + destruct (Nat.ltb_spec 0 (maxRevertAttempts cfg)); [lia |].
        unfold giveUp. f_equal. rewrite <- Hcl.
        unfold clearSessionState; simpl. f_equal; apply delete_insert_eq. }
  rewrite Hres. simpl. repeat split; try apply clearSessionState_cleared.
  repeat constructor.
Qed.



(** The two ways the revert tier ends. *)
Lemma revertTier_shape env sid st :
  let st' := snd (getOrCreateFallbackState sid st) in
  let r := revertTier cfg env sid st in
  (exists pre, r = (clearSessionState sid st', pre ++ [failureToast])%list
               /\ Forall (fun e => isRevertStep e = true) pre)
  \/ (exists pre uid st3,
         r = (releaseGuard sid st3,
              pre ++ [RevertCall sid uid true; ScheduleRetry sid 1000%Z])%list
         /\ Forall (fun e => isRevertStep e = true) pre
         /\ fallbackStateBySession st3 !! sid
            = Some {| revertAttempt := S (revertAttemptOf sid st);
                      lastRevertedMessageID := Some uid |}
         /\ (forall rs, retryStateBySession st !! sid = Some rs ->
               retryStateBySession st3 !! sid
               = Some {| attempt := 0; lastAttemptTime := lastAttemptTime rs |})
         /\ (forall ts, truncateStateBySession st !! sid = Some ts ->
               truncateStateBySession st3 !! sid
               = Some {| truncateAttempt := 0;
                         lastTruncatedPartId := lastTruncatedPartId ts |})).
Proof.
  intros st' r. subst st' r.
  unfold revertTier, revertAttemptOf.
  assert (Hretry : retryStateBySession (snd (getOrCreateFallbackState sid st))
                   = retryStateBySession st)
    by (unfold getOrCreateFallbackState; destruct (_ !! sid); reflexivity).
  assert (Htrunc : truncateStateBySession (snd (getOrCreateFallbackState sid st))
                   = truncateStateBySession st)
    by (unfold getOrCreateFallbackState; destruct (_ !! sid); reflexivity).
  assert (Hfa : revertAttempt (fst (getOrCreateFallbackState sid st))
                = match fallbackStateBySession st !! sid with
                  | Some f => revertAttempt f | None => 0 end)
    by (unfold getOrCreateFallbackState; destruct (_ !! sid); reflexivity).
  destruct (getOrCreateFallbackState sid st) as [fs st1]. simpl in *.
  destruct (_ <? _)%nat; [| left; exists []; split; [reflexivity | constructor]].
  destruct (getLastMessagePair cfg (messages env)) as [[u a]|];
    [| left; exists [MessagesCall sid]; split; [reflexivity | repeat constructor]].
  destruct (truthy a) as [aid|]; simpl.
  - destruct (revertAssistantOk env).
    + destruct (revertUserOk env).
      * right. exists [MessagesCall sid; recoveryToast; RevertCall sid aid true], u.
        eexists. split; [reflexivity |]. split; [repeat constructor |].
        rewrite <- Hfa.
        split; [| split].
        -- destruct (retryStateBySession _ !! sid) eqn:E1; simpl;
             destruct (truncateStateBySession _ !! sid) eqn:E2; simpl;
             apply lookup_insert_eq.
        -- intros rs Hrs. simpl. rewrite Hretry, Hrs. simpl.
           destruct (truncateStateBySession _ !! sid); simpl; apply lookup_insert_eq.
        -- intros ts Hts. simpl.
           destruct (retryStateBySession st1 !! sid); simpl;
             rewrite Htrunc, Hts; simpl; apply lookup_insert_eq.
      * left. exists [MessagesCall sid; recoveryToast; RevertCall sid aid true;
                      RevertCall sid u false].
        split; [reflexivity | repeat constructor].
    + left. exists [MessagesCall sid; recoveryToast; RevertCall sid aid false].
      split; [reflexivity | repeat constructor].
  - destruct (revertUserOk env).
    + right. exists [MessagesCall sid; recoveryToast], u.
      eexists. split; [reflexivity |]. split; [repeat constructor |].
      rewrite <- Hfa.
      split; [| split].
      * destruct (retryStateBySession _ !! sid) eqn:E1; simpl;
          destruct (truncateStateBySession _ !! sid) eqn:E2; simpl;
          apply lookup_insert_eq.
      * intros rs Hrs. simpl. rewrite Hretry, Hrs. simpl.
        destruct (truncateStateBySession _ !! sid); simpl; apply lookup_insert_eq.
      * intros ts Hts. simpl.
        destruct (retryStateBySession st1 !! sid); simpl;
          rewrite Htrunc, Hts; simpl; apply lookup_insert_eq.
    + left. exists [MessagesCall sid; recoveryToast; RevertCall sid u false].
      split; [reflexivity | repeat constructor].
Qed.


Lemma revertStep_not_timer (l : list Effect) :
  Forall (fun e => isRevertStep e = true) l -> Forall (fun e => isTimer e = false) l.
Proof.
  intros HF. eapply Forall_impl; [exact HF |].
  intros [] H; simpl in *; congruence.
Qed.


Lemma clear_setRetry sid r st :
  clearSessionState sid (setRetry sid r st) = clearSessionState sid st.
Proof. unfold clearSessionState; simpl. f_equal. apply delete_insert_eq. Qed.

Lemma clear_getOrCreateRetry sid st :
  clearSessionState sid (snd (getOrCreateRetryState sid st)) = clearSessionState sid st.
Proof.
  unfold getOrCreateRetryState. destruct (retryStateBySession st !! sid); simpl;
    [reflexivity | apply clear_setRetry].
Qed.

Lemma clear_getOrCreateFallback sid st :
  clearSessionState sid (snd (getOrCreateFallbackState sid st)) = clearSessionState sid st.
Proof.
  unfold getOrCreateFallbackState. destruct (fallbackStateBySession st !! sid); simpl;
    [reflexivity |].
  unfold clearSessionState; simpl. f_equal. apply delete_insert_eq.
Qed.

(** The first tier, when its test passes. *)
Lemma executeCompact_truncated env msg sid st :
  sid ∉ compactionInProgress st ->
  truncationSucceeds cfg env sid st = true ->
  exists l,
    largest env = Some l
    /\ executeCompact cfg env msg sid st
       = (releaseGuard sid
            (setTruncate sid {| truncateAttempt := S (truncateAttemptOf sid st);
                                lastTruncatedPartId := Some (partId l) |}
                         (snd (enter sid st))),
          [FindLargest sid; Truncate (partPath l); truncateToast (truncation env);
           SendContinueAfter sid 500%Z]).
Proof.
  intros Hguard H. unfold truncationSucceeds in H.
  apply andb_prop in H as [Hlt H].
  destruct (largest env) as [l|] eqn:El; [| discriminate].
  apply andb_prop in H as [Hsize Hok].
  exists l. split; [reflexivity |].
  unfold executeCompact. rewrite (bool_decide_eq_false_2 _ Hguard).
  pose proof (enter_truncate sid st) as Hta.
  destruct (enter sid st) as [ts st1]. simpl in Hta. simpl snd.
  rewrite Hta, Hlt, El, Hsize, Hok. reflexivity.
Qed.

(** The first tier, when its test fails: the invocation is the second
    tier after at most a look-up and a truncation call. *)
Lemma executeCompact_not_truncated env msg sid st :
  sid ∉ compactionInProgress st ->
  truncationSucceeds cfg env sid st = false ->
  exists pre,
    executeCompact cfg env msg sid st
    = withEffects pre (summarizeTier cfg env msg sid (snd (enter sid st)))
    /\ Forall (fun e => isTruncation e = true) pre.
Proof.
  intros Hguard H. unfold truncationSucceeds in H.
  unfold executeCompact. rewrite (bool_decide_eq_false_2 _ Hguard).
  pose proof (enter_truncate sid st) as Hta.
  destruct (enter sid st) as [ts st1]. simpl in Hta. simpl snd. rewrite Hta.
  destruct (_ <? _)%nat; simpl in H.
  - destruct (largest env) as [l|].
    + destruct (_ <=? _)%Z; simpl in H.
      * rewrite H. eexists. split; [reflexivity | repeat constructor].
      * eexists. split; [reflexivity | repeat constructor].
    + eexists. split; [reflexivity | repeat constructor].
  - exists []. split; [| constructor].
    unfold withEffects. simpl. destruct (summarizeTier _ _ _ _ _); reflexivity.
Qed.

(** The second tier, when it calls [session.summarize]. *)
Lemma summarizeTier_attempted env msg sid st :
  summarizeAttempted cfg msg sid st = true ->
  exists p m,
    truthy (providerID msg) = Some p /\ truthy (modelID msg) = Some m
    /\ summarizeTier cfg env msg sid st
       = let st1 := setRetry sid {| attempt := S (retryAttemptOf sid st);
                                    lastAttemptTime := now env |}
                             (snd (getOrCreateRetryState sid st)) in
         if summarizeOk env then
           (clearSessionState sid st1,
            [summarizeToast cfg (S (retryAttemptOf sid st)); SummarizeCall sid p m true;
             SendContinueAfter sid 500%Z])
         else
           (releaseGuard sid st1,
            [summarizeToast cfg (S (retryAttemptOf sid st)); SummarizeCall sid p m false;
             ScheduleRetry sid (cappedDelay cfg (S (retryAttemptOf sid st)))]).
Proof.
  intros H. unfold summarizeAttempted in H. apply andb_prop in H as [Hlt H].
  destruct (truthy (providerID msg)) as [p|] eqn:Ep; [| discriminate].
  destruct (truthy (modelID msg)) as [m|] eqn:Em; [| discriminate].
  exists p, m. split; [reflexivity |]. split; [reflexivity |].
  unfold summarizeTier.
  assert (Ha : attempt (fst (getOrCreateRetryState sid st)) = retryAttemptOf sid st)
    by (unfold getOrCreateRetryState, retryAttemptOf;
        destruct (retryStateBySession st !! sid); reflexivity).
  destruct (getOrCreateRetryState sid st) as [rs st1]. simpl in Ha. simpl snd.
  rewrite Ha, Hlt, Ep, Em. reflexivity.
Qed.

(** The second tier, when it does not call [session.summarize]: the
    invocation is the third tier, run on a state that differs from the
    one given in the retry record only. *)
Lemma summarizeTier_skipped env msg sid st :
  summarizeAttempted cfg msg sid st = false ->
  exists stx,
    summarizeTier cfg env msg sid st = revertTier cfg env sid stx
    /\ is_Some (retryStateBySession stx !! sid)
    /\ truncateStateBySession stx = truncateStateBySession st
    /\ fallbackStateBySession stx = fallbackStateBySession st
    /\ clearSessionState sid stx = clearSessionState sid st.
Proof.
  intros H. unfold summarizeAttempted in H. unfold summarizeTier.
  assert (Ha : attempt (fst (getOrCreateRetryState sid st)) = retryAttemptOf sid st)
    by (unfold getOrCreateRetryState, retryAttemptOf;
        destruct (retryStateBySession st !! sid); reflexivity).
  assert (Ht : truncateStateBySession (snd (getOrCreateRetryState sid st))
               = truncateStateBySession st)
    by (unfold getOrCreateRetryState; destruct (retryStateBySession st !! sid); reflexivity).
  assert (Hf : fallbackStateBySession (snd (getOrCreateRetryState sid st))
               = fallbackStateBySession st)
    by (unfold getOrCreateRetryState; destruct (retryStateBySession st !! sid); reflexivity).
  assert (Hs : is_Some (retryStateBySession (snd (getOrCreateRetryState sid st)) !! sid)).
  { unfold getOrCreateRetryState. destruct (retryStateBySession st !! sid) eqn:E; simpl.
    - rewrite E. eauto.
    - rewrite lookup_insert_eq. eauto. }
  pose proof (clear_getOrCreateRetry sid st) as Hc.
  destruct (getOrCreateRetryState sid st) as [rs st1]. simpl in Ha, Ht, Hf, Hs, Hc.
  rewrite Ha.
  destruct (_ <? _)%nat; simpl in H.
  - assert (Hx : is_Some (retryStateBySession
                            (setRetry sid {| attempt := S (retryAttemptOf sid st);
                                             lastAttemptTime := now env |} st1) !! sid))
      by (simpl; rewrite lookup_insert_eq; eauto).
    destruct (truthy (providerID msg)) as [p|].
    + destruct (truthy (modelID msg)) as [m|]; [discriminate |].
      eexists. split; [reflexivity |]. split; [exact Hx |].
      split; [exact Ht |]. split; [exact Hf |]. rewrite clear_setRetry. exact Hc.
    + eexists. split; [reflexivity |]. split; [exact Hx |].
      split; [exact Ht |]. split; [exact Hf |]. rewrite clear_setRetry. exact Hc.
  - exists st1. auto.
Qed.

(** The third tier, when its test passes. *)
Lemma revertTier_succeeds env sid st :
  revertSucceeds cfg env sid st = true ->
  exists pre uid st3,
    revertTier cfg env sid st
    = (releaseGuard sid st3,
       pre ++ [RevertCall sid uid true; ScheduleRetry sid 1000%Z])%list
    /\ Forall (fun e => isRevertStep e = true) pre
    /\ fallbackStateBySession st3 !! sid
       = Some {| revertAttempt := S (revertAttemptOf sid st);
                 lastRevertedMessageID := Some uid |}
    /\ (forall rs, retryStateBySession st !! sid = Some rs ->
          retryStateBySession st3 !! sid
          = Some {| attempt := 0; lastAttemptTime := lastAttemptTime rs |})
    /\ (forall ts, truncateStateBySession st !! sid = Some ts ->
          truncateStateBySession st3 !! sid
          = Some {| truncateAttempt := 0;
                    lastTruncatedPartId := lastTruncatedPartId ts |}).
Proof.
  intros H.
  destruct (revertTier_shape env sid st)
    as [(pre & Hr & Hpre) | (pre & uid & st3 & Hr & Hrest)].
  - exfalso. revert Hr. unfold revertSucceeds, revertAttemptOf in H.
    unfold revertTier.
    assert (Hfa : revertAttempt (fst (getOrCreateFallbackState sid st))
                  = match fallbackStateBySession st !! sid with
                    | Some f => revertAttempt f | None => 0 end)
      by (unfold getOrCreateFallbackState; destruct (_ !! sid); reflexivity).
    rewrite <- Hfa in H.
    destruct (getOrCreateFallbackState sid st) as [fs st1]. simpl in H.
    apply andb_prop in H as [Hlt H]. rewrite Hlt.
    destruct (getLastMessagePair cfg (messages env)) as [[u a]|]; [| discriminate].
    apply andb_prop in H as [Ha Hu]. rewrite Hu.
    destruct (truthy a); [rewrite Ha |]; simpl; intros Hr;
      apply (f_equal (fun r => rev (snd r))) in Hr; simpl in Hr;
      rewrite rev_app_distr in Hr; simpl in Hr; discriminate.
  - exists pre, uid, st3. split; [exact Hr | exact Hrest].
Qed.

(** The third tier, when its test fails: the session is given up. *)
Lemma revertTier_fails env sid st :
  revertSucceeds cfg env sid st = false ->
  exists pre,
    revertTier cfg env sid st
    = (clearSessionState sid st, pre ++ [failureToast])%list
    /\ Forall (fun e => isRevertStep e = true) pre.
Proof.
  intros H. unfold revertSucceeds, revertAttemptOf in H. unfold revertTier.
  assert (Hfa : revertAttempt (fst (getOrCreateFallbackState sid st))
                = match fallbackStateBySession st !! sid with
                  | Some f => revertAttempt f | None => 0 end)
    by (unfold getOrCreateFallbackState; destruct (_ !! sid); reflexivity).
  rewrite <- Hfa in H.
  pose proof (clear_getOrCreateFallback sid st) as Hc.
  destruct (getOrCreateFallbackState sid st) as [fs st1]. simpl in H, Hc.
  unfold giveUp, withEffects; simpl. rewrite Hc.
  destruct (_ <? _)%nat; simpl in H;
    [| exists []; split; [reflexivity | constructor]].
  destruct (getLastMessagePair cfg (messages env)) as [[u a]|];
    [| exists [MessagesCall sid]; split; [reflexivity | repeat constructor]].
  destruct (truthy a) as [aid|]; simpl in *.
  - destruct (revertAssistantOk env); simpl in H.
    + rewrite H.
      exists [MessagesCall sid; recoveryToast; RevertCall sid aid true; RevertCall sid u false].
      split; [reflexivity | repeat constructor].
    + exists [MessagesCall sid; recoveryToast; RevertCall sid aid false].
      split; [reflexivity | repeat constructor].
  - rewrite H. exists [MessagesCall sid; recoveryToast; RevertCall sid u false].
    split; [reflexivity | repeat constructor].
Qed.

Lemma truncation_not_timer (l : list Effect) :
  Forall (fun e => isTruncation e = true) l -> Forall (fun e => isTimer e = false) l.
Proof.
  intros HF. eapply Forall_impl; [exact HF |].
  intros [] H; simpl in *; congruence.
Qed.

Lemma enter_is_Some_truncate sid st :
  is_Some (truncateStateBySession (snd (enter sid st)) !! sid).
Proof.
  unfold enter, getOrCreateTruncateState; simpl.
  destruct (truncateStateBySession st !! sid) eqn:E; simpl.
  - rewrite E; eauto.
  - rewrite lookup_insert_eq; eauto.
Qed.

Lemma enter_rest sid st :
  pendingCompact (snd (enter sid st)) = pendingCompact st
  /\ errorDataBySession (snd (enter sid st)) = errorDataBySession st.
Proof.
  unfold enter, getOrCreateTruncateState; simpl.
  destruct (truncateStateBySession st !! sid); auto.
Qed.

Lemma summarizeAttempted_enter msg sid st :
  summarizeAttempted cfg msg sid (snd (enter sid st)) = summarizeAttempted cfg msg sid st.
Proof. unfold summarizeAttempted, retryAttemptOf. rewrite enter_retry. reflexivity. Qed.

Lemma retryAttemptOf_enter sid st :
  retryAttemptOf sid (snd (enter sid st)) = retryAttemptOf sid st.
Proof. unfold retryAttemptOf. rewrite enter_retry. reflexivity. Qed.

Lemma revertSucceeds_ext env sid st st' :
  fallbackStateBySession st' = fallbackStateBySession st ->
  revertSucceeds cfg env sid st' = revertSucceeds cfg env sid st.
Proof. intros H. unfold revertSucceeds, revertAttemptOf. rewrite H. reflexivity. Qed.

Lemma revertAttemptOf_ext sid st st' :
  fallbackStateBySession st' = fallbackStateBySession st ->
  revertAttemptOf sid st' = revertAttemptOf sid st.
Proof. intros H. unfold revertAttemptOf. rewrite H. reflexivity. Qed.

(** C5 (as the code has it). An invocation that the guard lets in ends
    in one of five ways, told apart by the tests of the three tiers.
    A successful truncation ends it with the "Continue" prompt scheduled
    and nothing cleared: the truncate count goes up by one, the guard is
    released, every other record stays.  A successful summarize ends it
    with every record of the session deleted and the "Continue" prompt
    scheduled.  A failed summarize keeps the records and schedules
    another invocation after the capped back-off delay.  When neither of
    the first two tiers applies, a successful revert does not end the
    chain: the revert count goes up by one, the retry and truncate
    counters go back to zero, the guard is released, the records stay,
    and the last thing done is to schedule another invocation one second
    later, with no "Continue" prompt; a revert tier that fails deletes
    every record and arms no timer. *)
Theorem chain_end_clears_state_revert_reenters :
  forall env msg sid st,
    sid ∉ compactionInProgress st ->
    let r := executeCompact cfg env msg sid st in
    (truncationSucceeds cfg env sid st = true ->
       (exists path,
           snd r = [FindLargest sid; Truncate path; truncateToast (truncation env);
                    SendContinueAfter sid 500%Z])
       /\ (exists q, truncateStateBySession (fst r) !! sid
                     = Some {| truncateAttempt := S (truncateAttemptOf sid st);
                               lastTruncatedPartId := Some q |})
       /\ retryStateBySession (fst r) = retryStateBySession st
       /\ fallbackStateBySession (fst r) = fallbackStateBySession st
       /\ errorDataBySession (fst r) = errorDataBySession st
       /\ pendingCompact (fst r) = pendingCompact st
       /\ (sid ∉ compactionInProgress (fst r))
       /\ ~ cleared sid (fst r))
    /\ (truncationSucceeds cfg env sid st = false ->
        summarizeAttempted cfg msg sid st = true ->
        summarizeOk env = true ->
        fst r = clearSessionState sid st
        /\ cleared sid (fst r)
        /\ exists pre p m,
             snd r = (pre ++ [summarizeToast cfg (S (retryAttemptOf sid st));
                              SummarizeCall sid p m true;
                              SendContinueAfter sid 500%Z])%list
             /\ Forall (fun e => isTimer e = false) pre)
    /\ (truncationSucceeds cfg env sid st = false ->
        summarizeAttempted cfg msg sid st = true ->
        summarizeOk env = false ->
        (exists pre p m,
            snd r = (pre ++ [summarizeToast cfg (S (retryAttemptOf sid st));
                             SummarizeCall sid p m false;
                             ScheduleRetry sid (cappedDelay cfg (S (retryAttemptOf sid st)))])%list
            /\ Forall (fun e => isTimer e = false) pre)
        /\ retryStateBySession (fst r) !! sid
           = Some {| attempt := S (retryAttemptOf sid st); lastAttemptTime := now env |}
        /\ (sid ∉ compactionInProgress (fst r))
        /\ ~ cleared sid (fst r))
    /\ (truncationSucceeds cfg env sid st = false ->
        summarizeAttempted cfg msg sid st = false ->
        revertSucceeds cfg env sid st = true ->
        exists pre uid,
          snd r = (pre ++ [RevertCall sid uid true; ScheduleRetry sid 1000%Z])%list
          /\ Forall (fun e => isTimer e = false) pre
          /\ fallbackStateBySession (fst r) !! sid
             = Some {| revertAttempt := S (revertAttemptOf sid st);
                       lastRevertedMessageID := Some uid |}
          /\ (exists t, retryStateBySession (fst r) !! sid
                        = Some {| attempt := 0; lastAttemptTime := t |})
          /\ (exists q, truncateStateBySession (fst r) !! sid
                        = Some {| truncateAttempt := 0; lastTruncatedPartId := q |})
          /\ (sid ∉ compactionInProgress (fst r))
          /\ ~ cleared sid (fst r))
    /\ (truncationSucceeds cfg env sid st = false ->
        summarizeAttempted cfg msg sid st = false ->
        revertSucceeds cfg env sid st = false ->
        fst r = clearSessionState sid st
        /\ cleared sid (fst r)
        /\ exists pre,
             snd r = (pre ++ [failureToast])%list
             /\ Forall (fun e => isTimer e = false) pre).
Proof.
  intros env msg sid st Hguard r.
  split.
  { intros Ht. destruct (executeCompact_truncated env msg sid st Hguard Ht) as (l & _ & Hr).
    fold r in Hr. rewrite Hr. simpl fst. simpl snd.
    destruct (enter_rest sid st) as [Hp He].
    split; [eexists; reflexivity |].
    split; [exists (partId l); simpl; apply lookup_insert_eq |].
    split; [simpl; apply enter_retry |].
    split; [simpl; apply enter_fallback |].
    split; [simpl; exact He |].
    split; [simpl; exact Hp |].
    split; [simpl; set_solver |].
    intros (_ & _ & _ & _ & Hc & _). simpl in Hc. rewrite lookup_insert_eq in Hc.
    discriminate. }
  assert (Hnt : truncationSucceeds cfg env sid st = false ->
                exists pre, r = withEffects pre (summarizeTier cfg env msg sid (snd (enter sid st)))
                            /\ Forall (fun e => isTimer e = false) pre).
  { intros Ht. destruct (executeCompact_not_truncated env msg sid st Hguard Ht) as (pre & Hr & Hpre).
    exists pre. split; [exact Hr | apply truncation_not_timer; exact Hpre]. }
  assert (Hsa : summarizeAttempted cfg msg sid st = true ->
                exists p m,
                  summarizeTier cfg env msg sid (snd (enter sid st))
                  = let st1 := setRetry sid {| attempt := S (retryAttemptOf sid st);
                                               lastAttemptTime := now env |}
                                        (snd (getOrCreateRetryState sid (snd (enter sid st)))) in
                    if summarizeOk env then
                      (clearSessionState sid st1,
                       [summarizeToast cfg (S (retryAttemptOf sid st));
                        SummarizeCall sid p m true; SendContinueAfter sid 500%Z])
                    else
                      (releaseGuard sid st1,
                       [summarizeToast cfg (S (retryAttemptOf sid st));
                        SummarizeCall sid p m false;
                        ScheduleRetry sid (cappedDelay cfg (S (retryAttemptOf sid st)))])).
  { intros Hs. rewrite <- summarizeAttempted_enter in Hs.
    destruct (summarizeTier_attempted env msg sid _ Hs) as (p & m & _ & _ & E).
    rewrite retryAttemptOf_enter in E. exists p, m. exact E. }
  assert (Hsk : summarizeAttempted cfg msg sid st = false ->
                exists stx,
                  summarizeTier cfg env msg sid (snd (enter sid st)) = revertTier cfg env sid stx
                  /\ is_Some (retryStateBySession stx !! sid)
                  /\ is_Some (truncateStateBySession stx !! sid)
                  /\ fallbackStateBySession stx = fallbackStateBySession st
                  /\ clearSessionState sid stx = clearSessionState sid st).
  { intros Hs. rewrite <- summarizeAttempted_enter in Hs.
    destruct (summarizeTier_skipped env msg sid _ Hs) as (stx & E & Hre & Htx & Hfx & Hcx).
    exists stx. split; [exact E |]. split; [exact Hre |].
    split; [rewrite Htx; apply enter_is_Some_truncate |].
    split; [rewrite Hfx; apply enter_fallback |].
    rewrite Hcx. apply clear_enter. }
  split; [| split; [| split]].
  - intros Ht Hs Hok. destruct (Hnt Ht) as (pre & Hr & Hpre).
    destruct (Hsa Hs) as (p & m & E). rewrite Hr, E. cbv zeta. rewrite Hok.
    unfold withEffects. simpl fst. simpl snd.
    rewrite clear_setRetry, clear_getOrCreateRetry, clear_enter.
    split; [reflexivity |]. split; [apply clearSessionState_cleared |].
    exists pre, p, m. split; [reflexivity | exact Hpre].
  - intros Ht Hs Hok. destruct (Hnt Ht) as (pre & Hr & Hpre).
    destruct (Hsa Hs) as (p & m & E). rewrite Hr, E. cbv zeta. rewrite Hok.
    unfold withEffects. simpl fst. simpl snd.
    split; [exists pre, p, m; split; [reflexivity | exact Hpre] |].
    split; [simpl; apply lookup_insert_eq |].
    split; [simpl; set_solver |].
    intros (_ & _ & Hc & _). simpl in Hc. rewrite lookup_insert_eq in Hc. discriminate.
  - intros Ht Hs Hrv. destruct (Hnt Ht) as (pre & Hr & Hpre).
    destruct (Hsk Hs) as (stx & E & [rs Hrs] & [ts Hts] & Hfx & _).
    rewrite <- (revertSucceeds_ext env sid st stx Hfx) in Hrv.
    destruct (revertTier_succeeds env sid stx Hrv)
      as (pre' & uid & st3 & Hrt & Hsteps & Hfal & Hret & Htru).
    rewrite (revertAttemptOf_ext sid st stx Hfx) in Hfal.
    rewrite Hr, E, Hrt. unfold withEffects. simpl fst. simpl snd.
    exists (pre ++ pre')%list, uid.
    split; [rewrite app_assoc; reflexivity |].
    split; [apply Forall_app; split; [exact Hpre | apply revertStep_not_timer; exact Hsteps] |].
    split; [exact Hfal |].
    split; [eexists; apply (Hret _ Hrs) |].
    split; [eexists; apply (Htru _ Hts) |].
    split; [simpl; set_solver |].
    intros (_ & _ & _ & Hc & _). simpl in Hc. rewrite Hfal in Hc. discriminate.
  - intros Ht Hs Hrv. destruct (Hnt Ht) as (pre & Hr & Hpre).
    destruct (Hsk Hs) as (stx & E & _ & _ & Hfx & Hcx).
    rewrite <- (revertSucceeds_ext env sid st stx Hfx) in Hrv.
    destruct (revertTier_fails env sid stx Hrv) as (pre' & Hrt & Hsteps).
    rewrite Hr, E, Hrt. unfold withEffects. simpl fst. simpl snd. rewrite Hcx.
    split; [reflexivity |]. split; [apply clearSessionState_cleared |].
    exists (pre ++ pre')%list.
    split; [rewrite app_assoc; reflexivity |].
    apply Forall_app; split; [exact Hpre | apply revertStep_not_timer; exact Hsteps].
Qed.

End ExecutorProofs.

Lemma truncate_tier_precedes_summarize_witness :
  exists rest,
    snd (executeCompact cfg0 envLarge msgKnown "ses_1" freshState)
    = FindLargest "ses_1" :: Truncate "/storage/part/prt_1.json" :: rest.
Proof.
  assert (Hguard : "ses_1" ∉ compactionInProgress freshState) by (simpl; set_solver).
  destruct (truncate_tier_precedes_summarize cfg0 envLarge msgKnown "ses_1" freshState Hguard)
    as [Hfirst _].
  destruct (Hfirst {| partPath := "/storage/part/prt_1.json"; partId := "prt_1";
                      outputSize := 90000 |})
    as (rest & Heq & _).
  - vm_compute. lia.
  - reflexivity.
  - vm_compute. discriminate.
  - exists rest. exact Heq.
Defined.

Lemma all_tiers_exhausted_gives_up_witness :
  cleared "ses_1" (fst (executeCompact cfg0 envRevert msgKnown "ses_1" exhaustedState))
  /\ Forall (fun e => isTimer e = false)
            (snd (executeCompact cfg0 envRevert msgKnown "ses_1" exhaustedState)).
Proof.
  assert (Hguard : "ses_1" ∉ compactionInProgress exhaustedState) by (simpl; set_solver).
  assert (Ht : maxTruncateAttempts cfg0 <= truncateAttemptOf "ses_1" exhaustedState)
    by (vm_compute; lia).
  assert (Hr : maxAttempts cfg0 <= retryAttemptOf "ses_1" exhaustedState)
    by (vm_compute; lia).
  assert (Hf : maxRevertAttempts cfg0 <= revertAttemptOf "ses_1" exhaustedState)
    by (vm_compute; lia).
  destruct (all_tiers_exhausted_gives_up cfg0 envRevert msgKnown "ses_1" exhaustedState
              Hguard Ht Hr Hf) as (_ & _ & Hc & Hn).
  split; [exact Hc | exact Hn].
Defined.

Lemma chain_end_clears_state_revert_reenters_witness :
  truncateStateBySession (fst (executeCompact cfg0 envLarge msgKnown "ses_1" usedState))
    !! "ses_1" = Some {| truncateAttempt := 3; lastTruncatedPartId := Some "prt_1" |}
  /\ cleared "ses_1" (fst (executeCompact cfg0 envSummarize msgKnown "ses_1" usedState))
  /\ fallbackStateBySession (fst (executeCompact cfg0 envRevert msgUnknown "ses_1" usedState))
       !! "ses_1" = Some {| revertAttempt := 2; lastRevertedMessageID := Some "msg_u1" |}
  /\ cleared "ses_1" (fst (executeCompact cfg0 envNothing msgUnknown "ses_1" usedState)).
Proof.
  assert (Hguard : "ses_1" ∉ compactionInProgress usedState) by (simpl; set_solver).
  split; [| split; [| split]].
  - destruct (chain_end_clears_state_revert_reenters cfg0 envLarge msgKnown "ses_1" usedState
                Hguard) as (H & _).
    destruct (H eq_refl) as (_ & (q & Hq) & _).
    rewrite Hq. vm_compute in Hq. injection Hq as <-. reflexivity.
  - destruct (chain_end_clears_state_revert_reenters cfg0 envSummarize msgKnown "ses_1"
                usedState Hguard) as (_ & H & _).
    apply (H eq_refl eq_refl eq_refl).
  - destruct (chain_end_clears_state_revert_reenters cfg0 envRevert msgUnknown "ses_1"
                usedState Hguard) as (_ & _ & _ & H & _).
    destruct (H eq_refl eq_refl eq_refl) as (pre & uid & _ & _ & Hf & _).
    rewrite Hf. vm_compute in Hf. injection Hf as <-. reflexivity.
  - destruct (chain_end_clears_state_revert_reenters cfg0 envNothing msgUnknown "ses_1"
                usedState Hguard) as (_ & _ & _ & _ & H).
    apply (H eq_refl eq_refl eq_refl).
Defined.

(** C5, as stated, fails at both of its "success" endings other than
    summarize.  A successful truncation ends the invocation with the
    "Continue" prompt re-sent and no further invocation scheduled, and
    every record of the session is still stored.  A successful revert
    re-sends no "Continue" prompt and does not end the chain: it
    schedules another invocation, and the records are still stored. *)
Lemma chain_end_keeps_records :
  (let r := executeCompact cfg0 envLarge msgKnown "ses_1" usedState in
   snd r = [ FindLargest "ses_1"; Truncate "/storage/part/prt_1.json";
             Toast "Truncating Large Output" "Truncated bash (87.9KB). Retrying..."
                   "warning" 3000%Z;
             SendContinueAfter "ses_1" 500%Z ]
   /\ "ses_1" ∈ pendingCompact (fst r)
   /\ errorDataBySession (fst r) !! "ses_1" = Some tt
   /\ retryStateBySession (fst r) !! "ses_1" = Some {| attempt := 1; lastAttemptTime := 1000 |}
   /\ fallbackStateBySession (fst r) !! "ses_1"
      = Some {| revertAttempt := 1; lastRevertedMessageID := Some "msg_9" |}
   /\ truncateStateBySession (fst r) !! "ses_1"
      = Some {| truncateAttempt := 3; lastTruncatedPartId := Some "prt_1" |}
   /\ ~ cleared "ses_1" (fst r))
  /\ (let r := executeCompact cfg0 envRevert msgUnknown "ses_1" freshState in
      snd r = [ FindLargest "ses_1"; MessagesCall "ses_1";
                Toast "Emergency Recovery" "Removing last message pair..." "warning" 3000%Z;
                RevertCall "ses_1" "msg_a1" true; RevertCall "ses_1" "msg_u1" true;
                ScheduleRetry "ses_1" 1000%Z ]
      /\ fallbackStateBySession (fst r) !! "ses_1"
         = Some {| revertAttempt := 1; lastRevertedMessageID := Some "msg_u1" |}
      /\ retryStateBySession (fst r) !! "ses_1"
         = Some {| attempt := 0; lastAttemptTime := 5000 |}
      /\ truncateStateBySession (fst r) !! "ses_1"
         = Some {| truncateAttempt := 0; lastTruncatedPartId := None |}
      /\ ~ cleared "ses_1" (fst r)).
Proof.
  cbv zeta. split.
  - split; [vm_compute; reflexivity |].
    split; [vm_compute; set_solver |].
    split; [vm_compute; reflexivity |].
    split; [vm_compute; reflexivity |].
    split; [vm_compute; reflexivity |].
    split; [vm_compute; reflexivity |].
    intros (_ & _ & Hretry & _). vm_compute in Hretry. discriminate.
  - split; [vm_compute; reflexivity |].
    split; [vm_compute; reflexivity |].
    split; [vm_compute; reflexivity |].
    split; [vm_compute; reflexivity |].
    intros (_ & _ & Hretry & _). vm_compute in Hretry. discriminate.
Qed.

End AutoCompactProofs.

(* ===================================================================== *)
(** ** Properties of the guarded append *)
(* ===================================================================== *)

Module DirectiveProofs.
Import JsString Directive.

Lemma prefix_nil (s : string) : String.prefix "" s = true.
Proof. destruct s; reflexivity. Qed.

Lemma app_cons (c : ascii) (p s : string) : String c p ++ s = String c (p ++ s).
Proof. reflexivity. Qed.

Lemma app_nil_l (s : string) : "" ++ s = s.
Proof. reflexivity. Qed.

Lemma prefix_app (k p s : string) :
  String.prefix k p = true -> String.prefix k (p ++ s) = true.
Proof.
  revert p. induction k as [| a k IH]; intros p H; [apply prefix_nil |].
  destruct p as [| b p]; [discriminate |].
  rewrite app_cons. simpl in *.
  destruct (ascii_dec a b); [auto | discriminate].
Qed.

Lemma includes_nil (s : string) : includes s "" = true.
Proof. destruct s; reflexivity. Qed.

Lemma includes_app_r (p s k : string) :
  includes s k = true -> includes (p ++ s) k = true.
Proof.
  intros H. induction p as [| c p IH]; [exact H |].
  rewrite app_cons. cbn [includes].
  destruct (String.prefix k (String c (p ++ s))); auto.
Qed.

Lemma includes_app_l (p s k : string) :
  includes p k = true -> includes (p ++ s) k = true.
Proof.
  induction p as [| c p IH].
  - destruct k; [intros _; apply includes_nil | simpl; discriminate].
  - rewrite app_cons. cbn [includes].
    destruct (String.prefix k (String c p)) eqn:E.
    + intros _. apply (prefix_app _ _ s) in E. rewrite app_cons in E.
      rewrite E. reflexivity.
    + intros H. destruct (String.prefix k (String c (p ++ s))); auto.
Qed.

(** An occurrence of [k] that starts inside [q] and runs into what
    follows must contain the first character of what follows. *)
Lemma prefix_straddle (k q : string) (c : ascii) (s : string) :
  String.prefix k (q ++ String c s) = true ->
  String.prefix k q = true \/ memChar c k = true.
Proof.
  revert q. induction k as [| a k IH]; intros q H; [left; apply prefix_nil |].
  destruct q as [| b q].
  - rewrite app_nil_l in H. simpl in *.
    destruct (ascii_dec a c) as [-> |]; [| discriminate].
    right. rewrite Ascii.eqb_refl. reflexivity.
  - rewrite app_cons in H. simpl in *.
    destruct (ascii_dec a b); [| discriminate].
    destruct (IH q H) as [Hp | Hm]; [left; exact Hp |].
    right. rewrite Hm. destruct (Ascii.eqb a c); reflexivity.
Qed.

Lemma includes_cons_false (c : ascii) (p k : string) :
  includes (String c p) k = false ->
  String.prefix k (String c p) = false /\ includes p k = false.
Proof.
  cbn [includes]. destruct (String.prefix k (String c p)); [discriminate | auto].
Qed.

(** Appending text whose first character does not occur in the marker
    to a prompt without the marker adds exactly the occurrences of the
    appended text. *)
Lemma occurrences_app_fresh (marker p : string) (c : ascii) (s : string) :
  includes p marker = false ->
  memChar c marker = false ->
  occurrences (p ++ String c s) marker = occurrences (String c s) marker.
Proof.
  intros Hp Hc. unfold occurrences.
  induction p as [| a p IH]; [reflexivity |].
  apply includes_cons_false in Hp as [Hpre Hrest].
  rewrite app_cons. cbn [occurrencesFrom].
  destruct (String.prefix marker (String a (p ++ String c s))) eqn:E.
  - rewrite <- app_cons in E.
    apply prefix_straddle in E as [E | E]; congruence.
  - apply IH. exact Hrest.
Qed.

Section AppendOnce.
Variables marker suffix : string.
Hypothesis suffix_has_marker : includes suffix marker = true.

(** A prompt that has the marker is handed back as it is. *)
Lemma appendOnce_present (p : string) :
  includes p marker = true -> appendOnce marker suffix (Some p) = Some p.
Proof.
  intros H. unfold appendOnce, truthy.
  destruct (String.eqb p ""); [reflexivity |]. rewrite H. reflexivity.
Qed.

Lemma appendOnce_absent (p : string) :
  p <> "" -> includes p marker = false ->
  appendOnce marker suffix (Some p) = Some (p ++ suffix).
Proof.
  intros Hne H. unfold appendOnce, truthy.
  destruct (String.eqb_spec p ""); [contradiction |]. rewrite H. reflexivity.
Qed.

(** A second application changes nothing. *)
Lemma appendOnce_idempotent (prompt : option string) :
  appendOnce marker suffix (appendOnce marker suffix prompt)
  = appendOnce marker suffix prompt.
Proof.
  destruct prompt as [p|]; [| reflexivity].
  destruct (String.eqb_spec p "") as [-> | Hne]; [reflexivity |].
  destruct (includes p marker) eqn:Ei.
  - rewrite !appendOnce_present by assumption. reflexivity.
  - rewrite (appendOnce_absent p) by assumption.
    apply appendOnce_present. apply includes_app_r. exact suffix_has_marker.
Qed.

(** A non-empty prompt without the marker carries it once afterwards,
    provided the appended text carries it once and starts with a
    character foreign to the marker. *)
Lemma appendOnce_single (p : string) (c : ascii) (s : string) :
  suffix = String c s ->
  memChar c marker = false ->
  occurrences suffix marker = 1 ->
  p <> "" -> includes p marker = false ->
  markerCount marker (appendOnce marker suffix (Some p)) = 1
  /\ markerCount marker (appendOnce marker suffix (appendOnce marker suffix (Some p))) = 1.
Proof.
  intros Hs Hc Hone Hne Hp.
  rewrite appendOnce_idempotent, appendOnce_absent by assumption.
  simpl. rewrite Hs in *. rewrite occurrences_app_fresh by assumption. auto.
Qed.

End AppendOnce.
End DirectiveProofs.

(* ===================================================================== *)
(** ** Properties of the markdown-only write guard *)
(* ===================================================================== *)

Module PrometheusMdOnlyProofs.
Import JsString Directive PrometheusMdOnly DirectiveProofs.

Lemma existsb_eqb_In (tool : string) (l : list string) :
  existsb (String.eqb tool) l = true <-> In tool l.
Proof.
  rewrite existsb_exists. split.
  - intros (x & Hin & Heq). apply String.eqb_eq in Heq. subst. exact Hin.
  - intros Hin. exists tool. split; [exact Hin | apply String.eqb_refl].
Qed.

Lemma existsb_eqb_not_In (tool : string) (l : list string) :
  ~ In tool l -> existsb (String.eqb tool) l = false.
Proof.
  intros H. destruct (existsb (String.eqb tool) l) eqn:E; [| reflexivity].
  apply existsb_eqb_In in E. contradiction.
Qed.

Lemma length_app_string (a b : string) :
  String.length (a ++ b) = String.length a + String.length b.
Proof. induction a as [| c a IH]; [reflexivity |]. rewrite app_cons. simpl. rewrite IH. reflexivity. Qed.

Lemma substring_whole (s : string) : String.substring 0 (String.length s) s = s.
Proof. induction s as [| c s IH]; [reflexivity |]. simpl. rewrite IH. reflexivity. Qed.

Lemma substring_skip (stem s : string) (n : nat) :
  String.substring (String.length stem) n (stem ++ s) = String.substring 0 n s.
Proof. induction stem as [| c stem IH]; [reflexivity |]. rewrite app_cons. simpl. exact IH. Qed.

Lemma substring_split (s : string) (n : nat) :
  n <= String.length s ->
  s = String.substring 0 n s ++ String.substring n (String.length s - n) s.
Proof.
  revert s. induction n as [| n IH]; intros s Hn.
  - rewrite Nat.sub_0_r, substring_whole. destruct s; reflexivity.
  - destruct s as [| c s]; [simpl in Hn; lia |].
    simpl in Hn. simpl String.substring. simpl String.length. simpl Nat.sub.
    rewrite app_cons. f_equal. apply IH. lia.
Qed.

(** [s.endsWith(suffix)] holds of the strings that are some text
    followed by [suffix], and of no other. *)
Lemma endsWith_iff (s suffix : string) :
  endsWith s suffix = true <-> exists stem, s = stem ++ suffix.
Proof.
  unfold endsWith. split.
  - intros H. apply andb_prop in H as [Hlen Heq].
    apply Nat.leb_le in Hlen. apply String.eqb_eq in Heq.
    exists (String.substring 0 (String.length s - String.length suffix) s).
    pose proof (substring_split s (String.length s - String.length suffix)) as Hs.
    replace (String.length s - (String.length s - String.length suffix))
      with (String.length suffix) in Hs by lia.
    rewrite Heq in Hs. apply Hs. lia.
  - intros (stem & ->). rewrite length_app_string.
    apply andb_true_intro. split; [apply Nat.leb_le; lia |].
    replace (String.length stem + String.length suffix - String.length suffix)
      with (String.length stem) by lia.
    rewrite substring_skip, substring_whole. apply String.eqb_refl.
Qed.

(** C7 (as the model of section 4.5 has it). For a write/edit call of
    the planner: a path that does not end in [.md] (any letter case) is
    rejected as not markdown; a markdown path whose normalized components
    (cut at both kinds of slash, [.] and [..] resolved) do not include
    [.sisyphus] (any letter case) is rejected with the message that names
    the reserved directory, a longer message than the first;
    [.sisyphus/../secrets.md] is rejected that way and
    [.SISYPHUS/plans/x.MD] passes.  The markdown test holds exactly of
    the paths whose lower-case form is some text followed by [.md].
    Tools outside the write/edit class are never rejected: a delegate
    tool of the planner gets the guarded append on its prompt (a
    non-empty prompt without the marker gets the warning appended, a
    prompt with the marker, an empty and an absent prompt stay as they
    are), and every other tool is left alone.  For any other agent the
    hook does nothing. *)
Theorem planner_write_guard :
  forall (marker warning : string),
    (forall tool path prompt,
        In tool WRITE_EDIT_TOOLS ->
        isMarkdown path = false ->
        toolExecuteBefore marker warning (Some PLANNER_AGENT) tool (Some path) prompt
        = Rejected NotMarkdown)
    /\ (forall tool path prompt,
           In tool WRITE_EDIT_TOOLS ->
           isMarkdown path = true ->
           hasReservedComponent path = false ->
           toolExecuteBefore marker warning (Some PLANNER_AGENT) tool (Some path) prompt
           = Rejected OutsideReserved)
    /\ (forall tool prompt,
           In tool WRITE_EDIT_TOOLS ->
           toolExecuteBefore marker warning (Some PLANNER_AGENT) tool
                             (Some ".sisyphus/../secrets.md") prompt
           = Rejected OutsideReserved
           /\ toolExecuteBefore marker warning (Some PLANNER_AGENT) tool
                                (Some ".SISYPHUS/plans/x.MD") prompt
              = Unchanged)
    /\ (rejectionMessage NotMarkdown <> rejectionMessage OutsideReserved
        /\ includes (rejectionMessage OutsideReserved) (rejectionMessage NotMarkdown) = true
        /\ includes (rejectionMessage OutsideReserved) "inside .sisyphus/" = true)
    /\ (forall agent tool path prompt r,
           ~ In tool WRITE_EDIT_TOOLS ->
           toolExecuteBefore marker warning agent tool path prompt <> Rejected r)
    /\ (forall agent tool path prompt,
           agent <> Some PLANNER_AGENT ->
           toolExecuteBefore marker warning agent tool path prompt = Unchanged)
    /\ (forall path,
           isMarkdown path = true <-> exists stem, toLowerCase path = stem ++ ".md")
    /\ (forall tool prompt,
           In tool WRITE_EDIT_TOOLS ->
           let hook path := toolExecuteBefore marker warning (Some PLANNER_AGENT) tool
                                              (Some path) prompt in
           hook "/path/to/file.ts" = Rejected NotMarkdown
           /\ hook "my-project\src\code.ts" = Rejected NotMarkdown
           /\ hook ".sisyphus/plans/notes.md.bak" = Rejected NotMarkdown
           /\ hook ".sisyphus/plans/notes.mdx" = Rejected NotMarkdown
           /\ hook ".sisyphus/plans/md" = Rejected NotMarkdown
           /\ hook ".sisyphus/plans/x.md/notes.txt" = Rejected NotMarkdown
           /\ hook "/path/to/README.md" = Rejected OutsideReserved
           /\ hook "sisyphus/plan.md" = Rejected OutsideReserved
           /\ hook ".sisyphus.md" = Rejected OutsideReserved
           /\ hook "docs/./.sisyphus/plans/../plan.Md" = Unchanged)
    /\ (forall agent tool path prompt,
           ~ In tool WRITE_EDIT_TOOLS ->
           ~ In tool DELEGATE_TOOLS ->
           toolExecuteBefore marker warning agent tool path prompt = Unchanged)
    /\ (forall tool path prompt,
           In tool DELEGATE_TOOLS ->
           toolExecuteBefore marker warning (Some PLANNER_AGENT) tool path prompt
           = PromptSet (appendOnce marker warning prompt))
    /\ (forall tool path,
           In tool DELEGATE_TOOLS ->
           let hook := promptAfter marker warning (Some PLANNER_AGENT) tool path in
           (forall p, p <> "" -> includes p marker = false ->
                      hook (Some p) = Some (p ++ warning))
           /\ (forall p, includes p marker = true -> hook (Some p) = Some p)
           /\ hook (Some "") = Some ""
           /\ hook None = None).
Proof.
  intros marker warning.
  assert (Hplanner : isPlanner (Some PLANNER_AGENT) = true) by reflexivity.
  assert (Hdelegate : forall tool path prompt,
             In tool DELEGATE_TOOLS ->
             toolExecuteBefore marker warning (Some PLANNER_AGENT) tool path prompt
             = PromptSet (appendOnce marker warning prompt)).
  { intros tool path prompt Hin.
    destruct Hin as [<- | [<- | [<- | []]]]; reflexivity. }
  split.
  { intros tool path prompt Hin Hmd. unfold toolExecuteBefore.
    rewrite Hplanner. apply existsb_eqb_In in Hin. rewrite Hin, Hmd. reflexivity. }
  split.
  { intros tool path prompt Hin Hmd Hres. unfold toolExecuteBefore.
    rewrite Hplanner. apply existsb_eqb_In in Hin. rewrite Hin, Hmd, Hres. reflexivity. }
  split.
  { intros tool prompt Hin. unfold toolExecuteBefore. rewrite Hplanner.
    apply existsb_eqb_In in Hin. rewrite Hin. split; reflexivity. }
  split.
  { split; [discriminate |]. split; reflexivity. }
  split.
  { intros agent tool path prompt r Hnot. unfold toolExecuteBefore.
    destruct (negb (isPlanner agent)); [discriminate |].
    rewrite (existsb_eqb_not_In _ _ Hnot).
    destruct (existsb (String.eqb tool) DELEGATE_TOOLS); discriminate. }
  split.
  { intros agent tool path prompt Hne. unfold toolExecuteBefore.
    destruct agent as [a|]; [| reflexivity]. simpl.
    destruct (String.eqb_spec a PLANNER_AGENT); [congruence | reflexivity]. }
  split.
  { intros path. unfold isMarkdown. apply endsWith_iff. }
  split.
  { intros tool prompt Hin hook. subst hook. unfold toolExecuteBefore. rewrite Hplanner.
    apply existsb_eqb_In in Hin. rewrite Hin. repeat split; reflexivity. }
  split.
  { intros agent tool path prompt Hw Hd. unfold toolExecuteBefore.
    rewrite (existsb_eqb_not_In _ _ Hw), (existsb_eqb_not_In _ _ Hd).
    destruct (negb (isPlanner agent)); reflexivity. }
  split; [exact Hdelegate |].
  intros tool path Hin hook.
  assert (Hhook : forall q, hook q = appendOnce marker warning q).
  { intros q. subst hook. unfold promptAfter. rewrite (Hdelegate _ _ _ Hin). reflexivity. }
  split; [| split; [| split]].
  - intros p Hne Hp. rewrite Hhook. apply appendOnce_absent; assumption.
  - intros p Hp. rewrite Hhook. apply appendOnce_present. exact Hp.
  - rewrite Hhook. reflexivity.
  - rewrite Hhook. reflexivity.
Qed.

(** C7, as stated, fails for the tools by which the planner delegates:
    they are not write/edit tools, and the hook rewrites their prompt.
    Whatever the marker, a planner call of [task] with a prompt that does
    not hold it comes out with the warning appended, which differs from
    the prompt that went in as soon as the warning is not empty. *)
Lemma planner_delegate_prompt_rewritten :
  ~ In "task" WRITE_EDIT_TOOLS
  /\ (forall marker warning,
         includes "Research this library" marker = false ->
         toolExecuteBefore marker warning (Some PLANNER_AGENT) "task" None
                           (Some "Research this library")
         = PromptSet (Some ("Research this library" ++ warning))
         /\ (warning <> "" ->
             promptAfter marker warning (Some PLANNER_AGENT) "task" None
                         (Some "Research this library")
             <> Some "Research this library")).
Proof.
  split.
  { simpl. intros [H | [H | [H | [H | []]]]]; discriminate. }
  intros marker warning Hm.
  assert (E : toolExecuteBefore marker warning (Some PLANNER_AGENT) "task" None
                                (Some "Research this library")
              = PromptSet (Some ("Research this library" ++ warning))).
  { change (PromptSet (appendOnce marker warning (Some "Research this library"))
            = PromptSet (Some ("Research this library" ++ warning))).
    f_equal. apply appendOnce_absent; [discriminate | exact Hm]. }
  split; [exact E |].
  intros Hw. unfold promptAfter. rewrite E. intros Heq. injection Heq as Heq.
  apply (f_equal String.length) in Heq. rewrite length_app_string in Heq.
  destruct warning; [contradiction | simpl in Heq; lia].
Qed.

(** The literal cases of the specification. *)
Lemma planner_write_guard_cases (marker warning : string) :
  toolExecuteBefore marker warning (Some PLANNER_AGENT) "Write"
                    (Some "/tmp/proj/.sisyphus/plans/x.md") None = Unchanged
  /\ toolExecuteBefore marker warning (Some PLANNER_AGENT) "Write"
                       (Some "/tmp/proj/README.md") None = Rejected OutsideReserved
  /\ toolExecuteBefore marker warning (Some PLANNER_AGENT) "Write"
                       (Some "/tmp/proj/src/code.ts") None = Rejected NotMarkdown
  /\ toolExecuteBefore marker warning (Some PLANNER_AGENT) "Edit"
                       (Some ".sisyphus\plans/work-plan.MD") None = Unchanged
  /\ toolExecuteBefore marker warning (Some PLANNER_AGENT) "Read"
                       (Some "/path/to/file.ts") None = Unchanged
  /\ toolExecuteBefore marker warning (Some PLANNER_AGENT) "Write" None None = Unchanged
  /\ toolExecuteBefore marker warning (Some "Sisyphus") "Write"
                       (Some "/path/to/file.ts") None = Unchanged.
Proof. repeat split; reflexivity. Qed.

End PrometheusMdOnlyProofs.

(* ===================================================================== *)
(** ** Idempotence of the directive injection *)
(* ===================================================================== *)

Module HookDirectiveProofs.
Import JsString Directive DirectiveProofs.

Lemma singleTaskSuffix_has_marker :
  includes SisyphusOrchestrator.singleTaskSuffix SisyphusOrchestrator.SINGLE_TASK_MARKER = true.
Proof. vm_compute. reflexivity. Qed.

Lemma singleTaskSuffix_one_marker :
  occurrences SisyphusOrchestrator.singleTaskSuffix SisyphusOrchestrator.SINGLE_TASK_MARKER = 1.
Proof. vm_compute. reflexivity. Qed.

Lemma orchestrator_before_idempotent (agent : option string) (tool : string)
      (prompt : option string) :
  SisyphusOrchestrator.toolExecuteBefore agent tool
    (SisyphusOrchestrator.toolExecuteBefore agent tool prompt)
  = SisyphusOrchestrator.toolExecuteBefore agent tool prompt.
Proof.
  unfold SisyphusOrchestrator.toolExecuteBefore.
  destruct (negb _); [reflexivity |].
  destruct (existsb _ _); [reflexivity |].
  destruct (String.eqb tool "sisyphus_task"); [| reflexivity].
  apply appendOnce_idempotent. exact singleTaskSuffix_has_marker.
Qed.

Lemma planner_prompt_idempotent (marker warning : string) :
  includes warning marker = true ->
  forall agent tool path prompt,
    PrometheusMdOnly.promptAfter marker warning agent tool path
      (PrometheusMdOnly.promptAfter marker warning agent tool path prompt)
    = PrometheusMdOnly.promptAfter marker warning agent tool path prompt.
Proof.
  intros Hw agent tool path prompt.
  unfold PrometheusMdOnly.promptAfter, PrometheusMdOnly.toolExecuteBefore.
  destruct (negb _); [reflexivity |].
  destruct (existsb _ PrometheusMdOnly.WRITE_EDIT_TOOLS).
  - destruct path as [p|]; [| reflexivity].
    destruct (negb (PrometheusMdOnly.isMarkdown p)); [reflexivity |].
    destruct (negb (PrometheusMdOnly.hasReservedComponent p)); reflexivity.
  - destruct (existsb _ PrometheusMdOnly.DELEGATE_TOOLS); [| reflexivity].
    apply appendOnce_idempotent. exact Hw.
Qed.

Lemma prefix_self (s : string) : String.prefix s s = true.
Proof.
  induction s as [| c s IH]; [reflexivity |]. simpl.
  destruct (ascii_dec c c); [exact IH | contradiction].
Qed.

Lemma includes_self (s : string) : includes s s = true.
Proof. destruct s; cbn [includes]; rewrite prefix_self; reflexivity. Qed.

(** A prompt that has the marker somewhere inside. *)
Lemma includes_between (a marker b : string) : includes (a ++ marker ++ b) marker = true.
Proof. apply includes_app_r, includes_app_l, includes_self. Qed.

Lemma orchestrator_before_present (agent : option string) (tool p : string) :
  includes p SisyphusOrchestrator.SINGLE_TASK_MARKER = true ->
  SisyphusOrchestrator.toolExecuteBefore agent tool (Some p) = Some p.
Proof.
  intros Hp. unfold SisyphusOrchestrator.toolExecuteBefore.
  destruct (negb _); [reflexivity |].
  destruct (existsb _ _); [reflexivity |].
  destruct (String.eqb tool "sisyphus_task"); [| reflexivity].
  apply appendOnce_present. exact Hp.
Qed.

Lemma orchestrator_before_falsy (agent : option string) (tool : string) :
  SisyphusOrchestrator.toolExecuteBefore agent tool (Some "") = Some ""
  /\ SisyphusOrchestrator.toolExecuteBefore agent tool None = None.
Proof.
  unfold SisyphusOrchestrator.toolExecuteBefore.
  destruct (negb _); [split; reflexivity |].
  destruct (existsb _ _); [split; reflexivity |].
  destruct (String.eqb tool "sisyphus_task"); split; reflexivity.
Qed.

(** The planner hook sets the prompt by the guarded append or leaves it
    alone. *)
Lemma planner_prompt_cases (marker warning : string) agent tool path prompt :
  PrometheusMdOnly.promptAfter marker warning agent tool path prompt
  = appendOnce marker warning prompt
  \/ PrometheusMdOnly.promptAfter marker warning agent tool path prompt = prompt.
Proof.
  unfold PrometheusMdOnly.promptAfter, PrometheusMdOnly.toolExecuteBefore.
  destruct (negb _); [right; reflexivity |].
  destruct (existsb _ PrometheusMdOnly.WRITE_EDIT_TOOLS).
  - right. destruct path as [p|]; [| reflexivity].
    destruct (negb (PrometheusMdOnly.isMarkdown p)); [reflexivity |].
    destruct (negb (PrometheusMdOnly.hasReservedComponent p)); reflexivity.
  - destruct (existsb _ PrometheusMdOnly.DELEGATE_TOOLS); [left | right]; reflexivity.
Qed.

Lemma planner_prompt_present (marker warning : string) agent tool path (p : string) :
  includes p marker = true ->
  PrometheusMdOnly.promptAfter marker warning agent tool path (Some p) = Some p.
Proof.
  intros Hp.
  destruct (planner_prompt_cases marker warning agent tool path (Some p)) as [E | E];
    rewrite E; [apply appendOnce_present; exact Hp | reflexivity].
Qed.

Lemma planner_prompt_falsy (marker warning : string) agent tool path :
  PrometheusMdOnly.promptAfter marker warning agent tool path (Some "") = Some ""
  /\ PrometheusMdOnly.promptAfter marker warning agent tool path None = None.
Proof.
  split.
  - destruct (planner_prompt_cases marker warning agent tool path (Some "")) as [E | E];
      rewrite E; reflexivity.
  - destruct (planner_prompt_cases marker warning agent tool path None) as [E | E];
      rewrite E; reflexivity.
Qed.

(** C8 (as the code has it). Both before-hooks are idempotent on the
    prompt: a second application changes nothing.  Either hook hands a
    prompt that has the marker back untouched, with whatever number of
    markers it came with, whoever calls whatever tool, and never
    annotates an empty or an absent prompt; so the planner's
    [sisyphus_task] call with the prompt "Some prompt <marker> already
    here" keeps that prompt.  A non-empty prompt without the marker
    carries it exactly once after one and after two applications.  The
    single-task directive of the orchestrator is the text of the source;
    the planner's warning and its marker are parameters, of which the
    warning has the marker once and begins with a character that is not
    in the marker. *)
Theorem directive_injection_idempotent :
  (forall agent tool prompt,
      SisyphusOrchestrator.toolExecuteBefore agent tool
        (SisyphusOrchestrator.toolExecuteBefore agent tool prompt)
      = SisyphusOrchestrator.toolExecuteBefore agent tool prompt)
  /\ (forall p,
         includes p SisyphusOrchestrator.SINGLE_TASK_MARKER = true ->
         SisyphusOrchestrator.orchestratorHook (Some p) = Some p)
  /\ (forall p,
         p <> "" ->
         includes p SisyphusOrchestrator.SINGLE_TASK_MARKER = false ->
         markerCount SisyphusOrchestrator.SINGLE_TASK_MARKER (SisyphusOrchestrator.orchestratorHook (Some p)) = 1
         /\ markerCount SisyphusOrchestrator.SINGLE_TASK_MARKER
                        (SisyphusOrchestrator.orchestratorHook (SisyphusOrchestrator.orchestratorHook (Some p))) = 1)
  /\ (forall marker warning,
         includes warning marker = true ->
         forall agent tool path prompt,
           PrometheusMdOnly.promptAfter marker warning agent tool path
             (PrometheusMdOnly.promptAfter marker warning agent tool path prompt)
           = PrometheusMdOnly.promptAfter marker warning agent tool path prompt)
  /\ (forall marker warning c s,
         warning = String c s ->
         memChar c marker = false ->
         includes warning marker = true ->
         occurrences warning marker = 1 ->
         forall tool path p,
           In tool PrometheusMdOnly.DELEGATE_TOOLS ->
           p <> "" ->
           includes p marker = false ->
           let hook := PrometheusMdOnly.promptAfter marker warning
                         (Some PrometheusMdOnly.PLANNER_AGENT) tool path in
           markerCount marker (hook (Some p)) = 1
           /\ markerCount marker (hook (hook (Some p))) = 1)
  /\ (forall agent tool p,
         includes p SisyphusOrchestrator.SINGLE_TASK_MARKER = true ->
         SisyphusOrchestrator.toolExecuteBefore agent tool (Some p) = Some p)
  /\ (forall agent tool,
         SisyphusOrchestrator.toolExecuteBefore agent tool (Some "") = Some ""
         /\ SisyphusOrchestrator.toolExecuteBefore agent tool None = None)
  /\ (forall marker warning agent tool path p,
         includes p marker = true ->
         PrometheusMdOnly.promptAfter marker warning agent tool path (Some p) = Some p)
  /\ (forall marker warning agent tool path,
         PrometheusMdOnly.promptAfter marker warning agent tool path (Some "") = Some ""
         /\ PrometheusMdOnly.promptAfter marker warning agent tool path None = None)
  /\ (forall marker warning,
         let p := "Some prompt " ++ marker ++ " already here" in
         let hook := PrometheusMdOnly.promptAfter marker warning
                       (Some PrometheusMdOnly.PLANNER_AGENT) "sisyphus_task" None in
         hook (Some p) = Some p
         /\ markerCount marker (hook (Some p)) = markerCount marker (Some p)).
Proof.
  split; [exact orchestrator_before_idempotent |].
  split.
  { intros p Hp. unfold SisyphusOrchestrator.orchestratorHook, SisyphusOrchestrator.toolExecuteBefore. simpl.
    apply appendOnce_present. exact Hp. }
  split.
  { intros p Hne Hp. unfold SisyphusOrchestrator.orchestratorHook, SisyphusOrchestrator.toolExecuteBefore. simpl.
    eapply (appendOnce_single _ _ singleTaskSuffix_has_marker p (ascii_of_nat 10)).
    - reflexivity.
    - vm_compute. reflexivity.
    - exact singleTaskSuffix_one_marker.
    - exact Hne.
    - exact Hp. }
  split; [exact planner_prompt_idempotent |].
  split.
  { intros marker warning c s Hw Hc Hinc Hone tool path p Htool Hne Hp hook.
    assert (Hhook : forall q, hook q = appendOnce marker warning q).
    { intros q. subst hook.
      unfold PrometheusMdOnly.promptAfter, PrometheusMdOnly.toolExecuteBefore. simpl.
      destruct Htool as [<- | [<- | [<- | []]]]; reflexivity. }
    rewrite !Hhook.
    exact (appendOnce_single marker warning Hinc p c s Hw Hc Hone Hne Hp). }
  split; [exact orchestrator_before_present |].
  split; [exact orchestrator_before_falsy |].
  split; [exact planner_prompt_present |].
  split; [exact planner_prompt_falsy |].
  intros marker warning p hook.
  assert (E : hook (Some p) = Some p).
  { subst hook p. apply planner_prompt_present. apply includes_between. }
  split; [exact E | rewrite E; reflexivity].
Qed.

(** C8, as stated, fails on prompts that come with more than one marker,
    and on the empty prompt: the hook only asks whether the marker is
    present, so two markers stay two, and an empty prompt stays empty. *)
Lemma single_task_marker_count_kept :
  let m := SisyphusOrchestrator.SINGLE_TASK_MARKER in
  let p := m ++ " then again " ++ m in
  includes p m = true
  /\ SisyphusOrchestrator.orchestratorHook (Some p) = Some p
  /\ markerCount m (SisyphusOrchestrator.orchestratorHook (Some p)) = 2
  /\ markerCount m (SisyphusOrchestrator.orchestratorHook (SisyphusOrchestrator.orchestratorHook (Some ""))) = 0.
Proof. cbv zeta. repeat split; vm_compute; reflexivity. Qed.

End HookDirectiveProofs.

(* ===================================================================== *)
(** ** Versions and pending tasks of the coordinator *)
(* ===================================================================== *)

Module TodoContinuationProofs.
Import JsString TodoContinuation.

Lemma mono_refl st : mono st st.
Proof. intros l s H. eauto. Qed.

Lemma mono_trans st1 st2 st3 : mono st1 st2 -> mono st2 st3 -> mono st1 st3.
Proof.
  intros H12 H23 l s H. destruct (H12 l s H) as (s2 & H2 & Hle).
  destruct (H23 l s2 H2) as (s3 & H3 & Hle'). exists s3. split; [exact H3 | lia].
Qed.

Lemma mono_same_heap st st' : heap st' = heap st -> mono st st'.
Proof. intros Heq l s H. rewrite Heq. eauto. Qed.

Lemma mono_updState l f st :
  (forall s, version s <= version (f s)) -> mono st (updState l f st).
Proof.
  intros Hf l' s H. unfold updState; simpl.
  destruct (decide (l = l')) as [-> | Hne].
  - exists (f s). rewrite list_lookup_alter_eq, H. split; [reflexivity | apply Hf].
  - exists s. rewrite list_lookup_alter_ne by exact Hne. split; [exact H | lia].
Qed.

Lemma mono_getOrCreateState sid st : mono st (snd (getOrCreateState sid st)).
Proof.
  unfold getOrCreateState. destruct (sessions st !! sid); simpl; [apply mono_refl |].
  intros l s H. exists s. split; [| lia]. simpl. apply lookup_app_l_Some. exact H.
Qed.

Lemma mono_addTask t st : mono st (addTask t st).
Proof. apply mono_same_heap. reflexivity. Qed.

Lemma mono_removeTask h st : mono st (removeTask h st).
Proof. apply mono_same_heap. reflexivity. Qed.

Lemma mono_setTask h t st : mono st (setTask h t st).
Proof. apply mono_same_heap. reflexivity. Qed.

Lemma mono_emit e st : mono st (emit e st).
Proof. apply mono_same_heap. reflexivity. Qed.

Ltac mono_tac :=
  repeat match goal with
         | |- mono ?a ?a => apply mono_refl
         | |- mono _ (updState _ _ _) =>
             eapply mono_trans; [| apply mono_updState; intros []; simpl; lia]
         | |- mono _ (addTask _ _) => eapply mono_trans; [| apply mono_addTask]
         | |- mono _ (removeTask _ _) => eapply mono_trans; [| apply mono_removeTask]
         | |- mono _ (setTask _ _ _) => eapply mono_trans; [| apply mono_setTask]
         | |- mono _ (emit _ _) => eapply mono_trans; [| apply mono_emit]
         | |- mono _ (snd (getOrCreateState _ _)) =>
             eapply mono_trans; [| apply mono_getOrCreateState]
         | |- mono _ (match ?x with _ => _ end) => destruct x
         end.

Lemma mono_clearTimer l st : mono st (clearTimer l st).
Proof. unfold clearTimer. mono_tac. Qed.

Lemma mono_invalidate sid st : mono st (invalidate sid st).
Proof.
  unfold invalidate. destruct (stateOf sid st) as [[l s]|]; [| apply mono_refl].
  destruct (SessionMode_eqb (mode s) recovering); [apply mono_refl |].
  destruct (negb _ && negb _); mono_tac;
    (eapply mono_trans; [| apply mono_clearTimer]); mono_tac.
Qed.

Lemma mono_markRecovering sid st : mono st (markRecovering sid st).
Proof.
  unfold markRecovering. mono_tac.
  eapply mono_trans; [| apply mono_invalidate]. mono_tac.
Qed.

Lemma mono_markRecoveryComplete sid st : mono st (markRecoveryComplete sid st).
Proof.
  unfold markRecoveryComplete. destruct (stateOf sid st) as [[l s]|]; mono_tac.
Qed.

Lemma mono_executeInjection w sid v st : mono st (executeInjection w sid v st).
Proof.
  unfold executeInjection. destruct (stateOf sid st) as [[l s]|]; mono_tac.
Qed.

Lemma mono_resumeInjection w sid l v r st : mono st (resumeInjection w sid l v r st).
Proof. unfold resumeInjection. mono_tac. Qed.

Lemma mono_startCountdown sid n st : mono st (startCountdown sid n st).
Proof.
  unfold startCountdown. cbv zeta. mono_tac.
  eapply mono_trans; [| apply mono_invalidate]. mono_tac.
Qed.

Lemma mono_resumeIdle w sid r st : mono st (resumeIdle w sid r st).
Proof.
  unfold resumeIdle. cbv zeta. mono_tac. apply mono_startCountdown.
Qed.

Lemma mono_handler w e st : mono st (handler w e st).
Proof.
  destruct e; simpl; cbv zeta;
    repeat match goal with
           | |- mono _ (match truthy ?x with _ => _ end) => destruct (truthy x)
           | |- mono _ (if ?b then _ else _) => destruct b
           | |- mono _ (invalidate _ _) => eapply mono_trans; [| apply mono_invalidate]
           | |- mono _ (match stateOf ?a ?b with _ => _ end) =>
               destruct (stateOf a b) as [[? ?]|]
           | |- mono ?a (mkSystem (heap ?b) _ _ _) =>
               apply (mono_trans a b); [| apply mono_same_heap; reflexivity]
           | |- mono _ (clearTimer _ _) => eapply mono_trans; [| apply mono_clearTimer]
           | _ => progress mono_tac
           end.
Qed.

Lemma mono_step w lbl st : mono st (step w lbl st).
Proof.
  destruct lbl; simpl.
  - apply mono_handler.
  - apply mono_markRecovering.
  - apply mono_markRecoveryComplete.
  - destruct (taskAt h st) as [[]|]; try apply mono_refl.
    + unfold tick. mono_tac.
    + eapply mono_trans; [| apply mono_executeInjection].
      eapply mono_trans; [| apply mono_clearTimer]. mono_tac.
  - destruct (taskAt h st) as [[]|]; try apply mono_refl.
    + eapply mono_trans; [| apply mono_resumeIdle]. mono_tac.
    + eapply mono_trans; [| apply mono_resumeInjection]. mono_tac.
  - destruct (taskAt h st) as [[]|]; try apply mono_refl. mono_tac.
Qed.

(** Versions never go down, whatever happens. *)
Lemma mono_run trace st : mono st (run trace st).
Proof.
  revert st. induction trace as [| [w lbl] rest IH]; intros st; simpl.
  - apply mono_refl.
  - eapply mono_trans; [apply mono_step | apply IH].
Qed.


Lemma taskOk_mono st st' t : mono st st' -> taskOk st t -> taskOk st' t.
Proof.
  intros Hm. destruct t; simpl; try tauto;
    intros (s & Hs & Hle); destruct (Hm _ _ Hs) as (s' & Hs' & Hle');
    exists s'; split; [assumption | lia | assumption | lia | assumption | lia].
Qed.

Lemma Inv_init : Inv init.
Proof.
  split.
  - intros sid l H. simpl in H. rewrite lookup_empty in H. discriminate.
  - intros h t H. unfold taskAt in H. simpl in H. discriminate.
Qed.

Lemma Inv_frame st st' :
  mono st st' ->
  (forall sid l, sessions st' !! sid = Some l -> sessions st !! sid = Some l) ->
  tasks st' = tasks st -> Inv st -> Inv st'.
Proof.
  intros Hm Hs Ht [Hw Hk]. split.
  - intros sid l H. apply Hs in H. destruct (Hw _ _ H) as [s Hl].
    destruct (Hm _ _ Hl) as (s' & Hl' & _). eauto.
  - intros h t H. unfold taskAt in H. rewrite Ht in H.
    eapply taskOk_mono; [exact Hm |]. apply (Hk h). exact H.
Qed.

Lemma Inv_updState l f st :
  (forall s, version s <= version (f s)) -> Inv st -> Inv (updState l f st).
Proof. intros Hf. apply Inv_frame; [apply mono_updState; exact Hf | auto | reflexivity]. Qed.

Lemma Inv_emit e st : Inv st -> Inv (emit e st).
Proof. apply Inv_frame; [apply mono_emit | auto | reflexivity]. Qed.

Lemma Inv_addTask t st : taskOk st t -> Inv st -> Inv (addTask t st).
Proof.
  intros Ht [Hw Hk]. split; [exact Hw |].
  intros h t' H. unfold taskAt in H. simpl in H.
  destruct ((tasks st ++ [Some t])%list !! h) as [[x|]|] eqn:E; try discriminate.
  inversion H; subst x. apply lookup_app_Some in E as [E | [_ E]].
  - apply (taskOk_mono st); [apply mono_addTask |]. apply (Hk h).
    unfold taskAt. rewrite E. reflexivity.
  - destruct (h - length (tasks st)) as [| k]; simpl in E; [| discriminate].
    inversion E; subst. exact Ht.
Qed.

Lemma taskAt_removeTask h h' st t :
  taskAt h' (removeTask h st) = Some t -> taskAt h' st = Some t /\ h' <> h.
Proof.
  unfold taskAt; simpl. destruct (decide (h = h')) as [-> | Hne].
  - destruct (decide (h' < length (tasks st))) as [Hlt | Hge].
    + rewrite list_lookup_insert_eq by exact Hlt. discriminate.
    + rewrite list_insert_ge by lia.
      rewrite lookup_ge_None_2 by lia. discriminate.
  - rewrite list_lookup_insert_ne by exact Hne. intros H. split; [exact H | congruence].
Qed.

Lemma Inv_removeTask h st : Inv st -> Inv (removeTask h st).
Proof.
  intros [Hw Hk]. split; [exact Hw |].
  intros h' t H. apply taskAt_removeTask in H as [H _].
  apply (taskOk_mono st); [apply mono_removeTask |]. apply (Hk h'). exact H.
Qed.

Lemma Inv_setTask h t st : taskOk st t -> Inv st -> Inv (setTask h t st).
Proof.
  intros Ht [Hw Hk]. split; [exact Hw |].
  intros h' t' H. unfold taskAt in H. simpl in H.
  destruct (decide (h = h')) as [-> | Hne].
  - destruct (decide (h' < length (tasks st))) as [Hlt | Hge].
    + rewrite list_lookup_insert_eq in H by exact Hlt. inversion H; subst. exact Ht.
    + rewrite list_insert_ge in H by lia. apply (Hk h'). exact H.
  - rewrite list_lookup_insert_ne in H by exact Hne. apply (Hk h'). exact H.
Qed.

Lemma Inv_getOrCreateState sid st :
  Inv st ->
  Inv (snd (getOrCreateState sid st))
  /\ sessions (snd (getOrCreateState sid st)) !! sid = Some (fst (getOrCreateState sid st)).
Proof.
  intros [Hw Hk]. unfold getOrCreateState.
  destruct (sessions st !! sid) as [l|] eqn:E; simpl; [split; [split |]; assumption |].
  split; [split |].
  - intros sid' l' H. simpl in *. destruct (decide (sid = sid')) as [-> | Hne].
    + rewrite lookup_insert_eq in H. inversion H; subst.
      exists {| version := 0; mode := idle; timer := None; lastAttemptedAt := None |}.
      rewrite lookup_app_r by lia. rewrite Nat.sub_diag. reflexivity.
    + rewrite lookup_insert_ne in H by exact Hne.
      destruct (Hw _ _ H) as [s Hs]. exists s. apply lookup_app_l_Some. exact Hs.
  - intros h t H.
    eapply (taskOk_mono st); [| apply (Hk h); exact H].
    pose proof (mono_getOrCreateState sid st) as Hm.
    unfold getOrCreateState in Hm. rewrite E in Hm. exact Hm.
  - simpl. apply lookup_insert_eq.
Qed.

Lemma Inv_clearTimer l st : Inv st -> Inv (clearTimer l st).
Proof.
  intros HI. unfold clearTimer.
  destruct (heap st !! l) as [s|]; [| exact HI].
  destruct (timer s); [| exact HI].
  apply Inv_updState; [intros []; simpl; lia |]. apply Inv_removeTask. exact HI.
Qed.

Lemma sessions_clearTimer l st : sessions (clearTimer l st) = sessions st.
Proof.
  unfold clearTimer. destruct (heap st !! l) as [s|]; [| reflexivity].
  destruct (timer s); reflexivity.
Qed.

Lemma Inv_invalidate sid st : Inv st -> Inv (invalidate sid st).
Proof.
  intros HI. unfold invalidate.
  destruct (stateOf sid st) as [[l s]|]; [| exact HI].
  destruct (SessionMode_eqb (mode s) recovering); [exact HI |].
  assert (H1 : Inv (clearTimer l (updState l bump st))).
  { apply Inv_clearTimer. apply Inv_updState; [intros []; simpl; lia | exact HI]. }
  destruct (negb _ && negb _); [| exact H1].
  apply Inv_updState; [intros []; simpl; lia | exact H1].
Qed.

Lemma sessions_invalidate sid st : sessions (invalidate sid st) = sessions st.
Proof.
  unfold invalidate. destruct (stateOf sid st) as [[l s]|]; [| reflexivity].
  destruct (SessionMode_eqb (mode s) recovering); [reflexivity |].
  destruct (negb _ && negb _); simpl; rewrite sessions_clearTimer; reflexivity.
Qed.


Lemma Inv_markRecovering sid st : Inv st -> Inv (markRecovering sid st).
Proof.
  intros HI. unfold markRecovering.
  apply Inv_updState; [intros []; simpl; lia |].
  apply Inv_invalidate. apply Inv_getOrCreateState. exact HI.
Qed.

Lemma Inv_markRecoveryComplete sid st : Inv st -> Inv (markRecoveryComplete sid st).
Proof.
  intros HI. unfold markRecoveryComplete.
  destruct (stateOf sid st) as [[l s]|]; [| exact HI].
  destruct (SessionMode_eqb _ _); [| exact HI].
  apply Inv_updState; [intros []; simpl; lia | exact HI].
Qed.

Lemma stateOf_heap sid st l s : stateOf sid st = Some (l, s) -> heap st !! l = Some s.
Proof.
  unfold stateOf. destruct (sessions st !! sid) as [l'|]; [| discriminate].
  destruct (heap st !! l') as [s'|] eqn:E; [| discriminate].
  intros H; inversion H; subst. exact E.
Qed.

Lemma heap_updState_eq l f st s :
  heap st !! l = Some s -> heap (updState l f st) !! l = Some (f s).
Proof. intros H. simpl. rewrite list_lookup_alter_eq, H. reflexivity. Qed.

Lemma Inv_executeInjection w sid v st : Inv st -> Inv (executeInjection w sid v st).
Proof.
  intros HI. unfold executeInjection.
  destruct (stateOf sid st) as [[l s]|] eqn:E; [| exact HI].
  apply stateOf_heap in E.
  destruct (Nat.eqb_spec (version s) v) as [Hv |]; simpl; [| exact HI].
  destruct (negb (SessionMode_eqb _ _)); [exact HI |].
  destruct (throttled _ _).
  - apply Inv_updState; [intros []; simpl; lia | exact HI].
  - apply Inv_addTask.
    + simpl. exists (setMode injecting s). split; [| simpl; lia].
      rewrite list_lookup_alter_eq, E. reflexivity.
    + apply Inv_updState; [intros []; simpl; lia | exact HI].
Qed.

Lemma Inv_resumeInjection w sid l v r st : Inv st -> Inv (resumeInjection w sid l v r st).
Proof.
  intros HI. unfold resumeInjection.
  assert (Hidle : Inv (updState l (setMode idle) st))
    by (apply Inv_updState; [intros []; simpl; lia | exact HI]).
  destruct r as [todos|]; [| exact Hidle].
  destruct (heap st !! l) as [s|]; [| exact HI].
  repeat match goal with
         | |- Inv (if ?b then _ else _) => destruct b; [exact Hidle |]
         end.
  apply Inv_addTask; [exact I |]. apply Inv_emit.
  apply Inv_updState; [intros []; simpl; lia | exact HI].
Qed.

Lemma Inv_startCountdown sid n st : Inv st -> Inv (startCountdown sid n st).
Proof.
  intros HI. unfold startCountdown. cbv zeta.
  destruct (Inv_getOrCreateState sid st HI) as [HI1 Hsid].
  set (p := getOrCreateState sid st) in *.
  set (st0 := invalidate sid (snd p)).
  assert (HI0 : Inv st0) by (apply Inv_invalidate; exact HI1).
  assert (Hl : is_Some (heap st0 !! fst p)).
  { destruct HI0 as [Hw _]. apply (Hw sid). unfold st0.
    rewrite sessions_invalidate. exact Hsid. }
  destruct Hl as [s0 Hs0].
  set (st1 := updState (fst p) (fun s => setMode countingDown (bump s)) st0).
  assert (HI1' : Inv st1).
  { apply (Inv_updState (fst p) (fun s => setMode countingDown (bump s)) st0);
      [intros []; simpl; lia | exact HI0]. }
  assert (Hs1 : heap st1 !! fst p = Some (setMode countingDown (bump s0)))
    by exact (heap_updState_eq (fst p) (fun s => setMode countingDown (bump s)) st0 s0 Hs0).
  fold st0. fold st1. rewrite Hs1.
  apply Inv_updState; [intros []; simpl; lia |].
  apply Inv_addTask.
  - simpl. eexists. split; [exact Hs1 | simpl; lia].
  - apply Inv_addTask.
    + simpl. eexists. split; [exact Hs1 | simpl; lia].
    + apply Inv_emit. exact HI1'.
Qed.

Lemma Inv_resumeIdle w sid r st : Inv st -> Inv (resumeIdle w sid r st).
Proof.
  intros HI. unfold resumeIdle. cbv zeta.
  destruct r as [todos|]; [| exact HI].
  repeat match goal with
         | |- Inv (if ?b then _ else _) => destruct b; [exact HI |]
         end.
  apply Inv_startCountdown. exact HI.
Qed.

Lemma Inv_handler w e st : Inv st -> Inv (handler w e st).
Proof.
  intros HI.
  destruct e as [sessionID | sessionID | sessionID role finish | sessionID role
                | sessionID | sessionID | deleted |];
    simpl; cbv zeta; try exact HI;
    try (destruct (truthy sessionID) as [sid|]; [| exact HI]).
  - apply Inv_updState; [intros []; simpl; lia |].
    apply Inv_invalidate. apply Inv_getOrCreateState. exact HI.
  - destruct (negb _); [exact HI |].
    destruct (Inv_getOrCreateState sid st HI) as [HI1 _].
    destruct (heap _ !! _) as [s|]; [| exact HI1].
    destruct (mode s); try exact HI1.
    apply Inv_addTask; [exact I | exact HI1].
  - destruct (isRole "user" role).
    + apply Inv_invalidate. destruct (stateOf sid st) as [[l s]|]; [| exact HI].
      destruct (SessionMode_eqb _ _); [| exact HI].
      apply Inv_updState; [intros []; simpl; lia | exact HI].
    + destruct (isRole "assistant" role); [| exact HI].
      destruct (truthy finish); [exact HI |]. apply Inv_invalidate. exact HI.
  - destruct (isRole "assistant" role); [| exact HI]. apply Inv_invalidate. exact HI.
  - apply Inv_invalidate. exact HI.
  - apply Inv_invalidate. exact HI.
  - destruct (truthy deleted) as [sid|]; [| exact HI].
    set (st1 := match sessions st !! sid with Some l => clearTimer l st | None => st end).
    assert (HI1 : Inv st1).
    { unfold st1. destruct (sessions st !! sid); [apply Inv_clearTimer |]; exact HI. }
    revert HI1. apply Inv_frame.
    + apply mono_same_heap. reflexivity.
    + intros sid' l H. simpl in H. apply lookup_delete_Some in H as [_ H]. exact H.
    + reflexivity.
Qed.

Lemma Inv_step w lbl st : Inv st -> Inv (step w lbl st).
Proof.
  intros HI. destruct lbl; simpl.
  - apply Inv_handler. exact HI.
  - apply Inv_markRecovering. exact HI.
  - apply Inv_markRecoveryComplete. exact HI.
  - destruct (taskAt h st) as [[l v secs n | sid l v i | | |]|] eqn:E; try exact HI.
    + unfold tick. destruct (heap st !! l) as [s|] eqn:El; [| exact HI].
      destruct (negb _); [apply Inv_removeTask; exact HI |].
      assert (Hset : Inv (setTask h (ToastInterval l v (secs - 1) n) st)).
      { apply Inv_setTask; [| exact HI]. destruct HI as [_ Hk]. apply (Hk h) in E. exact E. }
      destruct (0 <? secs - 1)%Z; [apply Inv_emit |]; exact Hset.
    + apply Inv_executeInjection. apply Inv_clearTimer.
      apply Inv_removeTask. apply Inv_removeTask. exact HI.
  - destruct (taskAt h st) as [[]|]; try exact HI.
    + apply Inv_resumeIdle. apply Inv_removeTask. exact HI.
    + apply Inv_resumeInjection. apply Inv_removeTask. exact HI.
  - destruct (taskAt h st) as [[]|]; try exact HI.
    apply Inv_updState; [intros []; simpl; lia |]. apply Inv_removeTask. exact HI.
Qed.

Lemma Inv_run trace st : Inv st -> Inv (run trace st).
Proof.
  revert st. induction trace as [| [w lbl] rest IH]; intros st HI; simpl; [exact HI |].
  apply IH. apply Inv_step. exact HI.
Qed.

(** C2 (as the code has it). A call of [invalidate] for a session
    without a state object, or in recovering mode, changes nothing.  For
    a session not in recovering mode it raises the stored version by one,
    and from then on, whatever happens, the version of that state object
    stays above every version read from it before the call.  The
    versions held by pending timers and parked continuations are such
    versions: in every state reachable from the start, each pending task
    holds a version that its state object has reached. *)
Theorem invalidate_bumps_version_unless_recovering :
  forall sid st,
    (stateOf sid st = None -> invalidate sid st = st)
    /\ (forall l s,
           stateOf sid st = Some (l, s) ->
           (mode s = recovering -> invalidate sid st = st)
           /\ (mode s <> recovering ->
               (exists s', stateOf sid (invalidate sid st) = Some (l, s')
                           /\ version s' = S (version s))
               /\ (forall c trace,
                      c <= version s ->
                      exists s'', heap (run trace (invalidate sid st)) !! l = Some s''
                                  /\ c < version s'')))
    /\ (forall before h t,
           st = run before init -> taskAt h st = Some t -> taskOk st t).
Proof.
  intros sid st. split; [| split].
  - intros H. unfold invalidate. rewrite H. reflexivity.
  - intros l s Hst. split.
    + intros Hm. unfold invalidate. rewrite Hst, Hm. reflexivity.
    + intros Hm.
      assert (Hrec : SessionMode_eqb (mode s) recovering = false)
        by (destruct (mode s); try reflexivity; congruence).
      pose proof (stateOf_heap _ _ _ _ Hst) as Hheap.
      assert (Hsess : sessions st !! sid = Some l).
      { unfold stateOf in Hst. destruct (sessions st !! sid) as [l'|]; [| discriminate].
        destruct (heap st !! l'); [| discriminate]. inversion Hst; subst. reflexivity. }
      assert (Hbump : heap (updState l bump st) !! l = Some (bump s))
        by (apply heap_updState_eq; exact Hheap).
      assert (Hclear : exists s1, heap (clearTimer l (updState l bump st)) !! l = Some s1
                                  /\ version s1 = S (version s)).
      { unfold clearTimer. rewrite Hbump. simpl.
        destruct (timer s).
        - eexists. split.
          + apply heap_updState_eq. simpl. rewrite list_lookup_alter_eq, Hheap. reflexivity.
          + reflexivity.
        - eexists. split; [exact Hbump | reflexivity]. }
      destruct Hclear as (s1 & Hs1 & Hv1).
      assert (Hafter : exists s', heap (invalidate sid st) !! l = Some s'
                                  /\ version s' = S (version s)).
      { unfold invalidate. rewrite Hst, Hrec.
        destruct (negb _ && negb _).
        - exists (setMode idle s1). split; [apply heap_updState_eq; exact Hs1 | exact Hv1].
        - exists s1. split; [exact Hs1 | exact Hv1]. }
      destruct Hafter as (s' & Hs' & Hv'). split.
      * exists s'. split; [| exact Hv'].
        unfold stateOf. rewrite sessions_invalidate, Hsess, Hs'. reflexivity.
      * intros c trace Hc.
        destruct (mono_run trace (invalidate sid st) l s' Hs') as (s'' & Hs'' & Hle).
        exists s''. split; [exact Hs'' | lia].
  - intros before h t -> Ht.
    destruct (Inv_run before init Inv_init) as [_ Hk]. apply (Hk h). exact Ht.
Qed.

End TodoContinuationProofs.

(* ===================================================================== *)
(** ** Runs of the coordinator *)
(* ===================================================================== *)

Module TodoScenarios.
Import JsString TodoContinuation TodoContinuationProofs.

Local Arguments truthy : simpl never.
Local Arguments isMainSession : simpl never.
Local Arguments agentHasWritePermission : simpl never.
Local Arguments isPlanModeAgent : simpl never.
Local Arguments getIncompleteCount : simpl never.
Local Arguments promptText : simpl never.

Lemma truthy_Some (s : string) : s <> "" -> truthy (Some s) = Some s.
Proof. intros H. unfold truthy. destruct (String.eqb_spec s ""); [contradiction | reflexivity]. Qed.

Lemma incomplete_of_counts (todos : list Todo) :
  length todos = 3 -> countStatus "pending" todos = 2 -> countStatus "completed" todos = 1 ->
  getIncompleteCount todos = 2.
Proof.
  intros Hlen Hp Hc.
  destruct todos as [| a [| b [| c [| d rest]]]]; try discriminate.
  unfold countStatus, getIncompleteCount in *. cbn [List.filter] in *.
  repeat match goal with
         | H : context [String.eqb (status ?x) ?k] |- _ =>
             destruct (String.eqb_spec (status x) k)
         | |- context [String.eqb (status ?x) ?k] =>
             destruct (String.eqb_spec (status x) k)
         end; simpl in *; try congruence; try lia.
Qed.

(** Closed integer subtractions, which [cbn] leaves alone. *)
Ltac closed_sub :=
  repeat match goal with
         | |- context [Z.sub ?a ?b] =>
             let v := eval vm_compute in (Z.sub a b) in
             lazymatch v with
             | Z0 => idtac | Zpos _ => idtac | Zneg _ => idtac
             end;
             progress change (Z.sub a b) with v
         end.

Ltac run_steps :=
  repeat (progress (cbn;
          unfold getOrCreateState, stateOf, invalidate, clearTimer, startCountdown,
                 resumeIdle, executeInjection, resumeInjection, taskAt, tick, throttled,
                 updState, addTask, removeTask, setTask, emit;
          cbn; closed_sub;
          rewrite ?lookup_empty, ?lookup_insert_eq)).

(** Take the first label of the trace and bring the state after it into
    normal form before going on; [tac] supplies the facts about the
    surroundings. *)
Ltac first_step tac :=
  lazymatch goal with
  | |- context [run ((?w, ?l) :: ?rest) ?st] =>
      let E := fresh "E" in
      eassert (E : step w l st = _) by (cbn [step handler]; tac; run_steps; reflexivity);
      change (run ((w, l) :: rest) st) with (run rest (step w l st));
      rewrite E; clear E
  end.

Section Scenario.
Variables (sid : string) (todos : list Todo) (w : World).
Hypothesis Hsid : sid <> "".
Hypothesis Hmain : isMainSession w sid = true.
Hypothesis Hlen : length todos = 3.
Hypothesis Hinc : getIncompleteCount todos = 2.
Hypothesis Hbg : hasRunningBgTasks w sid = false.

Lemma counting_eq :
  run (on w (idleThenTodos sid todos)) init
  = {| heap := [ {| version := 2; mode := countingDown; timer := Some 2;
                    lastAttemptedAt := None |} ];
       sessions := <[ sid := 0 ]> ∅;
       tasks := [ None; Some (ToastInterval 0 2 2 2); Some (CountdownTimer sid 0 2 1) ];
       effects := [ ShowToast 2 2 ] |}.
Proof.
  unfold on, idleThenTodos. cbn [map].
  first_step ltac:(rewrite (truthy_Some _ Hsid), Hmain).
  first_step ltac:(run_steps; rewrite Hlen, Hinc, Hbg).
  reflexivity.
Qed.

Hypothesis Hwrite : agentHasWritePermission (prevMessage w sid) = true.
Hypothesis Hplan : isPlanModeAgent (prevMessage w sid) = false.

Lemma elapsed_prompts (ticks : nat) :
  ticks <= 2 ->
  prompts (run (on w (countdownElapses ticks todos)) (run (on w (idleThenTodos sid todos)) init))
  = [ Prompt sid (prevAgent (prevMessage w sid)) (promptText todos 2) ].
Proof.
  intros Hticks. rewrite counting_eq.
  destruct ticks as [| [| [| k]]]; [| | | lia];
    unfold on, countdownElapses; cbn [repeat app map];
    repeat first_step ltac:(run_steps; rewrite ?Hinc, ?Hbg, ?Hwrite, ?Hplan);
    reflexivity.
Qed.

Lemma promptText_remaining : JsString.includes (promptText todos 2) "2 remaining" = true.
Proof. unfold promptText. rewrite Hlen. vm_compute. reflexivity. Qed.

End Scenario.

Lemma cancelled_after_tool_event (sid : string) (todos : list Todo) (w w' : World) :
  sid <> "" -> isMainSession w sid = true -> length todos = 3 ->
  getIncompleteCount todos = 2 -> hasRunningBgTasks w sid = false ->
  cancelled (step w' (Deliver (ToolExecuteBefore (Some sid)))
                  (run (on w (idleThenTodos sid todos)) init)).
Proof.
  intros Hsid Hmain Hlen Hinc Hbg.
  rewrite (counting_eq sid todos w Hsid Hmain Hlen Hinc Hbg).
  cbn [step handler]. rewrite (truthy_Some _ Hsid).
  run_steps. unfold cancelled. cbn. auto.
Qed.

Lemma cancelled_step (w : World) (lbl : Label) (st : System) :
  cancelled st -> isInternal lbl = true -> cancelled (step w lbl st).
Proof.
  destruct st as [hp ss tk ef]. unfold cancelled. cbn [heap effects tasks].
  intros (-> & -> & Htk) Hint.
  destruct lbl as [e | s | s | h | h r | h ok]; try discriminate;
    destruct Htk as [-> | ->];
    destruct h as [| [| [| h]]]; cbn; auto.
Qed.

Lemma cancelled_run (trace : list (World * Label)) (st : System) :
  cancelled st ->
  forallb (fun x => isInternal (snd x)) trace = true ->
  cancelled (run trace st).
Proof.
  revert st. induction trace as [| [w lbl] rest IH]; intros st Hc Hall; [exact Hc |].
  cbn [forallb snd] in Hall. apply andb_prop in Hall as [Hl Hrest].
  cbn [run]. apply IH; [apply cancelled_step; assumption | exact Hrest].
Qed.

Lemma cancelled_prompts (st : System) : cancelled st -> prompts st = [].
Proof. intros (_ & He & _). unfold prompts. rewrite He. reflexivity. Qed.

(** The undisturbed run.  Starting from a fresh coordinator, for the
    main session with three todos, two pending and one completed, and no
    background task running: the idle event and the answer of the todo
    fetch start the countdown.  If the countdown then elapses without an
    event (zero, one or two toast ticks, the timer, the second todo
    fetch, the prompt call) and the agent of the session's last stored
    message, if there is one, may write and edit and is no plan-mode
    agent, exactly one continuation prompt is sent, addressed to that
    agent, and its text contains "2 remaining".  If instead a
    [tool.execute.before] event of the session arrives as soon as the
    countdown has started, no prompt is sent, whichever timers come due
    and calls settle afterwards. *)
Theorem idle_countdown_injects_once :
  forall (sid : string) (todos : list Todo) (w : World),
    sid <> "" ->
    isMainSession w sid = true ->
    length todos = 3 ->
    countStatus "pending" todos = 2 ->
    countStatus "completed" todos = 1 ->
    hasRunningBgTasks w sid = false ->
    let counting := run (on w (idleThenTodos sid todos)) init in
    modeOf sid counting = Some countingDown
    /\ (agentHasWritePermission (prevMessage w sid) = true ->
        isPlanModeAgent (prevMessage w sid) = false ->
        forall ticks, ticks <= 2 ->
          exists text,
            prompts (run (on w (countdownElapses ticks todos)) counting)
            = [ Prompt sid (prevAgent (prevMessage w sid)) text ]
            /\ JsString.includes text "2 remaining" = true)
    /\ (forall w' trace,
           forallb (fun x => isInternal (snd x)) trace = true ->
           prompts (run trace (step w' (Deliver (ToolExecuteBefore (Some sid))) counting))
           = []).
Proof.
  intros sid todos w Hsid Hmain Hlen Hp Hc Hbg counting.
  pose proof (incomplete_of_counts todos Hlen Hp Hc) as Hinc.
  split; [| split].
  - subst counting. rewrite (counting_eq sid todos w Hsid Hmain Hlen Hinc Hbg).
    unfold modeOf, stateOf. cbn. rewrite lookup_insert_eq. reflexivity.
  - intros Hwrite Hplan ticks Hticks. exists (promptText todos 2). split.
    + apply elapsed_prompts; assumption.
    + apply promptText_remaining. exact Hlen.
  - intros w' trace Hall. apply cancelled_prompts. apply cancelled_run; [| exact Hall].
    apply cancelled_after_tool_event; assumption.
Qed.

Lemma idle_countdown_injects_once_witness :
  exists text,
    prompts (run (on quietWorld (countdownElapses 1 todos3))
                 (run (on quietWorld (idleThenTodos "ses_main" todos3)) init))
    = [ Prompt "ses_main" None text ]
    /\ JsString.includes text "2 remaining" = true.
Proof.
  assert (Hsid : "ses_main" <> "") by discriminate.
  assert (Hmain : isMainSession quietWorld "ses_main" = true) by reflexivity.
  assert (Hlen : length todos3 = 3) by reflexivity.
  assert (Hp : countStatus "pending" todos3 = 2) by reflexivity.
  assert (Hc : countStatus "completed" todos3 = 1) by reflexivity.
  assert (Hbg : hasRunningBgTasks quietWorld "ses_main" = false) by reflexivity.
  destruct (idle_countdown_injects_once "ses_main" todos3 quietWorld Hsid Hmain Hlen Hp Hc Hbg)
    as (_ & Hsend & _).
  apply (Hsend eq_refl eq_refl 1). lia.
Defined.

(** The injection looks at the agent behind the session's last message
    before it sends: when that is a plan-mode agent, or an agent with
    its write tool switched off, the same three todos, no background
    task and an undisturbed countdown end with no prompt. *)
Lemma plan_agent_gets_no_prompt :
  isMainSession planWorld "ses_main" = true
  /\ length todos3 = 3
  /\ countStatus "pending" todos3 = 2
  /\ countStatus "completed" todos3 = 1
  /\ hasRunningBgTasks planWorld "ses_main" = false
  /\ prompts (run (on planWorld (countdownElapses 1 todos3))
                  (run (on planWorld (idleThenTodos "ses_main" todos3)) init)) = []
  /\ prompts (run (on readOnlyWorld (countdownElapses 1 todos3))
                  (run (on readOnlyWorld (idleThenTodos "ses_main" todos3)) init)) = [].
Proof. repeat split; vm_compute; reflexivity. Qed.

(** C1.  The claim fails on the code when the tool event comes while
    the idle branch still waits for its todo fetch.  The main
    session [ses_main] has 3 todos, 2 pending and 1 completed, and no
    background task.  [session.idle] arrives and the handler waits for
    its todo fetch; [tool.execute.before] arrives for the session and
    bumps the version, with no timer to clear yet; the fetch answers, and
    the idle branch starts the countdown without looking at the version
    again; the countdown elapses.  One continuation prompt is sent, with
    "2 remaining" in its text, where the claim has none.  The same tool
    event one step later, after the fetch has answered, or after a toast
    tick, calls the countdown off and nothing is sent. *)
Theorem tool_event_during_idle_fetch_not_cancelled :
  let sid := "ses_main" in
  let toolEvent := Deliver (ToolExecuteBefore (Some sid)) in
  let elapses := [ Fire 1; Fire 2; TodoResult 3 (Some todos3); PromptResult 4 true ] in
  let parked := run (on quietWorld [ Deliver (SessionIdle (Some sid)); toolEvent ]) init in
  let early := run (on quietWorld (TodoResult 0 (Some todos3) :: elapses)) parked in
  (isMainSession quietWorld sid = true
   /\ length todos3 = 3
   /\ countStatus "pending" todos3 = 2
   /\ countStatus "completed" todos3 = 1
   /\ hasRunningBgTasks quietWorld sid = false)
  /\ (taskAt 0 parked = Some (IdleTodoFetch sid)
      /\ versionOf sid parked = Some 1
      /\ modeOf sid parked = Some idle
      /\ effects parked = [])
  /\ modeOf sid (run (on quietWorld [ TodoResult 0 (Some todos3) ]) parked) = Some countingDown
  /\ prompts early = [ Prompt sid None (promptText todos3 2) ]
  /\ includes (promptText todos3 2) "2 remaining" = true
  /\ prompts (run (on quietWorld
                     ([ Deliver (SessionIdle (Some sid)); TodoResult 0 (Some todos3); toolEvent ]
                      ++ elapses))
                  init) = []
  /\ prompts (run (on quietWorld
                     ([ Deliver (SessionIdle (Some sid)); TodoResult 0 (Some todos3);
                        Fire 1; toolEvent ]
                      ++ elapses))
                  init) = [].
Proof.
  cbv zeta.
  split; [repeat split; vm_compute; reflexivity |].
  split; [repeat split; vm_compute; reflexivity |].
  repeat split; vm_compute; reflexivity.
Qed.

(** C9. After [session.error] the mode is errorBypass, and the events
    themselves keep it: but a todo fetch of an injection that was under
    way when the error arrived, answering afterwards, finds its version
    stale and sets the mode to idle.  The next [session.idle] then
    starts a countdown and a continuation prompt is sent, though no user
    message has arrived. *)
Theorem errorBypass_overwritten_by_stale_injection :
  let st1 := run (on quietWorld errorDuringInjection) init in
  let st2 := run (on quietWorld staleFetchAnswers) st1 in
  let st3 := run (on quietWorld idleAgain) st2 in
  modeOf "ses_main" st1 = Some errorBypass
  /\ modeOf "ses_main" st2 = Some idle
  /\ modeOf "ses_main" (run (on quietWorld (firstn 2 idleAgain)) st2) = Some countingDown
  /\ existsb isUserMessage (errorDuringInjection ++ staleFetchAnswers ++ idleAgain) = false
  /\ prompts st1 = []
  /\ length (prompts st3) = 1.
Proof. cbv zeta. repeat split; vm_compute; reflexivity. Qed.

(** C2, as stated, fails in recovering mode: the call returns before the
    version is touched, here at version 1, also when it comes from a
    tool event. *)
Lemma invalidate_skipped_while_recovering :
  let st := markRecovering "ses_main" init in
  modeOf "ses_main" st = Some recovering
  /\ versionOf "ses_main" st = Some 1
  /\ versionOf "ses_main" (invalidate "ses_main" st) = Some 1
  /\ versionOf "ses_main"
       (step quietWorld (Deliver (ToolExecuteBefore (Some "ses_main"))) st) = Some 1.
Proof. cbv zeta. repeat split; vm_compute; reflexivity. Qed.

End TodoScenarios.

(* ===================================================================== *)
(** ** The errorBypass mode *)
(* ===================================================================== *)

Module ErrorBypassProofs.
Import JsString TodoContinuation TodoContinuationProofs.

Lemma stateOf_sessions sid st l s : stateOf sid st = Some (l, s) -> sessions st !! sid = Some l.
Proof.
  unfold stateOf. destruct (sessions st !! sid) as [l'|]; [| discriminate].
  destruct (heap st !! l'); [| discriminate]. intros H; inversion H; subst. reflexivity.
Qed.

Lemma invalidate_errorBypass sid st l s :
  stateOf sid st = Some (l, s) -> mode s = errorBypass -> bypassed sid st (invalidate sid st).
Proof.
  intros Hst Hm. pose proof (stateOf_heap _ _ _ _ Hst) as Hh.
  pose proof (stateOf_sessions _ _ _ _ Hst) as Hs.
  unfold invalidate. rewrite Hst, Hm. cbn.
  unfold clearTimer. rewrite (heap_updState_eq l bump st s Hh). cbn.
  destruct (timer s) as [h|]; unfold bypassed, stateOf; cbn; rewrite Hs.
  - rewrite !list_lookup_alter_eq, Hh. cbn.
    split; [eauto |]. split; [apply length_insert | reflexivity].
  - rewrite list_lookup_alter_eq, Hh. cbn. split; [eauto |]. split; reflexivity.
Qed.

(** X21. Events of the session other than a user message and a deletion
    leave it in errorBypass; in particular [session.idle] starts no todo
    fetch and no countdown. *)
Lemma errorBypass_kept_by_events w e st sid l s :
  stateOf sid st = Some (l, s) ->
  mode s = errorBypass ->
  eventSession e = Some sid ->
  isUserMessageEvent e = false ->
  isDeletion e = false ->
  bypassed sid st (handler w e st).
Proof.
  intros Hst Hm He Hu Hd.
  pose proof (stateOf_heap _ _ _ _ Hst) as Hh.
  pose proof (stateOf_sessions _ _ _ _ Hst) as Hs.
  assert (Hsame : bypassed sid st st) by (split; [eauto | split; reflexivity]).
  destruct e as [s0 | s0 | s0 role finish | s0 role | s0 | s0 | s0 |];
    cbn in He, Hu, Hd; try discriminate; cbn [handler]; rewrite He.
  - unfold getOrCreateState. rewrite Hs. cbn [fst snd].
    destruct (invalidate_errorBypass sid st l s Hst Hm) as ((l' & s' & Hst' & Hm') & Hlen & Heff).
    pose proof (stateOf_heap _ _ _ _ Hst') as Hh'.
    pose proof (stateOf_sessions _ _ _ _ Hst') as Hs'.
    rewrite sessions_invalidate, Hs in Hs'. inversion Hs'; subst l'.
    split; [| split; [exact Hlen | exact Heff]].
    exists l, (setMode errorBypass s'). split; [| reflexivity].
    unfold stateOf. cbn. rewrite sessions_invalidate, Hs.
    rewrite list_lookup_alter_eq, Hh'. reflexivity.
  - destruct (negb (isMainSession w sid)); [exact Hsame |].
    unfold getOrCreateState. rewrite Hs. cbn [fst snd]. rewrite Hh, Hm. exact Hsame.
  - rewrite Hu. destruct (isRole "assistant" role); [| exact Hsame].
    destruct (truthy finish); [exact Hsame |]. eapply invalidate_errorBypass; eassumption.
  - destruct (isRole "assistant" role); [| exact Hsame].
    eapply invalidate_errorBypass; eassumption.
  - eapply invalidate_errorBypass; eassumption.
  - eapply invalidate_errorBypass; eassumption.
Qed.

(** [session.error] puts the session into errorBypass, whatever its
    mode was. *)
Lemma session_error_sets_errorBypass w sid st :
  sid <> "" ->
  (forall s l, sessions st !! s = Some l -> is_Some (heap st !! l)) ->
  modeOf sid (handler w (SessionError (Some sid)) st) = Some errorBypass.
Proof.
  intros Hsid Hwf. cbn [handler].
  assert (Ht : truthy (Some sid) = Some sid).
  { unfold truthy. destruct (String.eqb_spec sid ""); [contradiction | reflexivity]. }
  rewrite Ht.
  unfold getOrCreateState in *.
  destruct (sessions st !! sid) as [l|] eqn:E; cbn [fst snd] in *.
  - destruct (Hwf sid l E) as [s Hs].
    assert (Hst : stateOf sid st = Some (l, s)) by (unfold stateOf; rewrite E, Hs; reflexivity).
    unfold modeOf, stateOf. cbn. rewrite sessions_invalidate, E.
    assert (Hex : is_Some (heap (invalidate sid st) !! l)).
    { destruct (mono_invalidate sid st l s Hs) as (s' & Hs' & _). eauto. }
    destruct Hex as [s' Hs']. rewrite list_lookup_alter_eq, Hs'. reflexivity.
  - unfold modeOf, stateOf. cbn. rewrite sessions_invalidate. cbn.
    rewrite lookup_insert_eq.
    set (st1 := {| heap := _; sessions := _; tasks := _; effects := _ |}).
    assert (Hs1 : heap st1 !! length (heap st)
                  = Some {| version := 0; mode := idle; timer := None; lastAttemptedAt := None |}).
    { unfold st1. cbn. rewrite lookup_app_r by lia. rewrite Nat.sub_diag. reflexivity. }
    destruct (mono_invalidate sid st1 _ _ Hs1) as (s' & Hs' & _).
    rewrite list_lookup_alter_eq, Hs'. reflexivity.
Qed.

End ErrorBypassProofs.

(* ===================================================================== *)
(** ** Further properties of the recovery executor *)
(* ===================================================================== *)

Module AutoCompactMoreProofs.
Import JsString AutoCompact AutoCompactChain.

Section More.
Context {ErrorData : Type}.
Variable cfg : Config.
Implicit Types (st : AutoCompactState ErrorData) (sid : string) (env : Env) (msg : ErrorMessage).

Lemma Frame_refl sid st : Frame sid st st.
Proof. split; auto; tauto. Qed.

Lemma Frame_trans sid st1 st2 st3 : Frame sid st1 st2 -> Frame sid st2 st3 -> Frame sid st1 st3.
Proof.
  intros [g1 p1 e1 r1 f1 t1] [g2 p2 e2 r2 f2 t2]; split; intros.
  - congruence.
  - rewrite p2, p1 by assumption; tauto.
  - rewrite e2, e1 by assumption; reflexivity.
  - rewrite r2, r1 by assumption; reflexivity.
  - rewrite f2, f1 by assumption; reflexivity.
  - rewrite t2, t1 by assumption; reflexivity.
Qed.

Lemma Frame_setRetry sid r st : Frame sid st (setRetry sid r st).
Proof.
  split; simpl; auto; try tauto.
  intros s Hs. rewrite lookup_insert_ne by congruence. reflexivity.
Qed.

Lemma Frame_setFallback sid f st : Frame sid st (setFallback sid f st).
Proof.
  split; simpl; auto; try tauto.
  intros s Hs. rewrite lookup_insert_ne by congruence. reflexivity.
Qed.

Lemma Frame_setTruncate sid t st : Frame sid st (setTruncate sid t st).
Proof.
  split; simpl; auto; try tauto.
  intros s Hs. rewrite lookup_insert_ne by congruence. reflexivity.
Qed.

Lemma Frame_releaseGuard sid st : Frame sid st (releaseGuard sid st).
Proof.
  split; simpl; auto; try tauto. set_solver.
Qed.

Lemma Frame_clear sid st : Frame sid st (clearSessionState sid st).
Proof.
  split; simpl; intros.
  - set_solver.
  - set_solver.
  - rewrite lookup_delete_ne by congruence; reflexivity.
  - rewrite lookup_delete_ne by congruence; reflexivity.
  - rewrite lookup_delete_ne by congruence; reflexivity.
  - rewrite lookup_delete_ne by congruence; reflexivity.
Qed.

Lemma Frame_enter sid st : Frame sid st (snd (enter sid st)).
Proof.
  unfold enter, getOrCreateTruncateState; simpl.
  destruct (truncateStateBySession st !! sid); simpl.
  - split; simpl; auto; try tauto. set_solver.
  - split; simpl; auto; try tauto.
    + set_solver.
    + intros s Hs. rewrite lookup_insert_ne by congruence. reflexivity.
Qed.

Ltac split_ifs :=
  repeat match goal with
         | |- context [if ?b then _ else _] =>
             let E := fresh "E" in destruct b eqn:E; simpl
         | |- context [match truthy ?x with _ => _ end] =>
             let E := fresh "E" in destruct (truthy x) eqn:E; simpl
         end.

Ltac frame_tac :=
  split; simpl; intros;
  repeat match goal with
         | |- context [match ?x with _ => _ end] => destruct x eqn:?; simpl
         end;
  repeat first [ rewrite lookup_insert_ne by congruence
               | rewrite lookup_delete_ne by congruence ];
  try reflexivity; try tauto; set_solver.

Ltac lookups :=
  unfold truncateAttemptOf, retryAttemptOf, revertAttemptOf, releaseGuard, clearSessionState;
  simpl;
  repeat first [ rewrite lookup_insert_eq | rewrite lookup_delete_eq ]; simpl.

Lemma giveUp_post sid st :
  Frame sid st (fst (giveUp sid st))
  /\ (sid ∉ compactionInProgress (fst (giveUp sid st)))
  /\ truncateAttemptOf sid (fst (giveUp sid st)) = 0
  /\ retryAttemptOf sid (fst (giveUp sid st)) = 0
  /\ revertAttemptOf sid (fst (giveUp sid st)) = 0.
Proof.
  simpl. split; [apply Frame_clear|]. split; [simpl; set_solver|].
  lookups. auto.
Qed.

(** The revert tier: frame, guard released, truncate and summarize
    counters back at zero, revert counter within its maximum, and a retry
    timer only after a revert that was still allowed. *)
Lemma revertTier_post env sid st :
  let r := revertTier cfg env sid st in
  Frame sid st (fst r)
  /\ (sid ∉ compactionInProgress (fst r))
  /\ truncateAttemptOf sid (fst r) = 0
  /\ retryAttemptOf sid (fst r) = 0
  /\ (revertAttemptOf sid st <= maxRevertAttempts cfg ->
      revertAttemptOf sid (fst r) <= maxRevertAttempts cfg)
  /\ (schedulesRetry (snd r) = true ->
      revertAttemptOf sid st < maxRevertAttempts cfg
      /\ revertAttemptOf sid (fst r) = S (revertAttemptOf sid st)).
Proof.
  cbv zeta.
  assert (G : forall pre st0 st',
             Frame sid st0 st' ->
             let r := withEffects pre (giveUp sid st') in
             schedulesRetry pre = false ->
             Frame sid st0 (fst r)
             /\ (sid ∉ compactionInProgress (fst r))
             /\ truncateAttemptOf sid (fst r) = 0
             /\ retryAttemptOf sid (fst r) = 0
             /\ (revertAttemptOf sid st0 <= maxRevertAttempts cfg ->
                 revertAttemptOf sid (fst r) <= maxRevertAttempts cfg)
             /\ (schedulesRetry (snd r) = true ->
                 revertAttemptOf sid st0 < maxRevertAttempts cfg
                 /\ revertAttemptOf sid (fst r) = S (revertAttemptOf sid st0))).
  { intros pre st0 st' F r Hpre.
    destruct (giveUp_post sid st') as (F' & g & t & a & f).
    subst r; unfold withEffects; simpl fst; simpl snd.
    split; [eapply Frame_trans; eassumption|].
    split; [exact g|]. split; [exact t|]. split; [exact a|].
    split.
    - intros _. change (clearSessionState sid st') with (fst (giveUp sid st')).
      rewrite f. lia.
    - unfold schedulesRetry in *. rewrite existsb_app, Hpre. simpl. discriminate. }
  unfold revertTier, getOrCreateFallbackState.
  destruct (fallbackStateBySession st !! sid) as [f|] eqn:Ef; cbv iota beta.
  - destruct (revertAttempt f <? maxRevertAttempts cfg)%nat eqn:Elt.
    2:{ apply (G [] st st (Frame_refl sid st)). reflexivity. }
    apply Nat.ltb_lt in Elt.
    destruct (getLastMessagePair cfg (messages env)) as [[u a]|].
    2:{ apply (G [MessagesCall sid] st st (Frame_refl sid st)). reflexivity. }
    destruct (truthy a) as [a'|]; cbv iota beta;
      [destruct (revertAssistantOk env);
       [|apply (G _ st st (Frame_refl sid st)); reflexivity]|];
      (destruct (revertUserOk env);
       [|apply (G _ st st (Frame_refl sid st)); reflexivity]);
      simpl fst; simpl snd;
      (split; [frame_tac|]);
      (split; [simpl; set_solver|]);
      unfold truncateAttemptOf, retryAttemptOf, revertAttemptOf, releaseGuard; simpl;
      rewrite Ef;
      destruct (retryStateBySession st !! sid) eqn:Er; simpl;
      destruct (truncateStateBySession st !! sid) eqn:Et; simpl;
      rewrite ?lookup_insert_eq, ?Er, ?Et; simpl; repeat split; auto; lia.
  - set (st1 := setFallback sid _ st).
    assert (F1 : Frame sid st st1) by apply Frame_setFallback.
    simpl revertAttempt.
    destruct (0 <? maxRevertAttempts cfg)%nat eqn:Elt.
    2:{ apply (G [] st st1 F1). reflexivity. }
    apply Nat.ltb_lt in Elt.
    destruct (getLastMessagePair cfg (messages env)) as [[u a]|].
    2:{ apply (G [MessagesCall sid] st st1 F1). reflexivity. }
    destruct (truthy a) as [a'|]; cbv iota beta;
      [destruct (revertAssistantOk env);
       [|apply (G _ st st1 F1); reflexivity]|];
      (destruct (revertUserOk env);
       [|apply (G _ st st1 F1); reflexivity]);
      simpl fst; simpl snd;
      (split; [subst st1; frame_tac|]);
      (split; [simpl; set_solver|]);
      subst st1;
      unfold truncateAttemptOf, retryAttemptOf, revertAttemptOf, releaseGuard; simpl;
      rewrite Ef;
      destruct (retryStateBySession st !! sid) eqn:Er; simpl;
      destruct (truncateStateBySession st !! sid) eqn:Et; simpl;
      rewrite ?lookup_insert_eq, ?Er, ?Et; simpl; repeat split; auto; lia.
Qed.

Lemma budget_after_revert sid st st' :
  revertAttemptOf sid st < maxRevertAttempts cfg ->
  revertAttemptOf sid st' = S (revertAttemptOf sid st) ->
  retryBudget cfg sid st' < retryBudget cfg sid st.
Proof.
  unfold retryBudget. intros Hlt ->.
  replace (maxRevertAttempts cfg - revertAttemptOf sid st)
    with (S (maxRevertAttempts cfg - S (revertAttemptOf sid st))) by lia.
  simpl. lia.
Qed.

(** The summarize tier, with the revert tier it may fall into. *)
Lemma summarizeTier_post env msg sid st :
  let r := summarizeTier cfg env msg sid st in
  Frame sid st (fst r)
  /\ (sid ∉ compactionInProgress (fst r))
  /\ truncateAttemptOf sid (fst r) <= truncateAttemptOf sid st
  /\ (retryAttemptOf sid st <= maxAttempts cfg ->
      retryAttemptOf sid (fst r) <= maxAttempts cfg)
  /\ (revertAttemptOf sid st <= maxRevertAttempts cfg ->
      revertAttemptOf sid (fst r) <= maxRevertAttempts cfg)
  /\ (schedulesRetry (snd r) = true ->
      retryBudget cfg sid (fst r) < retryBudget cfg sid st).
Proof.
  cbv zeta.
  assert (R : forall st1,
             Frame sid st st1 ->
             revertAttemptOf sid st1 = revertAttemptOf sid st ->
             let r := revertTier cfg env sid st1 in
             Frame sid st (fst r)
             /\ (sid ∉ compactionInProgress (fst r))
             /\ truncateAttemptOf sid (fst r) <= truncateAttemptOf sid st
             /\ (retryAttemptOf sid st <= maxAttempts cfg ->
                 retryAttemptOf sid (fst r) <= maxAttempts cfg)
             /\ (revertAttemptOf sid st <= maxRevertAttempts cfg ->
                 revertAttemptOf sid (fst r) <= maxRevertAttempts cfg)
             /\ (schedulesRetry (snd r) = true ->
                 retryBudget cfg sid (fst r) < retryBudget cfg sid st)).
  { intros st1 F Hrev r.
    destruct (revertTier_post env sid st1) as (F' & g & t & a & f & d).
    fold r in F', g, t, a, f, d.
    split; [eapply Frame_trans; eassumption|].
    split; [exact g|].
    split; [rewrite t; lia|].
    split; [rewrite a; lia|].
    split; [rewrite <- Hrev; exact f|].
    intros Hs. destruct (d Hs) as [d1 d2].
    apply budget_after_revert; rewrite <- Hrev; assumption. }
  unfold summarizeTier, getOrCreateRetryState.
  destruct (retryStateBySession st !! sid) as [rs|] eqn:Er; cbv iota beta.
  - destruct (attempt rs <? maxAttempts cfg)%nat eqn:Elt.
    2:{ apply R; [apply Frame_refl | reflexivity]. }
    apply Nat.ltb_lt in Elt.
    destruct (truthy (providerID msg)) as [p|].
    2:{ apply R; [apply Frame_setRetry | reflexivity]. }
    destruct (truthy (modelID msg)) as [m|].
    2:{ apply R; [apply Frame_setRetry | reflexivity]. }
    destruct (summarizeOk env); simpl fst; simpl snd.
    + split; [frame_tac|]. split; [simpl; set_solver|].
      unfold retryBudget. lookups. rewrite ?Er. simpl.
      repeat split; intros; try lia; discriminate.
    + split; [frame_tac|]. split; [simpl; set_solver|].
      unfold retryBudget. lookups. rewrite ?Er. simpl.
      repeat split; intros; lia.
  - set (st1 := setRetry sid _ st).
    assert (F1 : Frame sid st st1) by apply Frame_setRetry.
    simpl attempt.
    destruct (0 <? maxAttempts cfg)%nat eqn:Elt.
    2:{ apply R; [exact F1 | reflexivity]. }
    apply Nat.ltb_lt in Elt.
    destruct (truthy (providerID msg)) as [p|].
    2:{ apply R; [eapply Frame_trans; [exact F1 | apply Frame_setRetry] | reflexivity]. }
    destruct (truthy (modelID msg)) as [m|].
    2:{ apply R; [eapply Frame_trans; [exact F1 | apply Frame_setRetry] | reflexivity]. }
    destruct (summarizeOk env); simpl fst; simpl snd; subst st1.
    + split; [frame_tac|]. split; [simpl; set_solver|].
      unfold retryBudget. lookups. rewrite ?Er. simpl.
      repeat split; intros; try lia; discriminate.
    + split; [frame_tac|]. split; [simpl; set_solver|].
      unfold retryBudget. lookups. rewrite ?Er. simpl.
      repeat split; intros; lia.
Qed.

(** One invocation that the guard lets in. *)
Lemma executeCompact_post env msg sid st :
  sid ∉ compactionInProgress st ->
  let r := executeCompact cfg env msg sid st in
  Frame sid st (fst r)
  /\ (sid ∉ compactionInProgress (fst r))
  /\ (truncateAttemptOf sid st <= maxTruncateAttempts cfg ->
      truncateAttemptOf sid (fst r) <= maxTruncateAttempts cfg)
  /\ (retryAttemptOf sid st <= maxAttempts cfg ->
      retryAttemptOf sid (fst r) <= maxAttempts cfg)
  /\ (revertAttemptOf sid st <= maxRevertAttempts cfg ->
      revertAttemptOf sid (fst r) <= maxRevertAttempts cfg)
  /\ (schedulesRetry (snd r) = true ->
      retryBudget cfg sid (fst r) < retryBudget cfg sid st).
Proof.
  intros Hguard. cbv zeta.
  assert (Et : truncateAttemptOf sid (snd (enter sid st)) = truncateAttemptOf sid st).
  { unfold enter, getOrCreateTruncateState, truncateAttemptOf; simpl.
    destruct (truncateStateBySession st !! sid) eqn:E; simpl;
      rewrite ?lookup_insert_eq, ?E; reflexivity. }
  assert (Er : retryAttemptOf sid (snd (enter sid st)) = retryAttemptOf sid st).
  { unfold retryAttemptOf. rewrite AutoCompactProofs.enter_retry. reflexivity. }
  assert (Ef : revertAttemptOf sid (snd (enter sid st)) = revertAttemptOf sid st).
  { unfold revertAttemptOf. rewrite AutoCompactProofs.enter_fallback. reflexivity. }
  assert (Eb : retryBudget cfg sid (snd (enter sid st)) = retryBudget cfg sid st).
  { unfold retryBudget. rewrite Er, Ef. reflexivity. }
  assert (S : forall pre,
             schedulesRetry pre = false ->
             let r := withEffects pre (summarizeTier cfg env msg sid (snd (enter sid st))) in
             Frame sid st (fst r)
             /\ (sid ∉ compactionInProgress (fst r))
             /\ (truncateAttemptOf sid st <= maxTruncateAttempts cfg ->
                 truncateAttemptOf sid (fst r) <= maxTruncateAttempts cfg)
             /\ (retryAttemptOf sid st <= maxAttempts cfg ->
                 retryAttemptOf sid (fst r) <= maxAttempts cfg)
             /\ (revertAttemptOf sid st <= maxRevertAttempts cfg ->
                 revertAttemptOf sid (fst r) <= maxRevertAttempts cfg)
             /\ (schedulesRetry (snd r) = true ->
                 retryBudget cfg sid (fst r) < retryBudget cfg sid st)).
  { intros pre Hpre r.
    destruct (summarizeTier_post env msg sid (snd (enter sid st)))
      as (F & g & t & a & f & d).
    subst r; unfold withEffects; simpl fst; simpl snd.
    rewrite Et, Er, Ef, Eb in *.
    split; [eapply Frame_trans; [apply Frame_enter | exact F]|].
    split; [exact g|].
    split; [lia|]. split; [exact a|]. split; [exact f|].
    unfold schedulesRetry in *. rewrite existsb_app, Hpre. exact d. }
  unfold executeCompact.
  rewrite bool_decide_eq_false_2 by exact Hguard.
  destruct (enter sid st) as [ts st1] eqn:Eenter.
  assert (Hts : truncateAttempt ts = truncateAttemptOf sid st).
  { rewrite <- AutoCompactProofs.enter_truncate, Eenter. reflexivity. }
  assert (F1 : Frame sid st st1).
  { replace st1 with (snd (enter sid st)) by (rewrite Eenter; reflexivity).
    apply Frame_enter. }
  simpl snd in S, Et, Er, Ef, Eb.
  destruct (truncateAttempt ts <? maxTruncateAttempts cfg)%nat eqn:Elt.
  2:{ apply (S []). reflexivity. }
  apply Nat.ltb_lt in Elt.
  destruct (largest env) as [l|].
  2:{ apply (S [FindLargest sid]). reflexivity. }
  destruct (minOutputSizeToTruncate cfg <=? outputSize l)%Z.
  2:{ apply (S [FindLargest sid]). reflexivity. }
  destruct (success (truncation env)).
  2:{ apply (S [FindLargest sid; Truncate (partPath l)]). reflexivity. }
  simpl fst; simpl snd.
  split.
  { eapply Frame_trans; [exact F1|].
    eapply Frame_trans; [apply Frame_setTruncate | apply Frame_releaseGuard]. }
  split; [simpl; set_solver|].
  unfold retryBudget in *. unfold truncateAttemptOf, retryAttemptOf, revertAttemptOf in *.
  simpl. rewrite lookup_insert_eq. simpl.
  repeat split; intros; try lia; try discriminate.
Qed.

(** An invocation that arms the retry timer has used up part of the
    session's budget. *)
Lemma executeCompact_budget env msg sid st :
  schedulesRetry (snd (executeCompact cfg env msg sid st)) = true ->
  retryBudget cfg sid (fst (executeCompact cfg env msg sid st)) < retryBudget cfg sid st.
Proof.
  destruct (decide (sid ∈ compactionInProgress st)) as [Hin|Hout].
  - unfold executeCompact. rewrite bool_decide_eq_true_2 by exact Hin. discriminate.
  - apply (executeCompact_post env msg sid st Hout).
Qed.

(** X1. The single-flight guard is the same set after every invocation as
    before it: an invocation that finds the session's flag set returns at
    once without a single effect or state change, and one that is let in
    removes the flag again on every path out, whichever tier ends it, and
    touches no other session's flag. *)
Theorem guard_restored_by_every_invocation env msg sid st :
  compactionInProgress (fst (executeCompact cfg env msg sid st)) = compactionInProgress st
  /\ (sid ∈ compactionInProgress st -> executeCompact cfg env msg sid st = (st, [])).
Proof.
  destruct (decide (sid ∈ compactionInProgress st)) as [Hin|Hout].
  - unfold executeCompact. rewrite bool_decide_eq_true_2 by exact Hin. auto.
  - split; [|intros Hin; contradiction].
    destruct (executeCompact_post env msg sid st Hout) as (F & g & _).
    destruct F as [Fg _ _ _ _ _].
    apply set_eq. intros x. destruct (decide (x = sid)) as [->|Hne].
    + tauto.
    + assert (H1 : x ∈ compactionInProgress (fst (executeCompact cfg env msg sid st)) ∖ {[ sid ]}
                   <-> x ∈ compactionInProgress st ∖ {[ sid ]}) by (rewrite Fg; tauto).
      set_solver.
Qed.

(** X2. An invocation for one session leaves every other session's retry,
    fallback and truncate records, stored error data and pending mark as
    they were. *)
Theorem other_sessions_untouched env msg sid st s :
  s <> sid ->
  let st' := fst (executeCompact cfg env msg sid st) in
  retryStateBySession st' !! s = retryStateBySession st !! s
  /\ fallbackStateBySession st' !! s = fallbackStateBySession st !! s
  /\ truncateStateBySession st' !! s = truncateStateBySession st !! s
  /\ errorDataBySession st' !! s = errorDataBySession st !! s
  /\ (s ∈ pendingCompact st' <-> s ∈ pendingCompact st).
Proof.
  intros Hs. cbv zeta.
  destruct (decide (sid ∈ compactionInProgress st)) as [Hin|Hout].
  - unfold executeCompact. rewrite bool_decide_eq_true_2 by exact Hin. simpl. tauto.
  - destruct (executeCompact_post env msg sid st Hout) as (F & _).
    destruct F as [_ Fp Fe Fr Ff Ft]. auto 10.
Qed.

(** X3. The three attempt counters never pass their configured maxima: if a
    session's truncate, summarize and revert counters are within
    [maxTruncateAttempts], [maxAttempts] and [maxRevertAttempts] before an
    invocation, they are after it. *)
Theorem attempt_counters_stay_bounded env msg sid st :
  truncateAttemptOf sid st <= maxTruncateAttempts cfg ->
  retryAttemptOf sid st <= maxAttempts cfg ->
  revertAttemptOf sid st <= maxRevertAttempts cfg ->
  let st' := fst (executeCompact cfg env msg sid st) in
  truncateAttemptOf sid st' <= maxTruncateAttempts cfg
  /\ retryAttemptOf sid st' <= maxAttempts cfg
  /\ revertAttemptOf sid st' <= maxRevertAttempts cfg.
Proof.
  intros Ht Hr Hf. cbv zeta.
  destruct (decide (sid ∈ compactionInProgress st)) as [Hin|Hout].
  - unfold executeCompact. rewrite bool_decide_eq_true_2 by exact Hin. simpl. auto.
  - destruct (executeCompact_post env msg sid st Hout) as (_ & _ & t & a & f & _). auto.
Qed.

Lemma retryChain_stops envs msg sid :
  forall fuel k st,
    retryBudget cfg sid st < fuel ->
    exists st' init last,
      retryChain cfg fuel envs k msg sid st = (st', (init ++ [last])%list, true)
      /\ length init <= retryBudget cfg sid st
      /\ Forall (fun t => schedulesRetry t = true) init
      /\ schedulesRetry last = false.
Proof.
  induction fuel as [|fuel IH]; intros k st Hlt; [lia|].
  simpl.
  destruct (schedulesRetry (snd (executeCompact cfg (envs k) msg sid st))) eqn:Es.
  - pose proof (executeCompact_budget _ _ _ _ Es) as Hdec.
    destruct (IH (S k) (fst (executeCompact cfg (envs k) msg sid st)))
      as (st' & init & last & Heq & Hlen & Hall & Hlast); [lia|].
    rewrite Heq.
    exists st', (snd (executeCompact cfg (envs k) msg sid st) :: init), last.
    split; [reflexivity|]. split; [simpl; lia|]. split; [|exact Hlast].
    constructor; assumption.
  - exists (fst (executeCompact cfg (envs k) msg sid st)), [],
           (snd (executeCompact cfg (envs k) msg sid st)).
    split; [reflexivity|]. split; [simpl; lia|]. split; [constructor | exact Es].
Qed.

(** X4. The executor cannot keep re-arming its own retry timer: whatever the
    outside world answers, the invocations that follow one call through
    the retry timers end with one that arms none, after at most
    [retryBudget + 1] invocations, where the budget counts the summarize
    attempts left in this round plus a full round for each revert left. *)
Theorem retry_chain_stops envs k msg sid st n :
  exists st' init last,
    retryChain cfg (S (retryBudget cfg sid st) + n) envs k msg sid st
    = (st', (init ++ [last])%list, true)
    /\ length (init ++ [last])%list <= S (retryBudget cfg sid st)
    /\ Forall (fun t => schedulesRetry t = true) init
    /\ schedulesRetry last = false.
Proof.
  destruct (retryChain_stops envs msg sid (S (retryBudget cfg sid st) + n) k st)
    as (st' & init & last & Heq & Hlen & Hall & Hlast); [lia|].
  exists st', init, last. rewrite length_app. simpl.
  repeat split; try assumption. lia.
Qed.

(** X5. The retry delay grows with the attempt number and never passes the
    cap, for a non-negative initial delay and a backoff factor of at
    least one. *)
Theorem cappedDelay_monotone_and_capped n m :
  (0 <= initialDelayMs cfg)%Z ->
  (1 <= backoffFactor cfg)%Z ->
  n <= m ->
  (cappedDelay cfg n <= cappedDelay cfg m <= maxDelayMs cfg)%Z.
Proof.
  intros Hi Hb Hnm. unfold cappedDelay. split; [|apply Z.le_min_r].
  apply Z.min_le_compat_r.
  apply Z.mul_le_mono_nonneg_l; [exact Hi|].
  apply Z.pow_le_mono_r; lia.
Qed.

Lemma find_app_list {A} (p : A -> bool) (l1 l2 : list A) :
  List.find p (l1 ++ l2)%list
  = match List.find p l1 with Some x => Some x | None => List.find p l2 end.
Proof.
  induction l1 as [|y l1 IH]; simpl; [reflexivity|].
  destruct (p y); [reflexivity | exact IH].
Qed.

Lemma find_all_false {A} (p : A -> bool) (l : list A) :
  List.find p l = None <-> Forall (fun y => p y = false) l.
Proof.
  induction l as [|y l IH]; simpl.
  - split; [constructor | reflexivity].
  - destruct (p y) eqn:E.
    + split; [discriminate|]. intros H. inversion H; congruence.
    + rewrite IH. split; intros H; [constructor; assumption | inversion H; assumption].
Qed.

(** Searching the reversed list finds the last element that satisfies
    the test. *)
Lemma find_rev_last {A} (p : A -> bool) (l : list A) (x : A) :
  List.find p (rev l) = Some x
  <-> exists pre post, l = (pre ++ x :: post)%list /\ p x = true
                       /\ Forall (fun y => p y = false) post.
Proof.
  split.
  - revert x. induction l as [|y l IH] using rev_ind; intros x; [discriminate|].
    rewrite rev_app_distr. simpl.
    destruct (p y) eqn:E.
    + intros [= <-]. exists l, []. repeat split; [exact E | constructor].
    + intros H. destruct (IH _ H) as (pre & post & -> & Hx & Hpost).
      exists pre, (post ++ [y])%list. rewrite <- app_assoc. simpl.
      repeat split; [exact Hx|]. apply Forall_app. split; [exact Hpost|].
      constructor; [exact E | constructor].
  - intros (pre & post & -> & Hx & Hpost).
    rewrite rev_app_distr. simpl. rewrite <- app_assoc, find_app_list.
    assert (Hnone : List.find p (rev post) = None).
    { apply find_all_false. apply Forall_rev. exact Hpost. }
    rewrite Hnone. simpl. rewrite Hx. reflexivity.
Qed.

(** X6. [getLastMessagePair] returns a pair exactly when the listing
    succeeded, holds at least [minMessagesRequired] messages, and its last
    user message has a non-empty id. The pair is that id together with the
    id of the last assistant message of the whole listing (wherever it
    stands relative to the user message), or no assistant id when the
    listing has no assistant message. *)
Theorem getLastMessagePair_is_last_user_and_assistant resp uid aid :
  getLastMessagePair cfg resp = Some (uid, aid)
  <-> exists data pre u post,
        resp = Some data
        /\ minMessagesRequired cfg <= length data
        /\ data = (pre ++ u :: post)%list
        /\ isRole "user" u = true
        /\ Forall (fun m => isRole "user" m = false) post
        /\ truthy (id u) = Some uid
        /\ ((Forall (fun m => isRole "assistant" m = false) data /\ aid = None)
            \/ exists pre' a post',
                 data = (pre' ++ a :: post')%list
                 /\ isRole "assistant" a = true
                 /\ Forall (fun m => isRole "assistant" m = false) post'
                 /\ aid = id a).
Proof.
  unfold getLastMessagePair. split.
  - destruct resp as [data|]; [|discriminate].
    destruct (length data <? minMessagesRequired cfg)%nat eqn:Elen; [discriminate|].
    apply Nat.ltb_ge in Elen.
    destruct (List.find (isRole "user") (rev data)) as [u|] eqn:Eu; [|discriminate].
    destruct (truthy (id u)) as [uid'|] eqn:Eid; [|discriminate].
    intros [= <- <-].
    apply find_rev_last in Eu. destruct Eu as (pre & post & Hdata & Hu & Hpost).
    exists data, pre, u, post. repeat split; try assumption.
    destruct (List.find (isRole "assistant") (rev data)) as [a|] eqn:Ea.
    + right. apply find_rev_last in Ea. destruct Ea as (pre' & post' & Hd & Ha & Hp).
      exists pre', a, post'. auto.
    + left. split; [|reflexivity].
      apply find_all_false in Ea. apply Forall_rev in Ea. rewrite rev_involutive in Ea.
      exact Ea.
  - intros (data & pre & u & post & -> & Hlen & Hdata & Hu & Hpost & Hid & Ha).
    apply Nat.ltb_ge in Hlen. rewrite Hlen.
    assert (Eu : List.find (isRole "user") (rev data) = Some u).
    { apply find_rev_last. exists pre, post. auto. }
    rewrite Eu, Hid.
    destruct Ha as [[Hnone ->] | (pre' & a & post' & Hd & Ha & Hp & ->)].
    + assert (Ea : List.find (isRole "assistant") (rev data) = None).
      { apply find_all_false. apply Forall_rev. exact Hnone. }
      rewrite Ea. reflexivity.
    + assert (Ea : List.find (isRole "assistant") (rev data) = Some a).
      { apply find_rev_last. exists pre', post'. auto. }
      rewrite Ea. reflexivity.
Qed.

(** X7. [getLastAssistant] returns the last assistant message of the
    listing, whatever its length, and none exactly when the listing
    failed or holds no assistant message; the assistant id that
    [getLastMessagePair] reports is the id of that message. *)
Theorem getLastAssistant_is_last_assistant resp :
  (forall a, getLastAssistant resp = Some a
             <-> exists data pre post,
                   resp = Some data /\ data = (pre ++ a :: post)%list
                   /\ isRole "assistant" a = true
                   /\ Forall (fun m => isRole "assistant" m = false) post)
  /\ (getLastAssistant resp = None
      <-> resp = None
          \/ exists data, resp = Some data
                          /\ Forall (fun m => isRole "assistant" m = false) data)
  /\ (forall uid aid, getLastMessagePair cfg resp = Some (uid, aid) ->
        aid = match getLastAssistant resp with Some a => id a | None => None end).
Proof.
  split; [|split].
  - intros a. unfold getLastAssistant. destruct resp as [data|].
    + rewrite find_rev_last. split.
      * intros (pre & post & Hd & Ha & Hp). exists data, pre, post. auto.
      * intros (data' & pre & post & [= <-] & Hd & Ha & Hp). exists pre, post. auto.
    + split; [discriminate | intros (data & pre & post & H & _); discriminate].
  - unfold getLastAssistant. destruct resp as [data|].
    + rewrite find_all_false. split.
      * intros H. right. exists data. split; [reflexivity|].
        apply Forall_rev in H. rewrite rev_involutive in H. exact H.
      * intros [H | (data' & [= <-] & H)]; [discriminate|]. apply Forall_rev. exact H.
    + split; auto.
  - intros uid aid. unfold getLastMessagePair, getLastAssistant.
    destruct resp as [data|]; [|discriminate].
    destruct (length data <? minMessagesRequired cfg)%nat; [discriminate|].
    destruct (List.find (isRole "user") (rev data)) as [u|]; [|discriminate].
    destruct (truthy (id u)); [|discriminate].
    intros [= _ <-]. reflexivity.
Qed.

End More.

Lemma other_sessions_untouched_witness :
  retryStateBySession (fst (executeCompact cfg0 envRevert msgKnown "ses_2" exhaustedState))
    !! "ses_1"
  = Some {| attempt := 2; lastAttemptTime := 1000 |}.
Proof.
  assert (Hs : "ses_1" <> "ses_2") by discriminate.
  destruct (other_sessions_untouched cfg0 envRevert msgKnown "ses_2" exhaustedState "ses_1" Hs)
    as [Hr _].
  rewrite Hr. reflexivity.
Defined.

Lemma attempt_counters_stay_bounded_witness :
  retryAttemptOf "ses_1" (fst (executeCompact cfg0 envStubborn msgKnown "ses_1" freshState)) <= 2.
Proof.
  assert (Ht : truncateAttemptOf "ses_1" freshState <= maxTruncateAttempts cfg0)
    by (vm_compute; lia).
  assert (Hr : retryAttemptOf "ses_1" freshState <= maxAttempts cfg0) by (vm_compute; lia).
  assert (Hf : revertAttemptOf "ses_1" freshState <= maxRevertAttempts cfg0)
    by (vm_compute; lia).
  destruct (attempt_counters_stay_bounded cfg0 envStubborn msgKnown "ses_1" freshState Ht Hr Hf)
    as (_ & Ha & _).
  exact Ha.
Defined.

Lemma cappedDelay_monotone_and_capped_witness :
  (cappedDelay cfg0 1 <= cappedDelay cfg0 5 <= 30000)%Z.
Proof.
  apply (cappedDelay_monotone_and_capped cfg0 1 5); simpl; lia.
Defined.

(** The bound of [retry_chain_stops] is reached: with two summarize
    attempts and three reverts configured, a world in which every
    summarize fails and every revert succeeds is invoked twelve times. *)
Lemma retry_chain_bound_reached :
  let '(_, traces, stopped) :=
    retryChain cfg0 20 (fun _ => envStubborn) 0 msgKnown "ses_1" freshState in
  length traces = S (retryBudget cfg0 "ses_1" freshState) /\ stopped = true.
Proof. vm_compute. split; reflexivity. Qed.

End AutoCompactMoreProofs.

(* ===================================================================== *)
(** ** Further properties of the preemptive compaction hook *)
(* ===================================================================== *)

Module PreemptiveCompactionMoreProofs.
Import JsString PreemptiveCompaction PreemptiveCompactionEvents.

Lemma firstMatch_in (modelID : string) (entries : list (string * Z)) (limit : Z) :
  firstMatch modelID entries = Some limit -> In limit (map snd entries).
Proof.
  induction entries as [|[k l] rest IH]; simpl; [discriminate|].
  destruct (includes modelID k).
  - intros [= ->]. left. reflexivity.
  - intros H. right. apply IH. exact H.
Qed.

(** X8. Whatever the model identifier, the context limit is one of the five
    values of the table, so it lies between 8,192 and 2,000,000: the usage
    ratio never divides by zero. *)
Theorem getContextLimit_range (modelID : string) :
  In (getContextLimit modelID) [8192; 128000; 200000; 1000000; 2000000]%Z
  /\ (8192 <= getContextLimit modelID <= 2000000)%Z.
Proof.
  assert (H : In (getContextLimit modelID) [8192; 128000; 200000; 1000000; 2000000]%Z).
  { unfold getContextLimit.
    destruct (firstMatch modelID MODEL_CONTEXT_LIMITS) as [l|] eqn:E.
    - apply firstMatch_in in E. simpl in E. simpl.
      repeat (destruct E as [E|E]; [subst l; tauto|]). destruct E.
    - simpl. tauto. }
  split; [exact H|].
  simpl in H. repeat (destruct H as [H|H]; [rewrite <- H; lia|]). destruct H.
Qed.

Section TriggerMore.
Variable MIN_TOKENS_FOR_COMPACTION : Z.
Variable COMPACTION_COOLDOWN_MS : Z.
Variable threshold : Q.

Local Abbreviation check := (checkAndTriggerCompaction MIN_TOKENS_FOR_COMPACTION COMPACTION_COOLDOWN_MS threshold).
Local Abbreviation passes := (passesTriggerChecks MIN_TOKENS_FOR_COMPACTION COMPACTION_COOLDOWN_MS threshold).

(** When a check fails the hook does nothing at all. *)
Lemma check_fails o sid msg st :
  passes o sid msg st = false -> check o sid msg st = (st, []).
Proof.
  unfold passesTriggerChecks, checkAndTriggerCompaction.
  destruct (bool_decide (sid ∈ compactionInProgress st)); [reflexivity|]. simpl.
  destruct (_ <? COMPACTION_COOLDOWN_MS)%Z; [reflexivity|]. simpl.
  destruct (summary msg) as [[|]|]; try reflexivity;
    (destruct (tokens msg) as [tk|]; [|reflexivity]);
    (destruct (totalUsed tk <? MIN_TOKENS_FOR_COMPACTION)%Z; [reflexivity|]); simpl;
    (destruct (Qle_bool threshold _); [discriminate | reflexivity]).
Qed.

(** What a check that passes does, by whether provider and model are
    known. *)
Lemma check_passes o sid msg st :
  passes o sid msg st = true ->
  exists tk,
    tokens msg = Some tk
    /\ check o sid msg st
       = let st1 := setLastCompaction sid (now_set o) (addInProgress sid st) in
         match truthy (providerID msg), truthy (Some (default "" (modelID msg))) with
         | Some provider, Some model' =>
             let '(st2, calls) :=
               summarizeBlock o sid provider model'
                              (usageRatio tk (default "" (modelID msg))) st1 in
             (st2, (ShowToast "Preemptive Compaction" "warning" 3000%Z, st1) :: calls)
         | _, _ => (deleteInProgress sid st1, [])
         end.
Proof.
  intros Hp. unfold passesTriggerChecks in Hp.
  apply andb_prop in Hp as [Hp Htok]. apply andb_prop in Hp as [Hp Hsum].
  apply andb_prop in Hp as [Hguard Hcool].
  apply negb_true_iff in Hguard, Hcool.
  destruct (tokens msg) as [tk|] eqn:Etk; [| discriminate].
  apply andb_prop in Htok as [Hfloor Hratio]. apply negb_true_iff in Hfloor.
  exists tk. split; [reflexivity|].
  unfold checkAndTriggerCompaction.
  rewrite Hguard, Hcool, Etk, Hfloor, Hratio. simpl.
  destruct (summary msg) as [[|]|]; [discriminate | reflexivity | reflexivity].
Qed.

(** A call of a check implies that the check passed; a
    [session.summarize] carries the checked session and the message's own
    provider and model. *)
Lemma check_calls_pass o sid msg st c stc :
  In (c, stc) (snd (check o sid msg st)) ->
  passes o sid msg st = true
  /\ (forall s p m, c = Summarize s p m ->
        s = sid /\ truthy (providerID msg) = Some p /\ modelID msg = Some m /\ m <> ""
        /\ before_ok o <> Some false).
Proof.
  intros Hin.
  destruct (passes o sid msg st) eqn:Hp.
  2:{ rewrite (check_fails _ _ _ _ Hp) in Hin. destruct Hin. }
  split; [reflexivity|].
  destruct (check_passes _ _ _ _ Hp) as (tk & Etk & Heq).
  rewrite Heq in Hin. cbv zeta in Hin.
  destruct (truthy (providerID msg)) as [p'|]; [|destruct Hin].
  destruct (truthy (Some (default "" (modelID msg)))) as [m'|] eqn:Em; [|destruct Hin].
  intros s p m ->.
  simpl in Hin. destruct Hin as [Hin|Hin]; [discriminate|].
  unfold truthy in Em.
  destruct (modelID msg) as [mid|]; simpl in Em.
  2:{ discriminate. }
  destruct (String.eqb mid "") eqn:Emid; [discriminate|].
  injection Em as <-.
  apply String.eqb_neq in Emid.
  unfold summarizeBlock in Hin.
  destruct (before_ok o) as [[|]|]; destruct (summarize_ok o); simpl in Hin;
    intuition (try discriminate);
    match goal with
    | H : (Summarize _ _ _, _) = (Summarize _ _ _, _) |- _ => injection H as <- <- <- _
    end; auto.
Qed.

(** X10. A message that passes every check but names no provider (or no
    model) still stamps the cooldown: the hook calls nothing, not even a
    toast, releases the flag, and the session is shut out for a full
    cooldown window. *)
Theorem cooldown_stamped_without_provider o sid msg st :
  passes o sid msg st = true ->
  truthy (providerID msg) = None \/ truthy (modelID msg) = None ->
  let r := check o sid msg st in
  snd r = []
  /\ lastCompactionTime (fst r) !! sid = Some (now_set o)
  /\ (sid ∉ compactionInProgress (fst r))
  /\ (forall o' msg', (now_check o' - now_set o < COMPACTION_COOLDOWN_MS)%Z ->
        check o' sid msg' (fst r) = (fst r, [])).
Proof.
  intros Hp Hnone r.
  destruct (check_passes _ _ _ _ Hp) as (tk & Etk & Heq).
  assert (Hr : r = (deleteInProgress sid
                      (setLastCompaction sid (now_set o) (addInProgress sid st)), [])).
  { subst r. rewrite Heq. cbv zeta.
    destruct Hnone as [-> | Hm]; [reflexivity|].
    destruct (truthy (providerID msg)); [|reflexivity].
    assert (Hm' : truthy (Some (default "" (modelID msg))) = None).
    { unfold truthy in *. destruct (modelID msg) as [mid|]; simpl in *; [exact Hm|reflexivity]. }
    rewrite Hm'. reflexivity. }
  rewrite Hr. simpl.
  assert (Hl : <[sid:=now_set o]> (lastCompactionTime st) !! sid = Some (now_set o))
    by apply lookup_insert_eq.
  repeat split; [exact Hl | set_solver |].
  intros o' msg' Hlt.
  eapply PreemptiveCompactionProofs.check_in_cooldown; [exact Hl | exact Hlt].
Qed.

Local Abbreviation handle := (eventHandler MIN_TOKENS_FOR_COMPACTION COMPACTION_COOLDOWN_MS threshold true).
Local Abbreviation runAll := (runEvents MIN_TOKENS_FOR_COMPACTION COMPACTION_COOLDOWN_MS threshold true).

Lemma last_filter_split {A} (p : A -> bool) (l : list A) (x : A) :
  last (List.filter p l) = Some x ->
  exists pre post, l = (pre ++ x :: post)%list /\ p x = true
                   /\ Forall (fun y => p y = false) post.
Proof.
  revert x. induction l as [|y l IH] using rev_ind; intros x; [discriminate|].
  rewrite List.filter_app. simpl. destruct (p y) eqn:E.
  - rewrite last_snoc. intros [= <-]. exists l, []. repeat split; [exact E | constructor].
  - rewrite app_nil_r. intros H. destruct (IH _ H) as (pre & post & -> & Hx & Hpost).
    exists pre, (post ++ [y])%list. rewrite <- app_assoc. simpl.
    repeat split; [exact Hx|]. apply Forall_app. split; [exact Hpost|].
    constructor; [exact E | constructor].
Qed.

Lemma last_map {A B} (f : A -> B) (l : list A) :
  last (map f l) = option_map f (last l).
Proof.
  induction l as [|x [|y l] IH]; try reflexivity. exact IH.
Qed.

(** X9. The hook calls out only after every trigger check passed: a toast,
    callback or [session.summarize] is never issued for a session whose
    compaction is in progress, inside the cooldown window, for a summary
    message, without token counts, below the token floor or below the
    threshold. Every call comes from the session the event names and from
    one of two messages: the finished assistant message of a
    [message.updated] event, or the last assistant message of the listing
    fetched on [session.idle] (finished or not). Deletions, other events,
    user messages and unfinished assistant messages never lead to a call.
    A [session.summarize] carries that session and the message's own
    non-empty provider and model. *)
Theorem handler_calls_come_from_checked_message o e st c stc :
  In (c, stc) (snd (handle o e st)) ->
  exists sid msg,
    eventSession e = Some sid
    /\ passes o sid msg st = true
    /\ ((exists m, e = MessageUpdated (Some m) /\ role m = "assistant"
                   /\ finish m = Some true /\ info m = msg)
        \/ (exists session messages pre m post,
              e = SessionIdle session (Some messages)
              /\ messages = (pre ++ m :: post)%list
              /\ role m = "assistant"
              /\ Forall (fun m' => isAssistant m' = false) post
              /\ info m = msg))
    /\ (forall s p m, c = Summarize s p m ->
          s = sid /\ truthy (providerID msg) = Some p /\ modelID msg = Some m /\ m <> ""
          /\ before_ok o <> Some false).
Proof.
  unfold eventHandler. simpl negb. cbv iota.
  destruct e as [id | [m|] | session [messages|] | ty]; simpl.
  - destruct (truthy id); intros [].
  - destruct (isAssistant m) eqn:Ea; simpl; [|intros []].
    destruct (finish m) as [[|]|] eqn:Ef; simpl; try (intros []).
    destruct (truthy (sessionID m)) as [sid|] eqn:Es; [|intros []].
    intros Hin. exists sid, (info m). split; [reflexivity|].
    destruct (check_calls_pass _ _ _ _ _ _ Hin) as [Hp Hs].
    split; [exact Hp|]. split; [|exact Hs].
    left. exists m. apply String.eqb_eq in Ea. auto.
  - intros [].
  - destruct (truthy session) as [sid|] eqn:Es; [|intros []].
    destruct (last (map info (List.filter isAssistant messages))) as [msg|] eqn:El; [|intros []].
    intros Hin. exists sid, msg. split; [reflexivity|].
    destruct (check_calls_pass _ _ _ _ _ _ Hin) as [Hp Hs].
    split; [exact Hp|]. split; [|exact Hs].
    right.
    rewrite last_map in El.
    destruct (last (List.filter isAssistant messages)) as [m|] eqn:Em; [|discriminate].
    injection El as <-.
    apply last_filter_split in Em. destruct Em as (pre & post & -> & Hm & Hpost).
    exists session, (pre ++ m :: post)%list, pre, m, post.
    apply String.eqb_eq in Hm. auto 10.
  - destruct (truthy session); intros [].
  - intros [].
Qed.




(** X12. [session.deleted] forgets the session: its stamp and flag are gone,
    nothing is called, the other sessions keep theirs, and the next check
    for the session decides as it would in a hook that never saw it. *)
Theorem session_deleted_forgets_session o sid st :
  sid <> "" ->
  let r := handle o (SessionDeleted (Some sid)) st in
  snd r = []
  /\ lastCompactionTime (fst r) !! sid = None
  /\ (sid ∉ compactionInProgress (fst r))
  /\ (forall s, s <> sid ->
        lastCompactionTime (fst r) !! s = lastCompactionTime st !! s
        /\ (s ∈ compactionInProgress (fst r) <-> s ∈ compactionInProgress st))
  /\ (forall o' msg, passes o' sid msg (fst r) = passes o' sid msg createState).
Proof.
  intros Hne. cbv zeta. unfold eventHandler. simpl negb. cbv iota.
  assert (Ht : truthy (Some sid) = Some sid).
  { unfold truthy. apply String.eqb_neq in Hne. rewrite Hne. reflexivity. }
  rewrite Ht. simpl.
  split; [reflexivity|]. split; [apply lookup_delete_eq|].
  split; [set_solver|]. split.
  - intros s Hs. split; [apply lookup_delete_ne; congruence | set_solver].
  - intros o' msg. unfold passesTriggerChecks. simpl.
    rewrite lookup_delete_eq, lookup_empty.
    rewrite !bool_decide_eq_false_2 by set_solver. reflexivity.
Qed.

End TriggerMore.

Lemma cooldown_stamped_without_provider_witness :
  snd (checkAndTriggerCompaction 50000 60000 (8 # 10) oracle0 "ses_1" anonymousMessage
         createState) = []
  /\ lastCompactionTime
       (fst (checkAndTriggerCompaction 50000 60000 (8 # 10) oracle0 "ses_1" anonymousMessage
               createState)) !! "ses_1" = Some 100000%Z.
Proof.
  assert (Hp : passesTriggerChecks 50000 60000 (8 # 10) oracle0 "ses_1" anonymousMessage
                 createState = true) by (vm_compute; reflexivity).
  destruct (cooldown_stamped_without_provider 50000 60000 (8 # 10) oracle0 "ses_1"
              anonymousMessage createState Hp (or_introl eq_refl)) as (H1 & H2 & _).
  split; [exact H1 | exact H2].
Defined.

Lemma handler_calls_come_from_checked_message_witness :
  exists sid msg,
    eventSession (MessageUpdated (Some (finished "ses_1" fullMessage))) = Some sid
    /\ passesTriggerChecks 50000 60000 (8 # 10) oracle0 sid msg createState = true.
Proof.
  destruct (handler_calls_come_from_checked_message 50000 60000 (8 # 10) oracle0
              (MessageUpdated (Some (finished "ses_1" fullMessage))) createState
              (Summarize "ses_1" "anthropic" "claude-opus-4-5")
              (setLastCompaction "ses_1" 100000 (addInProgress "ses_1" createState)))
    as (sid & msg & Hs & Hp & _).
  - vm_compute. auto.
  - exists sid, msg. split; [exact Hs | exact Hp].
Defined.


Lemma session_deleted_forgets_session_witness :
  lastCompactionTime
    (fst (eventHandler 50000 60000 (8 # 10) true oracle0 (SessionDeleted (Some "ses_1"))
            stampedState)) !! "ses_1" = None.
Proof.
  assert (Hne : "ses_1" <> "") by discriminate.
  destruct (session_deleted_forgets_session 50000 60000 (8 # 10) oracle0 "ses_1" stampedState Hne)
    as (_ & H & _).
  exact H.
Defined.

End PreemptiveCompactionMoreProofs.

(* ===================================================================== *)
(** ** Further properties of the todo continuation coordinator *)
(* ===================================================================== *)

Module TodoContinuationMoreProofs.
Import JsString TodoContinuation TodoContinuationTimers.

Ltac cases :=
  repeat match goal with
         | |- context [match ?x with _ => _ end] => destruct x eqn:?; simpl
         end.

Lemma effects_clearTimer l st : effects (clearTimer l st) = effects st.
Proof. unfold clearTimer. cases; reflexivity. Qed.

Lemma effects_invalidate sid st : effects (invalidate sid st) = effects st.
Proof.
  unfold invalidate. destruct (stateOf sid st) as [[l s]|]; [|reflexivity].
  destruct (SessionMode_eqb (mode s) recovering); [reflexivity|].
  destruct (negb _ && negb _); simpl; rewrite effects_clearTimer; reflexivity.
Qed.

Lemma effects_getOrCreateState sid st : effects (snd (getOrCreateState sid st)) = effects st.
Proof. unfold getOrCreateState. destruct (sessions st !! sid); reflexivity. Qed.

Lemma effects_markRecovering sid st : effects (markRecovering sid st) = effects st.
Proof.
  unfold markRecovering. simpl. rewrite effects_invalidate. apply effects_getOrCreateState.
Qed.

Lemma effects_markRecoveryComplete sid st : effects (markRecoveryComplete sid st) = effects st.
Proof. unfold markRecoveryComplete. cases; reflexivity. Qed.

Lemma effects_executeInjection w sid v st : effects (executeInjection w sid v st) = effects st.
Proof. unfold executeInjection. cases; reflexivity. Qed.

Lemma effects_handler w e st : effects (handler w e st) = effects st.
Proof.
  destruct e; cbn [handler]; try reflexivity;
    try (destruct (truthy _) as [sid|]; [|reflexivity]).
  - simpl. rewrite effects_invalidate. apply effects_getOrCreateState.
  - destruct (negb (isMainSession w sid)); [reflexivity|].
    destruct (heap _ !! _) as [s|]; [destruct (mode s)|]; simpl;
      apply effects_getOrCreateState.
  - destruct (isRole "user" role).
    + rewrite effects_invalidate. cases; reflexivity.
    + destruct (isRole "assistant" role); [|reflexivity].
      destruct (truthy finish); [reflexivity | apply effects_invalidate].
  - destruct (isRole "assistant" role); [apply effects_invalidate | reflexivity].
  - apply effects_invalidate.
  - apply effects_invalidate.
  - simpl. destruct (sessions st !! sid); [apply effects_clearTimer | reflexivity].
Qed.

Lemma prompts_startCountdown sid n st : prompts (startCountdown sid n st) = prompts st.
Proof.
  unfold startCountdown, prompts. simpl.
  rewrite effects_invalidate, effects_getOrCreateState. reflexivity.
Qed.

Lemma prompts_resumeIdle w sid r st : prompts (resumeIdle w sid r st) = prompts st.
Proof.
  unfold resumeIdle. destruct r as [todos|]; [|reflexivity].
  destruct (length todos =? 0)%nat; [reflexivity|].
  destruct (getIncompleteCount todos =? 0)%nat; [reflexivity|].
  destruct (hasRunningBgTasks w sid); [reflexivity|]. apply prompts_startCountdown.
Qed.

Lemma prompts_tick h l v secs n st : prompts (tick h l v secs n st) = prompts st.
Proof. unfold tick, prompts. cases; reflexivity. Qed.

(** X13. A continuation prompt leaves the coordinator at one place only:
    when the todo fetch of an injection answers. It is sent only if the
    fetch succeeded, the state object still has the version the countdown
    captured, at least one todo is neither completed nor cancelled, no
    background task of the session is running, and the agent of the last
    message has write and edit permission and is no plan-mode agent.
    Every other step (events, timers, recovery calls, failed or stale
    fetches) leaves the prompts sent so far unchanged. *)
Theorem prompt_sent_only_through_open_gates w lbl st :
  prompts (step w lbl st) = prompts st
  \/ exists h sid l v todos s,
       lbl = TodoResult h (Some todos)
       /\ taskAt h st = Some (InjectTodoFetch sid l v)
       /\ heap st !! l = Some s
       /\ version s = v
       /\ 0 < getIncompleteCount todos
       /\ hasRunningBgTasks w sid = false
       /\ agentHasWritePermission (prevMessage w sid) = true
       /\ isPlanModeAgent (prevMessage w sid) = false
       /\ prompts (step w lbl st)
          = Prompt sid (prevAgent (prevMessage w sid))
                   (promptText todos (getIncompleteCount todos)) :: prompts st.
Proof.
  destruct lbl as [e | sid | sid | h | h r | h ok]; cbn [step].
  - left. unfold prompts. rewrite effects_handler. reflexivity.
  - left. unfold prompts. rewrite effects_markRecovering. reflexivity.
  - left. unfold prompts. rewrite effects_markRecoveryComplete. reflexivity.
  - left. destruct (taskAt h st) as [[l v secs n | sid l v i | | |]|]; try reflexivity.
    + apply prompts_tick.
    + unfold prompts. rewrite effects_executeInjection, effects_clearTimer. reflexivity.
  - destruct (taskAt h st) as [[| | sid | sid l v |]|] eqn:Et; try (left; reflexivity).
    + left. rewrite prompts_resumeIdle. reflexivity.
    + unfold resumeInjection.
      destruct r as [todos|]; [|left; reflexivity].
      change (heap (removeTask h st)) with (heap st).
      destruct (heap st !! l) as [s|] eqn:Eh; [|left; reflexivity].
      destruct (version s =? v)%nat eqn:Ev; simpl; [|left; reflexivity].
      destruct (getIncompleteCount todos =? 0)%nat eqn:En; [left; reflexivity|].
      destruct (hasRunningBgTasks w sid) eqn:Eb; [left; reflexivity|].
      destruct (agentHasWritePermission (prevMessage w sid)) eqn:Ew; simpl;
        [|left; reflexivity].
      destruct (isPlanModeAgent (prevMessage w sid)) eqn:Ep; [left; reflexivity|].
      right. exists h, sid, l, v, todos, s.
      apply Nat.eqb_eq in Ev. apply Nat.eqb_neq in En.
      repeat split; auto. lia.
  - left. destruct (taskAt h st) as [[]|]; reflexivity.
Qed.

Lemma truthy_nonempty (s : string) : s <> "" -> truthy (Some s) = Some s.
Proof. intros H. unfold truthy. apply String.eqb_neq in H. rewrite H. reflexivity. Qed.

Lemma stateOf_Some sid st l s :
  stateOf sid st = Some (l, s) <-> sessions st !! sid = Some l /\ heap st !! l = Some s.
Proof.
  unfold stateOf.
  destruct (sessions st !! sid) as [l'|];
    [|split; [discriminate | intros [? _]; discriminate]].
  split.
  - destruct (heap st !! l') as [s'|] eqn:E; [|discriminate].
    intros [= <- <-]. auto.
  - intros [Hl Hh]. injection Hl as ->. rewrite Hh. reflexivity.
Qed.

Lemma stateOf_updState sid l f st s :
  stateOf sid st = Some (l, s) -> stateOf sid (updState l f st) = Some (l, f s).
Proof.
  intros H. apply stateOf_Some in H as [Hs Hh]. apply stateOf_Some. simpl.
  split; [exact Hs|]. rewrite list_lookup_alter_eq, Hh. reflexivity.
Qed.

Lemma stateOf_removeTask sid h st : stateOf sid (removeTask h st) = stateOf sid st.
Proof. reflexivity. Qed.

(** [clearTimer] forgets the timer handle and cancels the timer; the
    rest of the object stays. *)
Lemma stateOf_clearTimer sid l s st :
  stateOf sid st = Some (l, s) ->
  stateOf sid (clearTimer l st) = Some (l, setTimer None s)
  /\ effects (clearTimer l st) = effects st
  /\ length (tasks (clearTimer l st)) = length (tasks st)
  /\ (forall h, timer s = Some h -> taskAt h (clearTimer l st) = None).
Proof.
  intros H. pose proof H as H'. apply stateOf_Some in H' as [Hs Hh].
  unfold clearTimer. rewrite Hh. destruct (timer s) as [h|] eqn:Et.
  - split; [apply (stateOf_updState sid l (setTimer None) (removeTask h st) s); exact H|].
    split; [reflexivity|]. split; [simpl; apply length_insert|].
    intros h' [= <-]. unfold taskAt. simpl.
    destruct (decide (h < length (tasks st))) as [Hlt|Hge].
    + rewrite list_lookup_insert_eq by exact Hlt. reflexivity.
    + rewrite lookup_ge_None_2; [reflexivity|]. rewrite length_insert. lia.
  - split; [|split; [reflexivity|split; [reflexivity|discriminate]]].
    rewrite H. f_equal. f_equal.
    destruct s as [v m tm la]. simpl in Et. subst tm. reflexivity.
Qed.

Lemma taskAt_clearTimer l st h t :
  taskAt h (clearTimer l st) = Some t -> taskAt h st = Some t.
Proof.
  unfold clearTimer. destruct (heap st !! l) as [s|]; [|auto].
  destruct (timer s) as [h'|]; [|auto].
  change (taskAt h (updState l (setTimer None) (removeTask h' st)))
    with (taskAt h (removeTask h' st)).
  intros H. apply TodoContinuationProofs.taskAt_removeTask in H. tauto.
Qed.

(** X14. A countdown that elapses less than [MIN_INJECTION_INTERVAL_MS]
    after the session's last injection attempt sends nothing and starts
    no todo fetch (no task is pending afterwards that was not before); if
    it was still the current countdown the session goes back to idle. *)
Theorem throttled_countdown_sends_nothing w h sid l v i st s t :
  taskAt h st = Some (CountdownTimer sid l v i) ->
  stateOf sid st = Some (l, s) ->
  lastAttemptedAt s = Some t ->
  t <> 0%Z ->
  (now w - t < MIN_INJECTION_INTERVAL_MS)%Z ->
  let st' := step w (Fire h) st in
  effects st' = effects st
  /\ length (tasks st') = length (tasks st)
  /\ (forall h' t', taskAt h' st' = Some t' -> taskAt h' st = Some t')
  /\ (version s = v -> mode s = countingDown -> modeOf sid st' = Some idle).
Proof.
  intros Ht Hst Hla Hnz Hlt. cbv zeta. cbn [step]. rewrite Ht.
  set (st1 := removeTask i (removeTask h st)).
  assert (Hst1 : stateOf sid st1 = Some (l, s)) by exact Hst.
  destruct (stateOf_clearTimer sid l s st1 Hst1) as (Hst2 & He2 & Hl2 & _).
  assert (Hl1 : length (tasks st1) = length (tasks st))
    by (unfold st1; simpl; rewrite !length_insert; reflexivity).
  assert (Hk1 : forall h' t', taskAt h' (clearTimer l st1) = Some t' -> taskAt h' st = Some t').
  { intros h' t' H. apply taskAt_clearTimer in H. unfold st1 in H.
    apply TodoContinuationProofs.taskAt_removeTask in H as [H _].
    apply TodoContinuationProofs.taskAt_removeTask in H as [H _]. exact H. }
  assert (Hthr : throttled (lastAttemptedAt (setTimer None s)) (now w) = true).
  { simpl. rewrite Hla. simpl. apply Z.eqb_neq in Hnz. rewrite Hnz.
    apply Z.ltb_lt. exact Hlt. }
  unfold executeInjection. rewrite Hst2.
  change (version (setTimer None s)) with (version s).
  change (mode (setTimer None s)) with (mode s).
  destruct (version s =? v)%nat eqn:Ev; simpl negb; cbv iota.
  2:{ repeat split; auto; try congruence.
      intros Hv. apply Nat.eqb_neq in Ev. contradiction. }
  destruct (SessionMode_eqb (mode s) countingDown) eqn:Em; simpl negb; cbv iota.
  2:{ repeat split; auto; try congruence.
      intros _ Hm. rewrite Hm in Em. discriminate. }
  rewrite Hthr.
  split; [exact He2|]. split; [simpl; congruence|]. split.
  - intros h' t' H. apply Hk1. exact H.
  - intros _ _. unfold modeOf.
    rewrite (stateOf_updState sid l (setMode idle) _ _ Hst2). reflexivity.
Qed.

Lemma deleted_keeps_objects w sid st l s :
  heap st !! l = Some s ->
  exists s', heap (handler w (SessionDeleted (Some sid)) st) !! l = Some s'
             /\ version s' = version s /\ mode s' = mode s
             /\ lastAttemptedAt s' = lastAttemptedAt s.
Proof.
  intros Hl. cbn [handler]. destruct (truthy (Some sid)) as [sid'|]; [|eauto]. simpl.
  destruct (sessions st !! sid') as [l0|]; [|eauto].
  unfold clearTimer. destruct (heap st !! l0) as [s0|] eqn:E0; [|eauto].
  destruct (timer s0) as [h0|]; [|eauto]. simpl.
  destruct (decide (l0 = l)) as [->|Hn].
  - rewrite list_lookup_alter_eq, Hl. simpl. eauto.
  - rewrite list_lookup_alter_ne by exact Hn. eauto.
Qed.

(** X15. [session.deleted] removes the session's record and cancels its
    countdown timer, sends nothing, and changes no object's version or
    mode: continuations that already hold the object are not
    invalidated. *)
Theorem session_deleted_cleans_up w sid st :
  sid <> "" ->
  let st' := handler w (SessionDeleted (Some sid)) st in
  stateOf sid st' = None
  /\ effects st' = effects st
  /\ (forall l s h, stateOf sid st = Some (l, s) -> timer s = Some h -> taskAt h st' = None)
  /\ (forall l s, heap st !! l = Some s ->
        exists s', heap st' !! l = Some s' /\ version s' = version s /\ mode s' = mode s
                   /\ lastAttemptedAt s' = lastAttemptedAt s)
  /\ (forall sid', sid' <> sid -> sessions st' !! sid' = sessions st !! sid').
Proof.
  intros Hne. cbv zeta. cbn [handler]. rewrite (truthy_nonempty sid Hne).
  split.
  { unfold stateOf. simpl. rewrite lookup_delete_eq. reflexivity. }
  split.
  { simpl. destruct (sessions st !! sid); [apply effects_clearTimer | reflexivity]. }
  split.
  { intros l s h Hst Hh. pose proof Hst as Hst'. apply stateOf_Some in Hst' as [Hs _].
    rewrite Hs. destruct (stateOf_clearTimer sid l s st Hst) as (_ & _ & _ & Hk).
    exact (Hk h Hh). }
  split.
  { intros l s Hl. pose proof (deleted_keeps_objects w sid st l s Hl) as H.
    cbn [handler] in H. rewrite (truthy_nonempty sid Hne) in H. exact H. }
  intros sid' Hs. simpl. rewrite lookup_delete_ne by congruence.
  destruct (sessions st !! sid); [rewrite TodoContinuationProofs.sessions_clearTimer|]; reflexivity.
Qed.

Lemma resumeInjection_open w sid l v todos st s :
  heap st !! l = Some s ->
  version s = v ->
  0 < getIncompleteCount todos ->
  hasRunningBgTasks w sid = false ->
  agentHasWritePermission (prevMessage w sid) = true ->
  isPlanModeAgent (prevMessage w sid) = false ->
  resumeInjection w sid l v (Some todos) st
  = addTask (InjectPrompt l)
      (emit (Prompt sid (prevAgent (prevMessage w sid))
                    (promptText todos (getIncompleteCount todos)))
         (updState l (setLastAttemptedAt (now w)) st)).
Proof.
  intros Hl Hv Hn Hb Hw Hp. unfold resumeInjection. rewrite Hl, Hv, Nat.eqb_refl.
  simpl negb. cbv iota.
  destruct (getIncompleteCount todos) as [|n] eqn:En; [lia|]. simpl Nat.eqb. cbv iota.
  rewrite Hb, Hw, Hp. reflexivity.
Qed.

(** X16. An injection that is waiting for its todo fetch when the session is
    deleted is not stopped by the deletion: the deletion bumps no
    version, so when the fetch answers with open gates the continuation
    prompt is still sent to the deleted session. *)
Theorem injection_in_flight_outlives_session_deleted w w' h sid l v todos st s :
  sid <> "" ->
  taskAt h st = Some (InjectTodoFetch sid l v) ->
  heap st !! l = Some s ->
  version s = v ->
  (forall l' s', stateOf sid st = Some (l', s') -> timer s' <> Some h) ->
  0 < getIncompleteCount todos ->
  hasRunningBgTasks w' sid = false ->
  agentHasWritePermission (prevMessage w' sid) = true ->
  isPlanModeAgent (prevMessage w' sid) = false ->
  let st' := run [ (w, Deliver (SessionDeleted (Some sid)));
                   (w', TodoResult h (Some todos)) ] st in
  stateOf sid st' = None
  /\ prompts st'
     = Prompt sid (prevAgent (prevMessage w' sid))
              (promptText todos (getIncompleteCount todos)) :: prompts st.
Proof.
  intros Hne Ht Hl Hv Htimer Hn Hb Hw Hp. cbv zeta.
  cbn [run]. set (st1 := step w (Deliver (SessionDeleted (Some sid))) st).
  assert (Heff : effects st1 = effects st) by apply effects_handler.
  assert (Ht1 : taskAt h st1 = Some (InjectTodoFetch sid l v)).
  { unfold st1. cbn [step handler]. rewrite (truthy_nonempty sid Hne).
    unfold taskAt. simpl.
    destruct (sessions st !! sid) as [l0|] eqn:Es; [|exact Ht].
    unfold clearTimer. destruct (heap st !! l0) as [s0|] eqn:E0; [|exact Ht].
    destruct (timer s0) as [h0|] eqn:Et0; [|exact Ht]. simpl.
    assert (Hh : h0 <> h).
    { intros ->. apply (Htimer l0 s0); [|exact Et0]. apply stateOf_Some. auto. }
    rewrite list_lookup_insert_ne by exact Hh. exact Ht. }
  destruct (deleted_keeps_objects w sid st l s Hl) as (s1 & Hl1 & Hv1 & _).
  change (handler w (SessionDeleted (Some sid)) st) with st1 in Hl1.
  assert (Hstep : step w' (TodoResult h (Some todos)) st1
                  = addTask (InjectPrompt l)
                      (emit (Prompt sid (prevAgent (prevMessage w' sid))
                                    (promptText todos (getIncompleteCount todos)))
                         (updState l (setLastAttemptedAt (now w')) (removeTask h st1)))).
  { cbn [step]. rewrite Ht1.
    apply (resumeInjection_open w' sid l v todos (removeTask h st1) s1); auto; congruence. }
  rewrite Hstep. split.
  - unfold stateOf. simpl.
    assert (Hs : sessions st1 !! sid = None).
    { unfold st1. cbn [step handler]. rewrite (truthy_nonempty sid Hne). simpl.
      apply lookup_delete_eq. }
    rewrite Hs. reflexivity.
  - unfold prompts. simpl. rewrite Heff. reflexivity.
Qed.

Lemma invalidate_recovering sid st l s :
  stateOf sid st = Some (l, s) -> mode s = recovering -> invalidate sid st = st.
Proof. intros H Hm. unfold invalidate. rewrite H, Hm. reflexivity. Qed.

Lemma getOrCreateState_existing sid st l s :
  stateOf sid st = Some (l, s) -> getOrCreateState sid st = (l, st).
Proof.
  intros H. apply stateOf_Some in H as [Hs _]. unfold getOrCreateState. rewrite Hs.
  reflexivity.
Qed.

(** X17. While a session is recovering, its events other than
    [session.error] and [session.deleted] change nothing at all: no
    version bump, no timer cleared, no todo fetch started.
    [markRecoveryComplete] then puts the session back to idle with the
    version it had. *)
Theorem recovering_session_ignores_events w e st sid l s :
  stateOf sid st = Some (l, s) ->
  mode s = recovering ->
  eventSession e = Some sid ->
  isDeletion e = false ->
  (forall x, e <> SessionError x) ->
  handler w e st = st
  /\ stateOf sid (markRecoveryComplete sid st) = Some (l, setMode idle s).
Proof.
  intros Hst Hm He Hd Herr. split.
  - destruct e as [x | x | x role finish | x role | x | x | x |];
      cbn in He, Hd; try discriminate; cbn [handler]; rewrite ?He.
    + exfalso. exact (Herr x eq_refl).
    + destruct (negb (isMainSession w sid)); [reflexivity|].
      rewrite (getOrCreateState_existing _ _ _ _ Hst). cbn [fst snd].
      apply stateOf_Some in Hst as [_ Hh]. rewrite Hh, Hm. reflexivity.
    + destruct (isRole "user" role).
      * rewrite Hst, Hm. simpl. eapply invalidate_recovering; eassumption.
      * destruct (isRole "assistant" role); [|reflexivity].
        destruct (truthy finish); [reflexivity|].
        eapply invalidate_recovering; eassumption.
    + destruct (isRole "assistant" role); [|reflexivity].
      eapply invalidate_recovering; eassumption.
    + eapply invalidate_recovering; eassumption.
    + eapply invalidate_recovering; eassumption.
  - unfold markRecoveryComplete. rewrite Hst, Hm. simpl.
    apply stateOf_updState. exact Hst.
Qed.

(** X18. A [session.error] that arrives while the session is recovering
    replaces the recovering mode by errorBypass without bumping the
    version; [markRecoveryComplete] then finds no recovering session and
    changes nothing, and a [session.idle] that follows starts nothing.
    That is all the error stops: a todo fetch that an earlier
    [session.idle] left pending is not called off, and when it answers
    the countdown starts over the errorBypass mode and ends in a prompt,
    as the run idle, [markRecovering], error, answer, timer, answer
    shows. *)
Theorem session_error_ends_recovery w sid st l s :
  sid <> "" ->
  stateOf sid st = Some (l, s) ->
  mode s = recovering ->
  let st1 := handler w (SessionError (Some sid)) st in
  let parked := [ Deliver (SessionIdle (Some "ses_main")); MarkRecovering "ses_main";
                  Deliver (SessionError (Some "ses_main")) ] in
  stateOf sid st1 = Some (l, setMode errorBypass s)
  /\ markRecoveryComplete sid st1 = st1
  /\ handler w (SessionIdle (Some sid)) st1 = st1
  /\ (modeOf "ses_main" (run (on quietWorld parked) init) = Some errorBypass
      /\ modeOf "ses_main" (run (on quietWorld (parked ++ [ TodoResult 0 (Some todos3) ])) init)
         = Some countingDown
      /\ length (prompts (run (on quietWorld
                                 (parked ++ [ TodoResult 0 (Some todos3); Fire 2;
                                              TodoResult 3 (Some todos3) ]))
                              init)) = 1).
Proof.
  intros Hne Hst Hm. cbv zeta. cbn [handler]. rewrite (truthy_nonempty sid Hne).
  rewrite (getOrCreateState_existing _ _ _ _ Hst). cbn [fst snd].
  rewrite (invalidate_recovering _ _ _ _ Hst Hm).
  pose proof (stateOf_updState sid l (setMode errorBypass) st s Hst) as Hst1.
  split; [exact Hst1|]. split; [| split].
  - unfold markRecoveryComplete. rewrite Hst1. reflexivity.
  - destruct (negb (isMainSession w sid)); [reflexivity|].
    rewrite (getOrCreateState_existing _ _ _ _ Hst1). cbn [fst snd].
    apply stateOf_Some in Hst1 as [_ Hh]. rewrite Hh. reflexivity.
  - repeat split; vm_compute; reflexivity.
Qed.

(** X19. A user message ends errorBypass: the session is idle again with its
    version raised by one and no timer, nothing is sent, and the next
    [session.idle] of the main session starts a todo fetch. *)
Theorem user_message_clears_errorBypass w sid finish st l s :
  sid <> "" ->
  stateOf sid st = Some (l, s) ->
  mode s = errorBypass ->
  isMainSession w sid = true ->
  let st1 := handler w (MessageUpdated (Some sid) (Some "user") finish) st in
  stateOf sid st1 = Some (l, setTimer None (bump (setMode idle s)))
  /\ effects st1 = effects st
  /\ tasks (handler w (SessionIdle (Some sid)) st1)
     = (tasks st1 ++ [Some (IdleTodoFetch sid)])%list.
Proof.
  intros Hne Hst Hm Hmain. cbv zeta.
  assert (Hst1 : stateOf sid (handler w (MessageUpdated (Some sid) (Some "user") finish) st)
                 = Some (l, setTimer None (bump (setMode idle s)))).
  { cbn [handler]. rewrite (truthy_nonempty sid Hne). simpl isRole. cbv iota.
    rewrite Hst, Hm. simpl SessionMode_eqb. cbv iota.
    pose proof (stateOf_updState sid l (setMode idle) st s Hst) as H1.
    unfold invalidate. rewrite H1. simpl SessionMode_eqb. simpl negb. simpl andb. cbv iota.
    pose proof (stateOf_updState sid l bump _ _ H1) as H2.
    destruct (stateOf_clearTimer sid l _ _ H2) as (H3 & _). exact H3. }
  split; [exact Hst1|]. split; [apply effects_handler|].
  set (st1 := handler w (MessageUpdated (Some sid) (Some "user") finish) st) in *.
  cbn [handler]. rewrite (truthy_nonempty sid Hne).
  rewrite Hmain. simpl negb. cbv iota.
  rewrite (getOrCreateState_existing _ _ _ _ Hst1). cbn [fst snd].
  apply stateOf_Some in Hst1 as [_ Hh]. rewrite Hh. reflexivity.
Qed.

Lemma throttled_countdown_sends_nothing_witness :
  effects (step quietWorld (Fire 2) countdownSoonAfterAttempt) = []
  /\ modeOf "ses_main" (step quietWorld (Fire 2) countdownSoonAfterAttempt) = Some idle.
Proof.
  destruct (throttled_countdown_sends_nothing quietWorld 2 "ses_main" 0 4 1
              countdownSoonAfterAttempt
              {| version := 4; mode := countingDown; timer := Some 2;
                 lastAttemptedAt := Some 95000%Z |} 95000)
    as (He & _ & _ & Hm); try reflexivity; try discriminate.
  split; [exact He | apply Hm; reflexivity].
Defined.

Lemma session_deleted_cleans_up_witness :
  stateOf "ses_main"
          (handler quietWorld (SessionDeleted (Some "ses_main")) countdownSoonAfterAttempt)
  = None.
Proof.
  assert (Hne : "ses_main" <> "") by discriminate.
  destruct (session_deleted_cleans_up quietWorld "ses_main" countdownSoonAfterAttempt Hne)
    as (H & _).
  exact H.
Defined.

Lemma injection_in_flight_outlives_session_deleted_witness :
  length (prompts (run [ (quietWorld, Deliver (SessionDeleted (Some "ses_main")));
                         (quietWorld, TodoResult 3 (Some todos3)) ] injectionInFlight)) = 1.
Proof.
  assert (Hne : "ses_main" <> "") by discriminate.
  assert (Htimer : forall l' s', stateOf "ses_main" injectionInFlight = Some (l', s') ->
                                 timer s' <> Some 3).
  { intros l' s' H. vm_compute in H. injection H as <- <-. discriminate. }
  assert (Hn : 0 < getIncompleteCount todos3) by (vm_compute; lia).
  pose proof (injection_in_flight_outlives_session_deleted quietWorld quietWorld 3 "ses_main"
                0 2 todos3 injectionInFlight
                {| version := 2; mode := injecting; timer := None; lastAttemptedAt := None |}
                Hne eq_refl eq_refl eq_refl Htimer Hn eq_refl eq_refl eq_refl) as [_ Hp].
  rewrite Hp. reflexivity.
Defined.

Lemma recovering_session_ignores_events_witness :
  handler quietWorld (ToolExecuteBefore (Some "ses_main")) recoveringSession
  = recoveringSession.
Proof.
  refine (proj1 (recovering_session_ignores_events quietWorld
                   (ToolExecuteBefore (Some "ses_main")) recoveringSession "ses_main" 0
                   {| version := 3; mode := recovering; timer := None;
                      lastAttemptedAt := None |} _ _ _ _ _));
    try reflexivity.
  intros x H. discriminate H.
Defined.

Lemma session_error_ends_recovery_witness :
  modeOf "ses_main"
         (markRecoveryComplete "ses_main"
            (handler quietWorld (SessionError (Some "ses_main")) recoveringSession))
  = Some errorBypass.
Proof.
  assert (Hne : "ses_main" <> "") by discriminate.
  destruct (session_error_ends_recovery quietWorld "ses_main" recoveringSession 0
              {| version := 3; mode := recovering; timer := None; lastAttemptedAt := None |}
              Hne eq_refl eq_refl) as (H1 & H2 & _).
  rewrite H2. unfold modeOf. rewrite H1. reflexivity.
Defined.

Lemma user_message_clears_errorBypass_witness :
  modeOf "ses_main"
         (handler quietWorld (MessageUpdated (Some "ses_main") (Some "user") None)
                  bypassedSession)
  = Some idle.
Proof.
  assert (Hne : "ses_main" <> "") by discriminate.
  destruct (user_message_clears_errorBypass quietWorld "ses_main" None bypassedSession 0
              {| version := 3; mode := errorBypass; timer := None; lastAttemptedAt := None |}
              Hne eq_refl eq_refl eq_refl) as (H1 & _).
  unfold modeOf. rewrite H1. reflexivity.
Defined.

Lemma errorBypass_kept_by_events_witness :
  bypassed "ses_main" bypassedSession
           (handler quietWorld (SessionIdle (Some "ses_main")) bypassedSession).
Proof.
  apply (ErrorBypassProofs.errorBypass_kept_by_events quietWorld
           (SessionIdle (Some "ses_main")) bypassedSession "ses_main" 0
           {| version := 3; mode := errorBypass; timer := None; lastAttemptedAt := None |});
    reflexivity.
Defined.

End TodoContinuationMoreProofs.

(* ===================================================================== *)
(** ** At most one countdown per session, never a stale one *)
(* ===================================================================== *)

Module TodoContinuationTimerProofs.
Import JsString TodoContinuation TodoContinuationTimers TodoContinuationProofs.

Lemma taskAt_updState h l f st : taskAt h (updState l f st) = taskAt h st.
Proof. reflexivity. Qed.

Lemma taskAt_emit h e st : taskAt h (emit e st) = taskAt h st.
Proof. reflexivity. Qed.

Lemma taskAt_addTask h t st t' :
  taskAt h (addTask t st) = Some t' ->
  taskAt h st = Some t' \/ (h = length (tasks st) /\ t' = t).
Proof.
  unfold taskAt. simpl. destruct (decide (h < length (tasks st))) as [Hlt|Hge].
  - rewrite lookup_app_l by exact Hlt. auto.
  - rewrite lookup_app_r by lia.
    destruct (h - length (tasks st)) as [|k] eqn:E; simpl; [|discriminate].
    intros [= <-]. right. split; [lia | reflexivity].
Qed.

Lemma taskAt_setTask h h' t st t' :
  taskAt h' (setTask h t st) = Some t' ->
  (h' <> h /\ taskAt h' st = Some t') \/ (h' = h /\ t' = t).
Proof.
  unfold taskAt. simpl. destruct (decide (h = h')) as [->|Hne].
  - destruct (decide (h' < length (tasks st))) as [Hlt|Hge].
    + rewrite list_lookup_insert_eq by exact Hlt. intros [= <-]. auto.
    + rewrite list_insert_ge by lia. rewrite lookup_ge_None_2 by lia. discriminate.
  - rewrite list_lookup_insert_ne by exact Hne. intros H. left. split; [congruence | exact H].
Qed.

(** A change of the heap that keeps timer handle and version of every
    object and makes none recovering, with no new countdown timer, keeps
    [timerOk]. *)
Lemma timerOk_frame st st' :
  (forall l s, heap st !! l = Some s ->
     exists s', heap st' !! l = Some s' /\ timer s' = timer s /\ version s' = version s
                /\ (mode s <> recovering -> mode s' <> recovering)) ->
  (forall h l v, pendingCountdown h l v st' -> pendingCountdown h l v st) ->
  timerOk st -> timerOk st'.
Proof.
  intros Hheap Htasks Hok h l v Hp.
  destruct (Hok h l v (Htasks _ _ _ Hp)) as (s & Hs & Ht & Hv & Hm).
  destruct (Hheap l s Hs) as (s' & Hs' & Ht' & Hv' & Hm').
  exists s'. repeat split; try congruence. auto.
Qed.

Lemma timerOk_updState l f st :
  (forall s, timer (f s) = timer s /\ version (f s) = version s
             /\ (mode s <> recovering -> mode (f s) <> recovering)) ->
  timerOk st -> timerOk (updState l f st).
Proof.
  intros Hf. apply timerOk_frame; [|auto].
  intros l' s Hs. simpl. destruct (decide (l = l')) as [->|Hne].
  - rewrite list_lookup_alter_eq, Hs. simpl. exists (f s). split; [reflexivity|]. apply Hf.
  - rewrite list_lookup_alter_ne by exact Hne. exists s. auto.
Qed.

Lemma same_heap_frame st st' :
  heap st' = heap st ->
  forall l s, heap st !! l = Some s ->
    exists s', heap st' !! l = Some s' /\ timer s' = timer s /\ version s' = version s
               /\ (mode s <> recovering -> mode s' <> recovering).
Proof. intros -> l s Hs. exists s. auto. Qed.

Lemma timerOk_emit e st : timerOk st -> timerOk (emit e st).
Proof. apply timerOk_frame; [apply same_heap_frame; reflexivity | auto]. Qed.

Lemma timerOk_removeTask h st : timerOk st -> timerOk (removeTask h st).
Proof.
  apply timerOk_frame; [apply same_heap_frame; reflexivity|].
  intros h' l v (sid & i & H). apply TodoContinuationProofs.taskAt_removeTask in H as [H _].
  exists sid, i. exact H.
Qed.

Lemma timerOk_addTask t st : notCountdown t -> timerOk st -> timerOk (addTask t st).
Proof.
  intros Ht. apply timerOk_frame; [apply same_heap_frame; reflexivity|].
  intros h' l v (sid & i & H). apply taskAt_addTask in H as [H | [_ H]].
  - exists sid, i. exact H.
  - subst t. destruct Ht.
Qed.

Lemma timerOk_setTask h t st : notCountdown t -> timerOk st -> timerOk (setTask h t st).
Proof.
  intros Ht. apply timerOk_frame; [apply same_heap_frame; reflexivity|].
  intros h' l v (sid & i & H). apply taskAt_setTask in H as [[_ H] | [_ H]].
  - exists sid, i. exact H.
  - subst t. destruct Ht.
Qed.

Lemma timerOk_getOrCreateState sid st : timerOk st -> timerOk (snd (getOrCreateState sid st)).
Proof.
  unfold getOrCreateState. destruct (sessions st !! sid); [auto|]. simpl.
  apply timerOk_frame; [|auto].
  intros l s Hs. simpl. exists s. split; [|auto].
  apply lookup_app_l_Some. exact Hs.
Qed.

(** With no countdown pending for the object at [l], any change of that
    object keeps [timerOk]. *)
Lemma timerOk_updState_quiet l f st : quiet l st -> timerOk st -> timerOk (updState l f st).
Proof.
  intros Hq Hok h l' v Hp.
  assert (Hp' : pendingCountdown h l' v st) by exact Hp.
  destruct (decide (l = l')) as [->|Hne]; [destruct (Hq _ _ Hp')|].
  destruct (Hok _ _ _ Hp') as (s & Hs & Hrest).
  exists s. split; [|exact Hrest]. simpl. rewrite list_lookup_alter_ne by exact Hne. exact Hs.
Qed.

Lemma quiet_frame l st st' :
  (forall h v, pendingCountdown h l v st' -> pendingCountdown h l v st) ->
  quiet l st -> quiet l st'.
Proof. intros H Hq h v Hp. exact (Hq h v (H _ _ Hp)). Qed.

Lemma quiet_updState l l' f st : quiet l st -> quiet l (updState l' f st).
Proof. apply quiet_frame. auto. Qed.

Lemma quiet_emit l e st : quiet l st -> quiet l (emit e st).
Proof. apply quiet_frame. auto. Qed.

Lemma quiet_addTask l t st : notCountdown t -> quiet l st -> quiet l (addTask t st).
Proof.
  intros Ht. apply quiet_frame. intros h v (sid & i & H).
  apply taskAt_addTask in H as [H | [_ H]]; [exists sid, i; exact H | subst t; destruct Ht].
Qed.

(** After [clearTimer] no countdown is pending for the object. *)
Lemma timerOk_clearTimer l st :
  timerOk st -> timerOk (clearTimer l st) /\ quiet l (clearTimer l st).
Proof.
  intros Hok. unfold clearTimer.
  destruct (heap st !! l) as [s|] eqn:Hs.
  2:{ split; [exact Hok|]. intros h v Hp. destruct (Hok _ _ _ Hp) as (s & Hs' & _). congruence. }
  destruct (timer s) as [h0|] eqn:Ht.
  2:{ split; [exact Hok|]. intros h v Hp.
      destruct (Hok _ _ _ Hp) as (s' & Hs' & Ht' & _). congruence. }
  assert (Hq : quiet l (removeTask h0 st)).
  { intros h v (sid & i & H).
    apply TodoContinuationProofs.taskAt_removeTask in H as [H Hne].
    destruct (Hok h l v) as (s' & Hs' & Ht' & _); [exists sid, i; exact H|]. congruence. }
  split.
  - apply timerOk_updState_quiet; [exact Hq | apply timerOk_removeTask; exact Hok].
  - apply quiet_updState. exact Hq.
Qed.

(** No countdown is pending for an object that is recovering or that
    has no timer handle. *)
Lemma timerOk_quiet l s st :
  timerOk st -> heap st !! l = Some s -> mode s = recovering \/ timer s = None -> quiet l st.
Proof.
  intros Hok Hs Hor h v Hp. destruct (Hok _ _ _ Hp) as (s' & Hs' & Ht' & _ & Hm').
  assert (s' = s) by congruence. subst s'. destruct Hor; congruence.
Qed.

Lemma timerOk_invalidate sid st :
  timerOk st ->
  timerOk (invalidate sid st)
  /\ (forall l s, stateOf sid st = Some (l, s) -> quiet l (invalidate sid st)).
Proof.
  intros Hok. unfold invalidate.
  destruct (stateOf sid st) as [[l s]|] eqn:Hst; [|split; [exact Hok | discriminate]].
  pose proof (TodoContinuationProofs.stateOf_heap _ _ _ _ Hst) as Hs.
  destruct (SessionMode_eqb (mode s) recovering) eqn:Em.
  { split; [exact Hok|]. intros l' s' [= <- <-].
    eapply timerOk_quiet; [exact Hok | exact Hs|]. left. destruct (mode s); try discriminate.
    reflexivity. }
  (* the version bump and the timer removal, taken together *)
  assert (Hboth : timerOk (clearTimer l (updState l bump st))
                  /\ quiet l (clearTimer l (updState l bump st))).
  { unfold clearTimer. simpl heap. rewrite list_lookup_alter_eq, Hs. simpl.
    destruct (timer s) as [h0|] eqn:Ht.
    - assert (Hq : quiet l (removeTask h0 st)).
      { intros h v (sid' & i & H).
        apply TodoContinuationProofs.taskAt_removeTask in H as [H Hne].
        destruct (Hok h l v) as (s' & Hs' & Ht' & _); [exists sid', i; exact H|]. congruence. }
      change (removeTask h0 (updState l bump st)) with (updState l bump (removeTask h0 st)).
      split.
      + apply timerOk_updState_quiet; [apply quiet_updState; exact Hq|].
        apply (timerOk_updState_quiet l bump (removeTask h0 st) Hq).
        apply timerOk_removeTask. exact Hok.
      + apply quiet_updState. apply quiet_updState. exact Hq.
    - assert (Hq : quiet l st) by (eapply timerOk_quiet; [exact Hok | exact Hs | auto]).
      split; [apply timerOk_updState_quiet; assumption | apply quiet_updState; exact Hq]. }
  destruct Hboth as [Hok' Hq'].
  destruct (negb _ && negb _).
  - split; [apply timerOk_updState_quiet; assumption|].
    intros l' s' [= <- <-]. apply quiet_updState. exact Hq'.
  - split; [exact Hok'|]. intros l' s' [= <- <-]. exact Hq'.
Qed.

Lemma timerOk_startCountdown sid n st :
  Inv st -> timerOk st -> timerOk (startCountdown sid n st).
Proof.
  intros HI Hok. unfold startCountdown. cbv zeta.
  destruct (Inv_getOrCreateState sid st HI) as [HI1 Hsid].
  pose proof (timerOk_getOrCreateState sid st Hok) as Hok1.
  set (p := getOrCreateState sid st) in *.
  destruct HI1 as [Hw1 Hk1].
  destruct (Hw1 sid (fst p) Hsid) as [sa Hsa].
  assert (Hst : stateOf sid (snd p) = Some (fst p, sa)).
  { unfold stateOf. rewrite Hsid, Hsa. reflexivity. }
  destruct (timerOk_invalidate sid (snd p) Hok1) as [Hok0 Hq0].
  specialize (Hq0 _ _ Hst).
  set (st0 := invalidate sid (snd p)) in *.
  destruct (mono_invalidate sid (snd p) _ _ Hsa) as (s0 & Hs0 & _). fold st0 in Hs0.
  set (st1 := updState (fst p) (fun s => setMode countingDown (bump s)) st0).
  assert (Hok1' : timerOk st1) by (apply timerOk_updState_quiet; assumption).
  assert (Hq1 : quiet (fst p) st1) by (apply quiet_updState; exact Hq0).
  assert (Hs1 : heap st1 !! fst p = Some (setMode countingDown (bump s0)))
    by exact (heap_updState_eq (fst p) (fun s => setMode countingDown (bump s)) st0 s0 Hs0).
  rewrite Hs1.
  set (cv := version (setMode countingDown (bump s0))).
  set (st3 := addTask (ToastInterval (fst p) cv COUNTDOWN_SECONDS n)
                      (emit (ShowToast COUNTDOWN_SECONDS n) st1)).
  assert (Hok3 : timerOk st3)
    by (apply timerOk_addTask; [exact I | apply timerOk_emit; exact Hok1']).
  assert (Hq3 : quiet (fst p) st3)
    by (apply quiet_addTask; [exact I | apply quiet_emit; exact Hq1]).
  assert (Hs3 : heap st3 !! fst p = Some (setMode countingDown (bump s0))) by exact Hs1.
  intros h l v (sid' & i & H).
  rewrite taskAt_updState in H. apply taskAt_addTask in H as [H | [Hh H]].
  - assert (Hp : pendingCountdown h l v st3) by (exists sid', i; exact H).
    destruct (decide (l = fst p)) as [->|Hne]; [destruct (Hq3 _ _ Hp)|].
    destruct (Hok3 _ _ _ Hp) as (s & Hs & Hrest).
    exists s. split; [|exact Hrest]. simpl.
    rewrite list_lookup_alter_ne by congruence. exact Hs.
  - injection H as E1 E2 E3 E4. subst sid' l v i.
    exists (setTimer (Some (length (tasks st3))) (setMode countingDown (bump s0))).
    split.
    + simpl heap. rewrite !list_lookup_alter_eq, Hs0. reflexivity.
    + split; [rewrite Hh; reflexivity|]. split; [reflexivity | discriminate].
Qed.

Lemma timerOk_resumeIdle w sid r st :
  Inv st -> timerOk st -> timerOk (resumeIdle w sid r st).
Proof.
  intros HI Hok. unfold resumeIdle. destruct r as [todos|]; [|exact Hok].
  destruct (length todos =? 0)%nat; [exact Hok|].
  destruct (getIncompleteCount todos =? 0)%nat; [exact Hok|].
  destruct (hasRunningBgTasks w sid); [exact Hok|].
  apply timerOk_startCountdown; assumption.
Qed.

Ltac keeps := intros []; simpl; repeat split; auto; discriminate.

Lemma timerOk_executeInjection w sid v st : timerOk st -> timerOk (executeInjection w sid v st).
Proof.
  intros Hok. unfold executeInjection.
  destruct (stateOf sid st) as [[l s]|]; [|exact Hok].
  destruct (negb _); [exact Hok|]. destruct (negb _); [exact Hok|].
  destruct (throttled _ _).
  - apply timerOk_updState; [keeps | exact Hok].
  - apply timerOk_addTask; [exact I|]. apply timerOk_updState; [keeps | exact Hok].
Qed.

Lemma timerOk_resumeInjection w sid l v r st :
  timerOk st -> timerOk (resumeInjection w sid l v r st).
Proof.
  intros Hok. unfold resumeInjection.
  assert (Hidle : timerOk (updState l (setMode idle) st))
    by (apply timerOk_updState; [keeps | exact Hok]).
  destruct r as [todos|]; [|exact Hidle].
  destruct (heap st !! l) as [s|]; [|exact Hok].
  destruct (negb _); [exact Hidle|].
  destruct (_ =? 0)%nat; [exact Hidle|].
  destruct (hasRunningBgTasks w sid); [exact Hidle|].
  destruct (negb _); [exact Hidle|].
  destruct (isPlanModeAgent _); [exact Hidle|].
  apply timerOk_addTask; [exact I|]. apply timerOk_emit.
  apply timerOk_updState; [keeps | exact Hok].
Qed.

Lemma timerOk_markRecovering sid st :
  Inv st -> timerOk st -> timerOk (markRecovering sid st).
Proof.
  intros HI Hok. unfold markRecovering. cbv zeta.
  destruct (Inv_getOrCreateState sid st HI) as [[Hw1 _] Hsid].
  pose proof (timerOk_getOrCreateState sid st Hok) as Hok1.
  set (p := getOrCreateState sid st) in *.
  destruct (Hw1 sid (fst p) Hsid) as [sa Hsa].
  assert (Hst : stateOf sid (snd p) = Some (fst p, sa)).
  { unfold stateOf. rewrite Hsid, Hsa. reflexivity. }
  destruct (timerOk_invalidate sid (snd p) Hok1) as [Hok0 Hq0].
  apply timerOk_updState_quiet; [exact (Hq0 _ _ Hst) | exact Hok0].
Qed.

Lemma timerOk_markRecoveryComplete sid st :
  timerOk st -> timerOk (markRecoveryComplete sid st).
Proof.
  intros Hok. unfold markRecoveryComplete.
  destruct (stateOf sid st) as [[l s]|]; [|exact Hok].
  destruct (SessionMode_eqb _ _); [|exact Hok].
  apply timerOk_updState; [keeps | exact Hok].
Qed.

Lemma timerOk_handler w e st : Inv st -> timerOk st -> timerOk (handler w e st).
Proof.
  intros HI Hok.
  destruct e as [x | x | x role finish | x role | x | x | x |]; cbn [handler];
    try exact Hok; (destruct (truthy x) as [sid|]; [|exact Hok]).
  - apply timerOk_updState; [keeps|].
    apply timerOk_invalidate. apply timerOk_getOrCreateState. exact Hok.
  - destruct (negb (isMainSession w sid)); [exact Hok|].
    pose proof (timerOk_getOrCreateState sid st Hok) as Hok1.
    destruct (heap _ !! _) as [s|]; [|exact Hok1].
    destruct (mode s); try exact Hok1. apply timerOk_addTask; [exact I | exact Hok1].
  - destruct (isRole "user" role).
    + apply timerOk_invalidate.
      destruct (stateOf sid st) as [[l s]|]; [|exact Hok].
      destruct (SessionMode_eqb _ _); [|exact Hok].
      apply timerOk_updState; [keeps | exact Hok].
    + destruct (isRole "assistant" role); [|exact Hok].
      destruct (truthy finish); [exact Hok | apply timerOk_invalidate; exact Hok].
  - destruct (isRole "assistant" role); [apply timerOk_invalidate|]; exact Hok.
  - apply timerOk_invalidate; exact Hok.
  - apply timerOk_invalidate; exact Hok.
  - assert (H1 : timerOk match sessions st !! sid with
                         | Some l => clearTimer l st
                         | None => st
                         end).
    { destruct (sessions st !! sid); [apply timerOk_clearTimer|]; exact Hok. }
    revert H1. apply timerOk_frame; [apply same_heap_frame; reflexivity | auto].
Qed.

Lemma timerOk_tick h l v secs n st : timerOk st -> timerOk (tick h l v secs n st).
Proof.
  intros Hok. unfold tick. destruct (heap st !! l) as [s|]; [|exact Hok].
  destruct (negb _); [apply timerOk_removeTask; exact Hok|]. cbv zeta.
  destruct (0 <? secs - 1)%Z; [apply timerOk_emit|];
    (apply timerOk_setTask; [exact I | exact Hok]).
Qed.

Lemma timerOk_step w lbl st : Inv st -> timerOk st -> timerOk (step w lbl st).
Proof.
  intros HI Hok. destruct lbl as [e | sid | sid | h | h r | h ok]; cbn [step].
  - apply timerOk_handler; assumption.
  - apply timerOk_markRecovering; assumption.
  - apply timerOk_markRecoveryComplete; assumption.
  - destruct (taskAt h st) as [[l v secs n | sid l v i | | |]|]; try exact Hok.
    + apply timerOk_tick. exact Hok.
    + apply timerOk_executeInjection. apply timerOk_clearTimer.
      apply timerOk_removeTask. apply timerOk_removeTask. exact Hok.
  - destruct (taskAt h st) as [[| | sid | sid l v |]|]; try exact Hok.
    + apply timerOk_resumeIdle; [apply Inv_removeTask; exact HI|].
      apply timerOk_removeTask. exact Hok.
    + apply timerOk_resumeInjection. apply timerOk_removeTask. exact Hok.
  - destruct (taskAt h st) as [[]|]; try exact Hok.
    apply timerOk_updState; [keeps|]. apply timerOk_removeTask. exact Hok.
Qed.

Lemma timerOk_run trace st : Inv st -> timerOk st -> timerOk (run trace st).
Proof.
  revert st. induction trace as [|[w lbl] rest IH]; intros st HI Hok; simpl; [exact Hok|].
  apply IH; [apply Inv_step; exact HI | apply timerOk_step; assumption].
Qed.

(** X20. In every state the coordinator can reach, a pending countdown timer
    is the one its session object has in [timer], it holds the object's
    current version (so it is never stale: whatever bumps the version
    also cancels the timer), and its object is not recovering. Hence at
    most one countdown is pending per session object. *)
Theorem pending_countdown_is_current_and_unique trace :
  let st := run trace init in
  timerOk st
  /\ (forall h1 h2 l v1 v2,
        pendingCountdown h1 l v1 st -> pendingCountdown h2 l v2 st -> h1 = h2 /\ v1 = v2).
Proof.
  cbv zeta.
  assert (Hok : timerOk (run trace init)).
  { apply timerOk_run; [apply Inv_init|].
    intros h l v (sid & i & H). unfold taskAt in H. simpl in H. discriminate. }
  split; [exact Hok|].
  intros h1 h2 l v1 v2 H1 H2.
  destruct (Hok _ _ _ H1) as (s1 & Hs1 & Ht1 & Hv1 & _).
  destruct (Hok _ _ _ H2) as (s2 & Hs2 & Ht2 & Hv2 & _).
  assert (s1 = s2) by congruence. subst s2. split; congruence.
Qed.

(** The invariant is about something: after an idle event and the
    answer of its todo fetch a countdown is pending. *)
Lemma countdown_pending_after_idle :
  pendingCountdown 2 0 2 (run (on quietWorld (idleThenTodos "ses_main" todos3)) init).
Proof. exists "ses_main", 1. vm_compute. reflexivity. Qed.

End TodoContinuationTimerProofs.

(* ===================================================================== *)
(** ** Properties of the orchestrator's events and write/edit hooks *)
(* ===================================================================== *)

Module SisyphusOrchestratorEventProofs.
Import JsString SisyphusOrchestrator SisyphusOrchestratorEvents.

Lemma prefix_split (k s : string) :
  String.prefix k s = true <-> exists post, s = k ++ post.
Proof.
  revert s. induction k as [|a k IH]; intros s.
  - split; [intros _; exists s; reflexivity | intros _; apply DirectiveProofs.prefix_nil].
  - destruct s as [|b s]; simpl.
    + split; [discriminate | intros [post H]; discriminate].
    + destruct (ascii_dec a b) as [->|Hne].
      * rewrite IH. split; intros [post H]; exists post.
        -- rewrite DirectiveProofs.app_cons, H. reflexivity.
        -- rewrite DirectiveProofs.app_cons in H. injection H as H. exact H.
      * split; [discriminate|]. intros [post H].
        rewrite DirectiveProofs.app_cons in H. injection H as H1 H2. congruence.
Qed.

(** [s.includes(k)] holds exactly when [s] is some text, then [k], then
    some text. *)
Lemma includes_split (s k : string) :
  includes s k = true <-> exists pre post, s = pre ++ k ++ post.
Proof.
  split.
  - induction s as [|c s IH]; cbn [includes].
    + destruct (String.prefix k "") eqn:E; [|discriminate].
      intros _. apply prefix_split in E as [post E]. exists "", post. exact E.
    + destruct (String.prefix k (String c s)) eqn:E.
      * intros _. apply prefix_split in E as [post E]. exists "", post. exact E.
      * intros H. destruct (IH H) as (pre & post & ->).
        exists (String c pre), post. reflexivity.
  - intros (pre & post & ->). apply DirectiveProofs.includes_app_r.
    apply DirectiveProofs.includes_app_l.
    destruct k as [|a k]; [reflexivity|]. cbn [includes].
    assert (H : String.prefix (String a k) (String a k) = true).
    { apply prefix_split. exists "". clear. induction (String a k) as [|x y IH]; [reflexivity|].
      rewrite DirectiveProofs.app_cons, <- IH. reflexivity. }
    rewrite H. reflexivity.
Qed.

(** X22. A path counts as inside [.sisyphus/] exactly when the text
    [.sisyphus] followed by a slash or a backslash occurs somewhere in
    it: the test looks at no path structure, so it also accepts a path
    that leaves the directory again through [..] and a directory whose
    name merely ends in [.sisyphus]. *)
Theorem isSisyphusPath_is_substring_test (filePath : string) :
  isSisyphusPath filePath = true
  <-> exists pre sep post,
        filePath = pre ++ ".sisyphus" ++ sep ++ post /\ (sep = "/" \/ sep = backslash).
Proof.
  unfold isSisyphusPath. rewrite orb_true_iff, !includes_split. split.
  - intros [(pre & post & ->) | (pre & post & ->)].
    + exists pre, "/", post. split; [reflexivity | auto].
    + exists pre, backslash, post. split; [reflexivity | auto].
  - intros (pre & sep & post & -> & [-> | ->]).
    + left. exists pre, post. reflexivity.
    + right. exists pre, post. reflexivity.
Qed.

Lemma truthy_ok (s : string) : s <> "" -> truthy (Some s) = Some s.
Proof. intros H. unfold truthy. apply String.eqb_neq in H. rewrite H. reflexivity. Qed.

Lemma truthy_Some_inv (o : option string) (s : string) :
  truthy o = Some s -> o = Some s /\ s <> "".
Proof.
  unfold truthy. destruct o as [x|]; [|discriminate].
  destruct (String.eqb x "") eqn:E; [discriminate|].
  intros [= <-]. apply String.eqb_neq in E. auto.
Qed.

Lemma idle_gate (w : World) (sid : string) :
  (match truthy (mainSessionID w) with Some _ => true | None => false end)
  && negb (match mainSessionID w with Some m => String.eqb sid m | None => false end)
  && negb (bool_decide (sid ∈ subagentSessions w))
  && negb (match boulderState w with
           | Some b => existsb (String.eqb sid) (session_ids b)
           | None => false
           end)
  = negb (idleAllowed w sid).
Proof. unfold idleAllowed. rewrite negb_involutive. reflexivity. Qed.

Section HandlerProofs.
Variable continuationPromptFor : string -> string.

Local Abbreviation handle := (handler continuationPromptFor).
Local Abbreviation inject := (injectContinuation continuationPromptFor).

(** X23. The handler calls out only to inject the continuation prompt, and
    only on [session.idle] of a session that passes every gate: the
    session is let through (no main session set, or main, background or
    boulder session), its last event was no abort error, no background
    task of it is running, a boulder state exists, the last agent of the
    session is the orchestrator, and the plan is not complete. The prompt
    goes to that session, as the orchestrator agent. *)
Theorem continuation_only_through_open_gates w e st eff :
  In eff (snd (handle w e st)) ->
  exists sid b,
    e = SessionIdle (Some sid)
    /\ sid <> ""
    /\ idleAllowed w sid = true
    /\ st !! sid <> Some (Some true)
    /\ hasRunningBgTasks w sid = false
    /\ boulderState w = Some b
    /\ isCallerOrchestrator (nearestAgent w sid) = true
    /\ isComplete (getPlanProgress w (active_plan b)) = false
    /\ exists model text, eff = Prompt sid "orchestrator-sisyphus" model text.
Proof.
  destruct e as [x err | x | x | x role | x | x | x |]; cbn [handler];
    try (destruct (truthy x); intros []); try (intros []).
  - destruct (truthy x) as [sid|] eqn:Ex; [|intros []].
    apply truthy_Some_inv in Ex as [-> Hne].
    rewrite (idle_gate w sid).
    destruct (idleAllowed w sid) eqn:Ea; simpl negb; cbv iota; [|intros []].
    assert (Hflag : getState sid st !! sid = Some (Some true) <-> st !! sid = Some (Some true)).
    { unfold getState. destruct (st !! sid) as [f|] eqn:E; cbv iota; [rewrite E; tauto|].
      rewrite lookup_insert_eq. split; discriminate. }
    destruct (getState sid st !! sid) as [[[|]|]|] eqn:Ef; try (intros []);
      (assert (Hno : st !! sid <> Some (Some true))
         by (intros H; apply Hflag in H; discriminate));
      (destruct (hasRunningBgTasks w sid) eqn:Eb; [intros []|]);
      (destruct (boulderState w) as [b|] eqn:Ebs; [|intros []]);
      (destruct (isCallerOrchestrator (nearestAgent w sid)) eqn:Ec; simpl negb; cbv iota;
         [|intros []]);
      (destruct (isComplete (getPlanProgress w (active_plan b))) eqn:Ep; [intros []|]);
      cbv zeta; unfold injectContinuation; rewrite Eb; cbn [snd In];
      intros [<- | []]; exists sid, b; repeat split; auto; eauto.
  - destruct (truthy x); [|intros []].
    destruct (match role with Some r => String.eqb r "assistant" | None => false end);
      intros [].
Qed.

(** What an idle event sends depends on the records only through the
    abort flag of its session. *)
Lemma idle_effects_by_flag w sid st :
  sid <> "" ->
  snd (handle w (SessionIdle (Some sid)) st)
  = if idleAllowed w sid && abortFlag sid st then []
    else snd (handle w (SessionIdle (Some sid)) ∅).
Proof.
  intros Hne. cbn [handler]. rewrite (truthy_ok sid Hne), (idle_gate w sid).
  destruct (idleAllowed w sid); simpl negb; cbv iota; [|reflexivity].
  simpl andb. unfold abortFlag, getState. rewrite lookup_empty, lookup_insert_eq.
  destruct (st !! sid) as [[[|]|]|] eqn:E; rewrite ?E, ?lookup_insert_eq; cbv iota;
    try reflexivity;
    destruct (hasRunningBgTasks w sid); try reflexivity;
    destruct (boulderState w); try reflexivity;
    destruct (negb _); try reflexivity;
    destruct (isComplete _); reflexivity.
Qed.

Lemma idle_flag_after w sid st :
  sid <> "" ->
  idleAllowed w sid = true ->
  abortFlag sid (fst (handle w (SessionIdle (Some sid)) st)) = false.
Proof.
  intros Hne Ha. cbn [handler]. rewrite (truthy_ok sid Hne), (idle_gate w sid), Ha.
  simpl negb. cbv iota. unfold abortFlag, getState.
  destruct (st !! sid) as [[[|]|]|] eqn:E; rewrite ?E, ?lookup_insert_eq; cbv iota;
    simpl fst; rewrite ?lookup_insert_eq, ?E; try reflexivity;
    destruct (hasRunningBgTasks w sid); simpl fst; rewrite ?lookup_insert_eq, ?E;
    try reflexivity;
    destruct (boulderState w); simpl fst; rewrite ?lookup_insert_eq, ?E; try reflexivity;
    destruct (negb _); simpl fst; rewrite ?lookup_insert_eq, ?E; try reflexivity;
    destruct (isComplete _); simpl fst; rewrite ?lookup_insert_eq, ?E; reflexivity.
Qed.

(** X24. An abort error suppresses exactly one idle: the next [session.idle]
    of the session that the gate lets through sends nothing and takes the
    flag away, so the idle after it sends what a hook that never saw the
    abort would send. *)
Theorem abort_error_skips_one_idle w0 w1 sid error st :
  sid <> "" ->
  isAbortError error = true ->
  idleAllowed w1 sid = true ->
  let st1 := fst (handle w0 (SessionError (Some sid) error) st) in
  let r1 := handle w1 (SessionIdle (Some sid)) st1 in
  snd r1 = []
  /\ forall w2, snd (handle w2 (SessionIdle (Some sid)) (fst r1))
                = snd (handle w2 (SessionIdle (Some sid)) ∅).
Proof.
  intros Hne Hab Ha. cbv zeta.
  assert (Hflag : abortFlag sid (fst (handle w0 (SessionError (Some sid) error) st)) = true).
  { cbn [handler]. rewrite (truthy_ok sid Hne). simpl. unfold abortFlag.
    rewrite lookup_insert_eq, Hab. reflexivity. }
  split.
  - rewrite (idle_effects_by_flag w1 sid _ Hne), Ha, Hflag. reflexivity.
  - intros w2. rewrite (idle_effects_by_flag w2 sid _ Hne).
    rewrite (idle_flag_after w1 sid _ Hne Ha), andb_false_r. reflexivity.
Qed.

(** X25. Anything that happens in the session after an abort error takes
    the flag away: after a message update, an assistant part update, a
    tool event, an error that is no abort, or the deletion of the
    session, the next idle sends what a hook that never saw the abort
    would send. *)
Theorem activity_clears_abort_flag w e sid st :
  clearsAbort sid e = true ->
  abortFlag sid (fst (handle w e st)) = false
  /\ forall w2, snd (handle w2 (SessionIdle (Some sid)) (fst (handle w e st)))
                = snd (handle w2 (SessionIdle (Some sid)) ∅).
Proof.
  intros Hc.
  assert (Hflag : abortFlag sid (fst (handle w e st)) = false).
  { assert (Hclear : abortFlag sid (clearAbortFlag sid st) = false).
    { unfold abortFlag, clearAbortFlag. destruct (st !! sid) eqn:E;
        [rewrite lookup_insert_eq | rewrite E]; reflexivity. }
    unfold clearsAbort, names in Hc.
    destruct e as [x err | x | x | x role | x | x | x |]; try discriminate;
      cbn [handler]; (destruct (truthy x) as [s|]; [|discriminate]);
      try apply andb_prop in Hc as [Hc Hc2];
      apply String.eqb_eq in Hc; subst s; simpl fst; try exact Hclear.
    - apply negb_true_iff in Hc2. unfold abortFlag. rewrite lookup_insert_eq, Hc2. reflexivity.
    - rewrite Hc2. exact Hclear.
    - unfold abortFlag. rewrite lookup_delete_eq. reflexivity. }
  split; [exact Hflag|]. intros w2.
  destruct (String.eqb_spec sid "") as [->|Hne].
  - cbn [handler]. reflexivity.
  - rewrite (idle_effects_by_flag w2 sid _ Hne), Hflag, andb_false_r. reflexivity.
Qed.

End HandlerProofs.

Section WriteEditProofs.
Variable delegationWarningFor : string -> string.

Local Abbreviation before := (beforeWriteEdit delegationWarningFor).

(** X26. A write or edit by the orchestrator on a path outside [.sisyphus/]
    is warned about before it runs and reminded about after it ran, and
    the two hooks leave no entry behind: the before-hook appends the
    delegation warning to the message and remembers the path under the
    call id; the after-hook for the same call appends the direct-work
    reminder to the output whatever path the tool's metadata reports, and
    removes the entry. *)
Theorem write_outside_sisyphus_warned_then_reminded
        nearest tool callID c args p message metadataPath output pending :
  isCallerOrchestrator nearest = true ->
  In tool WRITE_EDIT_TOOLS ->
  truthy callID = Some c ->
  truthy (argPath args) = Some p ->
  isSisyphusPath p = false ->
  let r1 := before nearest tool callID args message pending in
  let r2 := afterWriteEdit nearest tool callID metadataPath output (snd r1) in
  fst r1 = Some (default "" (truthy message) ++ delegationWarningFor p)
  /\ snd r1 !! c = Some p
  /\ fst r2 = Some (default "" (truthy output) ++ DIRECT_WORK_REMINDER)
  /\ snd r2 = delete c pending.
Proof.
  intros Ho Ht Hc Hp Hs. cbv zeta.
  assert (Htool : existsb (String.eqb tool) WRITE_EDIT_TOOLS = true).
  { apply existsb_exists. exists tool. split; [exact Ht | apply String.eqb_refl]. }
  assert (Hpne : truthy (Some p) = Some p).
  { apply truthy_Some_inv in Hp as [_ Hne]. apply truthy_ok. exact Hne. }
  unfold beforeWriteEdit, afterWriteEdit.
  rewrite Ho, Htool, Hp, Hs, Hc. simpl negb. cbv iota. simpl fst. simpl snd.
  rewrite lookup_insert_eq, Hpne, Hpne, Hs. simpl negb. cbv iota. simpl fst. simpl snd.
  repeat split. apply delete_insert_eq.
Qed.

(** X27. Paths inside [.sisyphus/] are left alone by both hooks: no warning,
    no remembered path, no reminder. *)
Theorem sisyphus_write_left_alone
        nearest tool callID args p message output pending :
  truthy (argPath args) = Some p ->
  isSisyphusPath p = true ->
  (forall c, truthy callID = Some c -> pending !! c = None) ->
  before nearest tool callID args message pending = (message, pending)
  /\ afterWriteEdit nearest tool callID (Some p) output pending = (output, pending).
Proof.
  intros Hp Hs Hfree.
  assert (Hpne : truthy (Some p) = Some p).
  { apply truthy_Some_inv in Hp as [_ Hne]. apply truthy_ok. exact Hne. }
  unfold beforeWriteEdit, afterWriteEdit.
  destruct (negb (isCallerOrchestrator nearest)); [auto|].
  destruct (existsb (String.eqb tool) WRITE_EDIT_TOOLS); [|auto].
  rewrite Hp, Hs. simpl negb. cbv iota. split; [reflexivity|].
  destruct (truthy callID) as [c|] eqn:Hc.
  - rewrite (Hfree c eq_refl). change (truthy None) with (@None string). cbv iota.
    rewrite Hpne, Hs. simpl negb. cbv iota.
    f_equal. apply delete_id. apply Hfree. reflexivity.
  - change (truthy None) with (@None string). cbv iota. rewrite Hpne, Hs. reflexivity.
Qed.

End WriteEditProofs.

Lemma append_nil_r (s : string) : s ++ "" = s.
Proof.
  induction s as [|c s IH]; [reflexivity|]. rewrite DirectiveProofs.app_cons, IH. reflexivity.
Qed.

Lemma includes_refl (s : string) : includes s s = true.
Proof.
  apply includes_split. exists "", "".
  rewrite DirectiveProofs.app_nil_l, append_nil_r. reflexivity.
Qed.

Section AfterHookProofs.
Variable orchestratorReminderFor : string -> PlanProgress -> string -> string.
Variable standaloneReminderFor : string -> string.

Local Abbreviation after := (toolExecuteAfter orchestratorReminderFor standaloneReminderFor).

(** X28. ["tool.execute.after"] never loses what the tool returned: whatever
    the caller, the tool and the surroundings, the new output contains
    the original output verbatim (wrapped for a finished [sisyphus_task],
    followed by the reminder for a write or edit, unchanged otherwise).
    A session id is written to the boulder state only if the state does
    not list it yet, and the map of remembered paths loses at most the
    entry of this call. *)
Theorem after_hook_keeps_tool_output
        nearest tool sessionID callID metadataPath o pending fileChanges boulder progress :
  let r := after nearest tool sessionID callID metadataPath (Some o) pending fileChanges
                 boulder progress in
  (exists out, fst (fst r) = Some out /\ includes out o = true)
  /\ (forall sid, In (AppendSessionId sid) (snd r) ->
        exists b, boulder = Some b /\ truthy sessionID = Some sid
                  /\ existsb (String.eqb sid) (session_ids b) = false)
  /\ (forall c, snd (fst r) !! c <> pending !! c -> truthy callID = Some c).
Proof.
  cbv zeta. unfold toolExecuteAfter.
  assert (Hsame : exists out, Some o = Some out /\ includes out o = true)
    by (exists o; split; [reflexivity | apply includes_refl]).
  destruct (negb (isCallerOrchestrator nearest)).
  { simpl. split; [exact Hsame|]. split; [intros sid []|]. intros c H. congruence. }
  destruct (existsb (String.eqb tool) WRITE_EDIT_TOOLS).
  - simpl snd. split; [|split; [intros sid []|]].
    + unfold afterWriteEdit. simpl negb.
      destruct (negb (isCallerOrchestrator nearest)); [exact Hsame|].
      destruct (existsb (String.eqb tool) WRITE_EDIT_TOOLS); [|exact Hsame].
      cbv zeta.
      destruct (truthy match truthy _ with Some p => Some p | None => metadataPath end)
        as [p|]; [|exact Hsame].
      destruct (negb (isSisyphusPath p)); [|exact Hsame].
      simpl fst. eexists. split; [reflexivity|].
      unfold truthy. destruct (String.eqb o "") eqn:E; simpl.
      * apply String.eqb_eq in E. subst o.
        first [reflexivity | apply DirectiveProofs.includes_nil].
      * apply DirectiveProofs.includes_app_l. apply includes_refl.
    + intros c. unfold afterWriteEdit.
      destruct (negb (isCallerOrchestrator nearest)); [simpl; congruence|].
      destruct (existsb (String.eqb tool) WRITE_EDIT_TOOLS); [|simpl; congruence].
      cbv zeta.
      assert (Hd : match truthy callID with Some c' => delete c' pending | None => pending end
                   !! c <> pending !! c -> truthy callID = Some c).
      { destruct (truthy callID) as [c'|]; [|congruence].
        destruct (decide (c' = c)) as [->|Hne]; [auto|].
        rewrite lookup_delete_ne by exact Hne. congruence. }
      destruct (truthy match truthy _ with Some p => Some p | None => metadataPath end)
        as [p|]; [destruct (negb (isSisyphusPath p))|]; simpl; exact Hd.
  - cbv zeta. simpl fst. simpl snd. split; [|split; [|intros c H; congruence]].
    + unfold afterSisyphusTask.
      destruct (negb (String.eqb tool "sisyphus_task")); [exact Hsame|]. cbv zeta.
      destruct (includes _ _ || includes _ _); [exact Hsame|].
      destruct (truthy (Some o)) as [orig|] eqn:Eo; [|exact Hsame].
      apply truthy_Some_inv in Eo as [[= ->] _].
      destruct boulder as [b|]; simpl fst; eexists; (split; [reflexivity|]).
      * do 13 apply DirectiveProofs.includes_app_r.
        apply DirectiveProofs.includes_app_l. apply includes_refl.
      * apply DirectiveProofs.includes_app_l. apply includes_refl.
    + intros sid. unfold afterSisyphusTask.
      destruct (negb (String.eqb tool "sisyphus_task")); [intros []|]. cbv zeta.
      destruct (includes _ _ || includes _ _); [intros []|].
      destruct (truthy (Some o)) as [orig|]; [|intros []].
      destruct boulder as [b|]; [|intros []]. simpl snd.
      destruct (truthy sessionID) as [sid'|] eqn:Es; [|intros []].
      destruct (existsb (String.eqb sid') (session_ids b)) eqn:Ee; simpl negb; cbv iota;
        [intros []|].
      intros [[= <-] | []]. exists b. auto.
Qed.

End AfterHookProofs.

Lemma stripPrefix_spec (k s r : string) : stripPrefix k s = Some r <-> s = k ++ r.
Proof.
  revert s. induction k as [|a k IH]; intros s; simpl.
  - rewrite DirectiveProofs.app_nil_l. split; [intros [= ->] | intros ->]; reflexivity.
  - destruct s as [|b s]; [split; discriminate|].
    rewrite DirectiveProofs.app_cons. destruct (Ascii.eqb_spec a b) as [->|Hne].
    + rewrite IH. split; [intros -> | intros [= ->]]; reflexivity.
    + split; [discriminate | intros [= ? ?]; congruence].
Qed.

(** [skipSpaces] takes a run of space characters off the front. *)
Lemma skipSpaces_split (n : nat) :
  forall s, String.length s <= n ->
  exists ws, s = ws ++ skipSpaces s /\ skipSpaces ws = "".
Proof.
  induction n as [|n IH]; intros s Hlen.
  - destruct s; [|simpl in Hlen; lia]. exists "". split; reflexivity.
  - destruct s as [|a s1]; [exists ""; split; reflexivity|].
    simpl in Hlen. cbn [skipSpaces].
    destruct (isAsciiSpace a) eqn:E1.
    { destruct (IH s1) as (ws & Hs & Hws); [lia|].
      exists (String a ws). rewrite DirectiveProofs.app_cons, <- Hs.
      split; [reflexivity|]. cbn [skipSpaces]. rewrite E1. exact Hws. }
    destruct s1 as [|b s2]; [exists ""; split; reflexivity|].
    simpl in Hlen.
    destruct (isSpace2 a b) eqn:E2.
    { destruct (IH s2) as (ws & Hs & Hws); [lia|].
      exists (String a (String b ws)). rewrite !DirectiveProofs.app_cons, <- Hs.
      split; [reflexivity|]. cbn [skipSpaces]. rewrite E1, E2. exact Hws. }
    destruct s2 as [|c s3]; [exists ""; split; reflexivity|].
    simpl in Hlen.
    destruct (isSpace3 a b c) eqn:E3; [|exists ""; split; reflexivity].
    destruct (IH s3) as (ws & Hs & Hws); [lia|].
    exists (String a (String b (String c ws))). rewrite !DirectiveProofs.app_cons, <- Hs.
    split; [reflexivity|]. cbn [skipSpaces]. rewrite E1, E2, E3. exact Hws.
Qed.

(** A run of space characters in front of text that starts with no
    space is skipped entirely. *)
Lemma skipSpaces_run (n : nat) (r : string) :
  skipSpaces r = r ->
  forall ws, String.length ws <= n -> skipSpaces ws = "" -> skipSpaces (ws ++ r) = r.
Proof.
  intros Hr. induction n as [|n IH]; intros ws Hlen Hws.
  - destruct ws; [|simpl in Hlen; lia]. rewrite DirectiveProofs.app_nil_l. exact Hr.
  - destruct ws as [|a s1]; [rewrite DirectiveProofs.app_nil_l; exact Hr|].
    simpl in Hlen. rewrite DirectiveProofs.app_cons. cbn [skipSpaces] in Hws |- *.
    destruct (isAsciiSpace a) eqn:E1; [apply IH; [lia | exact Hws]|].
    destruct s1 as [|b s2]; [discriminate|].
    simpl in Hlen. rewrite DirectiveProofs.app_cons.
    destruct (isSpace2 a b) eqn:E2; [apply IH; [lia | exact Hws]|].
    destruct s2 as [|c s3]; [discriminate|].
    simpl in Hlen. rewrite DirectiveProofs.app_cons.
    destruct (isSpace3 a b c) eqn:E3; [apply IH; [lia | exact Hws] | discriminate].
Qed.

Lemma takeAlnum_split (s : string) :
  exists post, s = takeAlnum s ++ post /\ allChars isAlnum (takeAlnum s) = true
               /\ endsId post = true.
Proof.
  induction s as [|c s IH]; [exists ""; repeat split|].
  cbn [takeAlnum]. destruct (isAlnum c) eqn:E.
  - destruct IH as (post & Hs & Ha & He). exists post.
    rewrite DirectiveProofs.app_cons, <- Hs. cbn [allChars]. rewrite E, Ha. auto.
  - exists (String c s). rewrite DirectiveProofs.app_nil_l. cbn [endsId allChars].
    rewrite E. auto.
Qed.

Lemma takeAlnum_app (found post : string) :
  allChars isAlnum found = true -> endsId post = true -> takeAlnum (found ++ post) = found.
Proof.
  intros Ha He. induction found as [|c found IH].
  - rewrite DirectiveProofs.app_nil_l. destruct post as [|c post]; [reflexivity|].
    cbn [endsId] in He. cbn [takeAlnum]. apply negb_true_iff in He. rewrite He. reflexivity.
  - cbn [allChars] in Ha. apply andb_prop in Ha as [Hc Ha].
    rewrite DirectiveProofs.app_cons. cbn [takeAlnum]. rewrite Hc, (IH Ha). reflexivity.
Qed.

Lemma firstMatchFrom_split (s r : string) :
  firstMatchFrom s = Some r -> exists pre tail, s = pre ++ tail /\ matchHere tail = Some r.
Proof.
  induction s as [|c s IH]; cbn [firstMatchFrom].
  - destruct (matchHere "") eqn:E; [|discriminate]. intros [= ->]. exists "", "". auto.
  - destruct (matchHere (String c s)) eqn:E.
    + intros [= ->]. exists "", (String c s). auto.
    + intros H. destruct (IH H) as (pre & tail & -> & Hm).
      exists (String c pre), tail. auto.
Qed.

(** X29. [extractSessionIdFromOutput] invents nothing: its result is either
    the placeholder or an id [ses_] followed by letters and digits that
    stands in the output right after [Session ID:] and a run of space
    characters, taken to its full length. *)
Theorem extracted_session_id_stands_in_output (output : string) :
  extractSessionIdFromOutput output = "<session_id>"
  \/ exists pre ws found post,
       output = pre ++ "Session ID:" ++ ws ++ "ses_" ++ found ++ post
       /\ skipSpaces ws = ""
       /\ found <> ""
       /\ allChars isAlnum found = true
       /\ endsId post = true
       /\ extractSessionIdFromOutput output = "ses_" ++ found.
Proof.
  unfold extractSessionIdFromOutput.
  destruct (firstMatchFrom output) as [r|] eqn:E; [|left; reflexivity].
  right. apply firstMatchFrom_split in E as (pre & tail & -> & Hm).
  unfold matchHere in Hm.
  destruct (stripPrefix "Session ID:" tail) as [rest|] eqn:E1; [|discriminate].
  apply stripPrefix_spec in E1. subst tail.
  destruct (skipSpaces_split (String.length rest) rest (le_n _)) as (ws & Hrest & Hws).
  destruct (stripPrefix "ses_" (skipSpaces rest)) as [rest'|] eqn:E2; [|discriminate].
  apply stripPrefix_spec in E2.
  destruct (takeAlnum_split rest') as (post & Hr' & Ha & He).
  destruct (takeAlnum rest') as [|c found] eqn:E3; [discriminate|].
  injection Hm as <-.
  exists pre, ws, (String c found), post.
  split; [|repeat split; auto; discriminate].
  rewrite Hrest at 1. rewrite E2. rewrite Hr' at 1. reflexivity.
Qed.

(** X30. The id is found again in an output that announces it: for a
    non-empty id of letters and digits that the text does not continue,
    written after [Session ID:] and any run of space characters, with no
    earlier [Session ID:] in the output, the function returns exactly
    [ses_] and the id. *)
Theorem announced_session_id_is_extracted (pre ws found post : string) :
  includes pre "Session ID:" = false ->
  skipSpaces ws = "" ->
  found <> "" ->
  allChars isAlnum found = true ->
  endsId post = true ->
  extractSessionIdFromOutput (pre ++ "Session ID:" ++ ws ++ "ses_" ++ found ++ post)
  = "ses_" ++ found.
Proof.
  intros Hpre Hws Hne Ha He.
  set (tail := ws ++ "ses_" ++ found ++ post).
  assert (Hhere : matchHere ("Session ID:" ++ tail) = Some ("ses_" ++ found)).
  { unfold matchHere.
    assert (E1 : stripPrefix "Session ID:" ("Session ID:" ++ tail) = Some tail)
      by (apply stripPrefix_spec; reflexivity).
    rewrite E1. unfold tail.
    rewrite (skipSpaces_run (String.length ws) ("ses_" ++ found ++ post));
      [|reflexivity | apply le_n | exact Hws].
    assert (E2 : stripPrefix "ses_" ("ses_" ++ found ++ post) = Some (found ++ post))
      by (apply stripPrefix_spec; reflexivity).
    rewrite E2, (takeAlnum_app found post Ha He).
    destruct found; [contradiction | reflexivity]. }
  unfold extractSessionIdFromOutput.
  assert (H : firstMatchFrom (pre ++ "Session ID:" ++ tail) = Some ("ses_" ++ found)).
  { induction pre as [|c pre IH].
    - rewrite DirectiveProofs.app_nil_l.
      change ("Session ID:" ++ tail) with (String "S" ("ession ID:" ++ tail)) in *.
      cbn [firstMatchFrom]. rewrite Hhere. reflexivity.
    - apply DirectiveProofs.includes_cons_false in Hpre as [Hp Hpre].
      rewrite DirectiveProofs.app_cons. cbn [firstMatchFrom].
      destruct (matchHere (String c (pre ++ "Session ID:" ++ tail))) as [r|] eqn:Em;
        [|apply IH; exact Hpre].
      exfalso. unfold matchHere in Em.
      destruct (stripPrefix "Session ID:" (String c (pre ++ "Session ID:" ++ tail)))
        as [rest|] eqn:E1; [|discriminate].
      apply stripPrefix_spec in E1.
      change ("Session ID:" ++ rest) with (String "S" ("ession ID:" ++ rest)) in E1.
      injection E1 as -> E1.
      assert (Hk : String.prefix "ession ID:" (pre ++ String "S" ("ession ID:" ++ tail))
                   = true) by (apply prefix_split; exists rest; exact E1).
      apply DirectiveProofs.prefix_straddle in Hk as [Hk | Hk]; [|discriminate].
      assert (Hfull : String.prefix "Session ID:" (String "S" pre) = true).
      { apply prefix_split in Hk as [post' ->]. apply prefix_split. exists post'.
        reflexivity. }
      congruence. }
  rewrite H. reflexivity.
Qed.

Lemma continuation_only_through_open_gates_witness :
  exists sid, idleAllowed boulderWorld sid = true
              /\ isCallerOrchestrator (nearestAgent boulderWorld sid) = true.
Proof.
  destruct (snd (handler promptStub boulderWorld (SessionIdle (Some "ses_1")) ∅))
    as [|eff rest] eqn:E.
  - vm_compute in E. discriminate E.
  - destruct (continuation_only_through_open_gates promptStub boulderWorld
                (SessionIdle (Some "ses_1")) ∅ eff)
      as (sid & b & _ & _ & Ha & _ & _ & _ & Hc & _).
    + rewrite E. left. reflexivity.
    + exists sid. split; [exact Ha | exact Hc].
Defined.

Lemma abort_error_skips_one_idle_witness :
  snd (handler promptStub boulderWorld (SessionIdle (Some "ses_1"))
         (fst (handler promptStub boulderWorld (SessionError (Some "ses_1") abortError) ∅)))
  = [].
Proof.
  assert (Hne : "ses_1" <> "") by discriminate.
  destruct (abort_error_skips_one_idle promptStub boulderWorld boulderWorld "ses_1"
              abortError ∅ Hne eq_refl eq_refl) as [H _].
  exact H.
Defined.

Lemma activity_clears_abort_flag_witness :
  abortFlag "ses_1"
            (fst (handler promptStub boulderWorld (ToolExecuteAfter (Some "ses_1"))
                    (fst (handler promptStub boulderWorld
                            (SessionError (Some "ses_1") abortError) ∅))))
  = false.
Proof.
  destruct (activity_clears_abort_flag promptStub boulderWorld
              (ToolExecuteAfter (Some "ses_1")) "ses_1"
              (fst (handler promptStub boulderWorld
                      (SessionError (Some "ses_1") abortError) ∅)) eq_refl) as [H _].
  exact H.
Defined.

Lemma write_outside_sisyphus_warned_then_reminded_witness :
  snd (afterWriteEdit (Some "orchestrator-sisyphus") "Write" (Some "call_1") None
         (Some "ok")
         (snd (beforeWriteEdit warningStub (Some "orchestrator-sisyphus") "Write"
                 (Some "call_1") (writeArgs "src/index.ts") None ∅)))
  = delete "call_1" ∅.
Proof.
  assert (Ht : In "Write" WRITE_EDIT_TOOLS) by (left; reflexivity).
  destruct (write_outside_sisyphus_warned_then_reminded warningStub
              (Some "orchestrator-sisyphus") "Write" (Some "call_1") "call_1"
              (writeArgs "src/index.ts") "src/index.ts" None None (Some "ok") ∅
              eq_refl Ht eq_refl eq_refl eq_refl) as (_ & _ & _ & H).
  exact H.
Defined.

Lemma sisyphus_write_left_alone_witness :
  beforeWriteEdit warningStub (Some "orchestrator-sisyphus") "Edit" (Some "call_1")
                  (writeArgs ".sisyphus/plans/auth.md") None ∅
  = (None, ∅).
Proof.
  assert (Hfree : forall c, truthy (Some "call_1") = Some c
                            -> (∅ : gmap string string) !! c = None).
  { intros c _. apply lookup_empty. }
  destruct (sisyphus_write_left_alone warningStub (Some "orchestrator-sisyphus") "Edit"
              (Some "call_1") (writeArgs ".sisyphus/plans/auth.md")
              ".sisyphus/plans/auth.md" None None ∅ eq_refl eq_refl Hfree) as [H _].
  exact H.
Defined.

Lemma announced_session_id_is_extracted_witness :
  extractSessionIdFromOutput
    ("Task finished." ++ nl ++ "Session ID:" ++ " " ++ "ses_" ++ "abc123" ++ nl ++ "Done.")
  = "ses_abc123".
Proof.
  apply (announced_session_id_is_extracted ("Task finished." ++ nl) " " "abc123"
                                           (nl ++ "Done."));
    first [reflexivity | discriminate].
Defined.

End SisyphusOrchestratorEventProofs.
